(** * MontePy / MCNPy: a shallow embedding of the syntax nodes, the
    half-space algebra, the card formatter and the isotope identifier
    parser.

    Python objects become records, mutation becomes explicit state
    passing, and a raised exception becomes the [Raise] branch of
    [result]. *)

From Stdlib Require Import ZArith QArith Qpower Qabs String Ascii List Bool.
From Stdlib Require Import Lia Lra Lqa.
From Stdlib Require Reals.
From stdpp Require Import gmap strings list.
Import ListNotations.

(** ** Exceptions and results *)

(** The exceptions the modelled code raises.  [BrokenObjectLinkError]
    carries the four constructor arguments the source passes. *)
Inductive exception : Type :=
  | TypeError
  | ValueError
  | NameError (name : string)
  | UnboundLocalError (name : string)
  | AttributeError (attr : string)
  | IndexError
  | UnsupportedFeature
  | MalformedInputError
  | UnknownElement
  | OutOfFuel   (* not a Python exception: a modelled loop did not end *)
  | BrokenObjectLinkError
      (parent_type : string) (parent_number : Z)
      (child_type : string) (child_number : Z).

Inductive result (A : Type) : Type :=
  | Ok (a : A)
  | Raise (e : exception).

Arguments Ok {A} a.
Arguments Raise {A} e.

Definition bind {A B} (r : result A) (k : A -> result B) : result B :=
  match r with
  | Ok a => k a
  | Raise e => Raise e
  end.

Notation "'let*' x ':=' r 'in' k" := (bind r (fun x => k))
  (at level 10, x name, r at level 100, k at level 200).

(** ** Python strings *)

Module PyStr.

(** [s.replace(a, b)] for one-character [a] and [b]. *)
Fixpoint replace (a b : ascii) (s : string) : string :=
  match s with
  | EmptyString => EmptyString
  | String c rest =>
      String (if Ascii.eqb c a then b else c) (replace a b rest)
  end.

(** [c in s] for a one-character [c]. *)
Fixpoint contains (c : ascii) (s : string) : bool :=
  match s with
  | EmptyString => false
  | String d rest => Ascii.eqb d c || contains c rest
  end.

(** The characters [str.isspace] accepts, within one byte. *)
Definition is_whitespace (c : ascii) : bool :=
  let n := nat_of_ascii c in
  ((9 <=? n) && (n <=? 13)) || ((28 <=? n) && (n <=? 32))
  || (n =? 133) || (n =? 160).

Fixpoint all_whitespace (s : string) : bool :=
  match s with
  | EmptyString => true
  | String c rest => is_whitespace c && all_whitespace rest
  end.

(** [s.isspace()]: at least one character, all of them whitespace. *)
Definition isspace (s : string) : bool :=
  match s with
  | EmptyString => false
  | _ => all_whitespace s
  end.

(** [s[:n]] for [n >= 0]. *)
Fixpoint take (n : nat) (s : string) : string :=
  match n, s with
  | S n', String c rest => String c (take n' rest)
  | _, _ => EmptyString
  end.

(** [s[n:]] for [n >= 0]. *)
Fixpoint drop (n : nat) (s : string) : string :=
  match n, s with
  | S n', String _ rest => drop n' rest
  | _, _ => s
  end.

(** [s[:-1]]. *)
Definition drop_last (s : string) : string := take (String.length s - 1) s.

(** [" " * n]. *)
Fixpoint spaces (n : nat) : string :=
  match n with
  | O => EmptyString
  | S n' => String " " (spaces n')
  end.

(** [''.join(l)]. *)
Definition join (l : list string) : string :=
  fold_right String.append EmptyString l.

(** [s.lstrip()] *)
Fixpoint lstrip (s : string) : string :=
  match s with
  | String c rest => if is_whitespace c then lstrip rest else s
  | EmptyString => EmptyString
  end.

End PyStr.

(** ** Numeric tokens *)

Module number.
Local Open Scope Z_scope.

Definition is_digit (c : ascii) : bool :=
  let n := nat_of_ascii c in ((48 <=? n) && (n <=? 57))%nat.

Definition digit_of (c : ascii) : Z := Z.of_nat (nat_of_ascii c) - 48.

Definition char_of_digit (d : Z) : ascii := ascii_of_nat (Z.to_nat (48 + d)).

(** The leading digits of a string, and what follows them. *)
Fixpoint take_digits (s : string) : list Z * string :=
  match s with
  | String c rest =>
      if is_digit c then
        let (ds, tail) := take_digits rest in (digit_of c :: ds, tail)
      else ([], s)
  | EmptyString => ([], s)
  end.

Definition digits_value (ds : list Z) : Z :=
  fold_left (fun acc d => 10 * acc + d) ds 0.

(** The shape of a numeric token: sign column, digits before and after
    the point, and the exponent with the way it is introduced, an
    explicit marker or the bare sign of [1.602-19]. *)
Record literal : Type := {
  sign : option bool;              (* [Some true] for a leading minus *)
  int_digits : list Z;
  frac_digits : option (list Z);   (* [None] without a point *)
  exp_marker : option ascii;       (* [e] or [E], if written *)
  exp_negative : bool;
  exp_digits : list Z              (* empty without an exponent *)
}.

Definition take_sign (s : string) : option bool * string :=
  match s with
  | String "-" rest => (Some true, rest)
  | String "+" rest => (Some false, rest)
  | _ => (None, s)
  end.

Definition is_e (c : ascii) : bool := Ascii.eqb c "e" || Ascii.eqb c "E".

Definition parse_exponent (s : string)
  : option (option ascii * bool * list Z) :=
  match s with
  | EmptyString => Some (None, false, [])
  | String c rest =>
      let '(marker, body) :=
        if is_e c then (Some c, rest) else (None, s) in
      let '(sg, body') := take_sign body in
      let '(ds, tail) := take_digits body' in
      match marker, sg, ds, tail with
      | _, _, [], _ => None
      | None, None, _, _ => None
      | _, _, _, EmptyString =>
          Some (marker, match sg with Some true => true | _ => false end, ds)
      | _, _, _, _ => None
      end
  end.

Definition parse_literal (s : string) : option literal :=
  let '(sg, s1) := take_sign s in
  let '(ip, s2) := take_digits s1 in
  let '(fp, s3) :=
    match s2 with
    | String "." rest => let (ds, tail) := take_digits rest in (Some ds, tail)
    | _ => (None, s2)
    end in
  match ip, fp with
  | [], None | [], Some [] => None
  | _, _ =>
      match parse_exponent s3 with
      | Some (marker, eneg, eds) =>
          Some {| sign := sg; int_digits := ip; frac_digits := fp;
                  exp_marker := marker; exp_negative := eneg;
                  exp_digits := eds |}
      | None => None
      end
  end.

Definition has_exponent (l : literal) : bool :=
  match exp_digits l with [] => false | _ => true end.

Definition precision (l : literal) : nat :=
  match frac_digits l with Some ds => length ds | None => O end.

(** [10 ^ k] as a rational, for any integer [k]. *)
Definition pow10 (k : Z) : Q :=
  if 0 <=? k then inject_Z (10 ^ k) else / inject_Z (10 ^ (- k)).

(** The number a token denotes, in lowest terms. *)
Definition literal_value (l : literal) : Q :=
  let fds := match frac_digits l with Some ds => ds | None => [] end in
  let mantissa := digits_value (int_digits l ++ fds) in
  let e := digits_value (exp_digits l) in
  let e := if exp_negative l then - e else e in
  let m := match sign l with Some true => - mantissa | _ => mantissa end in
  Qred (inject_Z m * pow10 (e - Z.of_nat (length fds))).

Definition parse_number (s : string) : option Q :=
  option_map literal_value (parse_literal s).

(** *** Printing *)

(** The decimal digits of a non-negative integer, most significant
    first; [fuel] bounds their number. *)
Fixpoint digits_of (fuel : nat) (n : Z) (acc : list Z) : list Z :=
  match fuel with
  | O => acc
  | S fuel' =>
      if n <? 10 then n :: acc
      else digits_of fuel' (n / 10) (n mod 10 :: acc)
  end.

Definition decimal_digits (n : Z) : list Z :=
  digits_of (S (Z.to_nat (Z.log2 n))) n [].

Definition string_of_digits (ds : list Z) : string :=
  fold_right (fun d s => String (char_of_digit d) s) EmptyString ds.

(** Digits padded with zeros on the left to at least [w] digits. *)
Definition zero_pad (w : nat) (ds : list Z) : list Z :=
  repeat 0 (w - length ds) ++ ds.

(** [round(n / d)] to the nearest integer, ties to even, for
    [n >= 0] and [d > 0]. *)
Definition round_half_even (n d : Z) : Z :=
  let q := n / d in
  let r := n mod d in
  if 2 * r <? d then q
  else if d <? 2 * r then q + 1
  else if Z.even q then q else q + 1.

(** The decimal exponent [e] of a positive rational [n / d]:
    [10^e <= n/d < 10^(e+1)]. *)
Definition decimal_exponent (n d : Z) : Z :=
  let a := Z.of_nat (length (decimal_digits n)) in
  let b := Z.of_nat (length (decimal_digits d)) in
  let k := a - b in
  let at_least :=
    if 0 <=? k then d * 10 ^ k <=? n else d <=? n * 10 ^ (- k) in
  if at_least then k else k - 1.

(** The significand digits (one before the point, [p] after) and the
    decimal exponent of [|v|] in scientific notation. *)
Definition scientific (v : Q) (p : nat) : list Z * Z :=
  let n := Z.abs (Qnum v) in
  let d := Zpos (Qden v) in
  if n =? 0 then (repeat 0 (S p), 0)
  else
    let e := decimal_exponent n d in
    let shift := Z.of_nat p - e in
    let m :=
      if 0 <=? shift then round_half_even (n * 10 ^ shift) d
      else round_half_even n (d * 10 ^ (- shift)) in
    if 10 ^ Z.of_nat (S p) <=? m then
      (zero_pad (S p) (decimal_digits (m / 10)), e + 1)
    else (zero_pad (S p) (decimal_digits m), e).

(** *** The vocabulary of the properties *)

(** The exponent a token writes, with its sign. *)
Definition exponent_value (l : literal) : Z :=
  let e := digits_value (exp_digits l) in
  if exp_negative l then - e else e.

(** [10 ^ e <= n / d < 10 ^ (e + 1)], with the powers on the side
    where they are whole. *)
Definition in_decade (n d e : Z) : Prop :=
  if 0 <=? e then d * 10 ^ e <= n < d * 10 ^ (e + 1)
  else d <= n * 10 ^ (- e) /\ n * 10 ^ (- e - 1) < d.

(** The text of a sign as a token has it. *)
Definition sign_text (sg : option bool) : string :=
  match sg with
  | Some true => "-"
  | Some false => "+"
  | None => EmptyString
  end.

(** The shape of a number written with one digit before the point and
    an exponent. *)
Definition rendered (point : bool) (d0 : Z) (rest : list Z)
    (marker : option ascii) (w : nat) (e : Z) : literal :=
  {| sign := None; int_digits := [d0];
     frac_digits := if point then Some rest else None;
     exp_marker := marker; exp_negative := e <? 0;
     exp_digits := zero_pad w (decimal_digits (Z.abs e)) |}.

End number.

(** ** mcnpy/input_parser/syntax_node.py

    Padding, scalar values and structural nodes, modelled from the
    specification (sections 3, 4.1, 4.2 and 4.3) and in agreement with
    [tests/test_syntax_parsing.py]. *)

Module syntax_node.

(** *** Padding *)

(** One unit of inter-token material: its raw text and whether it is a
    comment. *)
Record fragment : Type := Fragment {
  text : string;
  is_comment : bool
}.

(** Modelled from the spec: [PaddingNode] of [syntax_node.py], an
    ordered run of fragments (section 4.2). *)
Record PaddingNode : Type := Padding {
  nodes : list fragment
}.

Definition newline : ascii := ascii_of_nat 10.

(** [s.split(newline)], [cur] being the part under way. *)
Fixpoint split_lines (s : string) (cur : string) : list string :=
  match s with
  | EmptyString => [cur]
  | String c rest =>
      if Ascii.eqb c newline then cur :: split_lines rest EmptyString
      else split_lines rest (String.append cur (String c EmptyString))
  end.

Definition part_fragment (part : string) : list fragment :=
  match part with
  | EmptyString => []
  | _ => [Fragment part false]
  end.

(** The fragments of a text cut at its newlines: every newline is a
    fragment of its own, and an empty part gives none. *)
Fixpoint line_fragments (parts : list string) : list fragment :=
  match parts with
  | [] => []
  | part :: rest =>
      match rest with
      | [] => part_fragment part
      | _ =>
          part_fragment part
          ++ Fragment (String newline EmptyString) false
             :: line_fragments rest
      end
  end.

(** Modelled from the spec: [PaddingNode.append(val, is_comment)]
    (section 4.2).  A comment is one fragment; a text is one fragment
    unless it holds newlines, which [test_padding_append] counts as
    fragments of their own. *)
Definition append (self : PaddingNode) (val : string) (comment : bool)
  : PaddingNode :=
  if comment then Padding (nodes self ++ [Fragment val true])
  else if PyStr.contains newline val then
    Padding (nodes self ++ line_fragments (split_lines val EmptyString))
  else Padding (nodes self ++ [Fragment val false]).

(** [PaddingNode(token)] *)
Definition PaddingNode_init (token : string) : PaddingNode :=
  append (Padding []) token false.

(** [PaddingNode(token, True)] *)
Definition PaddingNode_comment (token : string) : PaddingNode :=
  append (Padding []) token true.

(** Modelled from the spec: [PaddingNode.format], the fragments'
    texts in order. *)
Definition format (p : PaddingNode) : string :=
  PyStr.join (map text (nodes p)).

(** A fragment of blanks: no comment and no newline. *)
Definition is_blank (f : fragment) : bool :=
  negb (is_comment f)
  && PyStr.all_whitespace (text f)
  && negb (String.eqb (text f) (String newline EmptyString)).

(** Modelled from the spec: [PaddingNode.is_space(i)], whether fragment
    [i] is pure whitespace; out of range it fails with an index
    error. *)
Definition is_space (self : PaddingNode) (i : nat) : result bool :=
  match nodes self !! i with
  | Some f => Ok (is_blank f)
  | None => Raise IndexError
  end.

(** *** Scalar values *)

Inductive pytype : Type := TInt | TFloat | TStr.

Inductive scalar : Type :=
  | SInt (n : Z)
  | SFloat (q : Q)
  | SStr (s : string).

(** What a node is built from: text, the placeholder [Jump()], or
    [None]. *)
Inductive raw : Type :=
  | RawText (s : string)
  | RawJump
  | RawNone.

(** Modelled from the spec: [ValueNode] of [syntax_node.py] (sections
    3 and 4.1): the raw token, the declared type, the parsed value,
    the trailing padding and the mutation flag. *)
Record ValueNode : Type := {
  _token : raw;
  _type : pytype;
  _value : option scalar;
  _padding : option PaddingNode;
  _mutated : bool
}.

Definition parse_int (s : string) : option Z :=
  match number.parse_literal s with
  | Some l =>
      match number.frac_digits l, number.exp_digits l with
      | None, [] =>
          let n := number.digits_value (number.int_digits l) in
          Some (match number.sign l with Some true => (- n)%Z | _ => n end)
      | _, _ => None
      end
  | None => None
  end.

(** Modelled from the spec: the constructor of [ValueNode]; a
    placeholder input yields an absent value with the declared type
    retained. *)
Definition ValueNode_init (token : raw) (type : pytype)
    (padding : option PaddingNode) : result ValueNode :=
  let make v :=
    Ok {| _token := token; _type := type; _value := v;
          _padding := padding; _mutated := false |} in
  match token with
  | RawText s =>
      match type with
      | TStr => make (Some (SStr s))
      | TInt =>
          match parse_int s with
          | Some n => make (Some (SInt n))
          | None => Raise ValueError
          end
      | TFloat =>
          match number.parse_number s with
          | Some q => make (Some (SFloat q))
          | None => Raise ValueError
          end
      end
  | _ => make None
  end.

(** Modelled from the spec: the [value] setter, which accepts a value
    compatible with the declared type and flips the mutation flag; an
    integer is accepted where a real is declared. *)
Definition set_value (self : ValueNode) (v : option scalar)
  : result ValueNode :=
  let store v :=
    Ok {| _token := _token self; _type := _type self; _value := v;
          _padding := _padding self; _mutated := true |} in
  match v, _type self with
  | None, _ => store None
  | Some (SInt n), TInt => store v
  | Some (SInt n), TFloat => store (Some (SFloat (inject_Z n)))
  | Some (SFloat q), TFloat => store v
  | Some (SStr s), TStr => store v
  | _, _ => Raise TypeError
  end.

Definition token_text (token : raw) : string :=
  match token with
  | RawText s => s
  | RawJump => "J"
  | RawNone => EmptyString
  end.

(** The sign column of a re-rendered number: a minus for a negative
    value; otherwise the original's explicit plus, or a space where
    the original had its minus. *)
Definition sign_column (original : option bool) (negative : bool) : string :=
  if negative then "-"
  else match original with
       | Some false => "+"
       | Some true => " "
       | None => EmptyString
       end.

(** The sign a re-rendered number is read with. *)
Definition sign_written (original : option bool) (negative : bool)
  : option bool :=
  if negative then Some true
  else match original with
       | Some false => Some false
       | _ => None
       end.

(** [s.rjust(w)] *)
Definition rjust (w : nat) (s : string) : string :=
  String.append (PyStr.spaces (w - String.length s)) s.

Definition leading_zero (ds : list Z) : bool :=
  match ds with
  | d :: _ :: _ => (d =? 0)%Z
  | _ => false
  end.

(** The text of an integer after a token of the shape [l] and the
    printed width [width]. *)
Definition int_text (l : number.literal) (width : nat) (v : Z) : string :=
  let digits := number.decimal_digits (Z.abs v) in
  let sg := sign_column (number.sign l) (v <? 0)%Z in
  let body :=
    if leading_zero (number.int_digits l) then
      number.zero_pad (width - String.length sg) digits
    else digits in
  rjust width (String.append sg (number.string_of_digits body)).

(** Modelled from the spec: a mutated integer is right-justified and
    sign-padded to at least the original token's printed width, an
    explicit leading plus preserved; leading zeros fill the width
    where the original had them. *)
Definition format_int (token : raw) (v : Z) : string :=
  let plain :=
    String.append (sign_column None (v <? 0)%Z)
      (number.string_of_digits (number.decimal_digits (Z.abs v))) in
  match token with
  | RawText s =>
      match number.parse_literal s with
      | Some l => int_text l (String.length s) v
      | None => plain
      end
  | _ => plain
  end.

(** The exponent field: its sign, always written, and the digits of
    the exponent, as many as the original had or more if needed. *)
Definition exponent_text (width : nat) (e : Z) : string :=
  String.append
    (if (e <? 0)%Z then "-" else "+")
    (number.string_of_digits
       (number.zero_pad width (number.decimal_digits (Z.abs e)))).

(** One digit, and the others after the point where the original had
    one. *)
Definition significand_text (point : bool) (ds : list Z) : string :=
  match ds with
  | d :: rest =>
      String.append (number.string_of_digits [d])
        (if point then String "." (number.string_of_digits rest)
         else EmptyString)
  | [] => EmptyString
  end.

Definition marker_text (marker : option ascii) : string :=
  match marker with
  | Some c => String c EmptyString
  | None => EmptyString
  end.

(** The text of a real after a token [l] that has an exponent. *)
Definition exponent_form (l : number.literal) (v : Q) : string :=
  let ds := fst (number.scientific v (number.precision l)) in
  let e := snd (number.scientific v (number.precision l)) in
  String.append
    (sign_column (number.sign l) (Qnum v <? 0)%Z)
    (String.append
       (significand_text
          (match number.frac_digits l with Some _ => true | None => false end)
          ds)
       (String.append (marker_text (number.exp_marker l))
          (exponent_text (length (number.exp_digits l)) e))).

(** The text of a real after a token [l] with a point and no exponent:
    as many digits after the point as the original, [p] of them. *)
Definition fixed_form (l : number.literal) (p : nat) (v : Q) : string :=
  let m :=
    number.round_half_even (Z.abs (Qnum v) * 10 ^ Z.of_nat p)
      (Zpos (Qden v)) in
  let ds := number.zero_pad (S p) (number.decimal_digits m) in
  let k := (length ds - p)%nat in
  String.append
    (sign_column (number.sign l) (Qnum v <? 0)%Z)
    (String.append (number.string_of_digits (take k ds))
       (String "." (number.string_of_digits (drop k ds)))).

Section Format.

(** The rendering of a real when the original gives no convention to
    imitate; the specification leaves it a default. *)
Variable default_float_format : raw -> Q -> string.

(** Modelled from the spec: a mutated real reproduces the original's
    exponent convention, an explicit marker or the bare sign, with the
    digits after the point and the exponent field as wide as the
    original's.  A token with a point and no exponent gives a number
    with as many digits after the point, and a token that is written
    as an integer takes a whole value as an integer, as the rows of
    [test_value_float_format] have it. *)
Definition format_float (token : raw) (v : Q) : string :=
  match token with
  | RawText s =>
      match number.parse_literal s with
      | Some l =>
          if number.has_exponent l then exponent_form l v
          else
            match number.frac_digits l with
            | Some fds => fixed_form l (length fds) v
            | None =>
                if (Qden (Qred v) =? 1)%positive
                then int_text l (String.length s) (Qnum (Qred v))
                else default_float_format token v
            end
      | None => default_float_format token v
      end
  | _ => default_float_format token v
  end.

(** Modelled from the spec: the text of the value alone in
    [ValueNode.format]; an unmutated node gives its raw token, an
    absent value nothing, a text its new content. *)
Definition format_value (self : ValueNode) : string :=
  if negb (_mutated self) then token_text (_token self)
  else
    match _value self with
    | None => EmptyString
    | Some (SInt n) => format_int (_token self) n
    | Some (SFloat q) => format_float (_token self) q
    | Some (SStr s) => s
    end.

(** The padding left after a value that grew by [n] characters: the
    blanks that follow it give way one by one, up to a fragment that
    is no blank (a newline, a comment). *)
Fixpoint take_room (n : nat) (fs : list fragment) : list fragment :=
  match fs with
  | [] => []
  | f :: rest =>
      match n with
      | O => fs
      | _ =>
          if is_blank f then
            let k := String.length (text f) in
            if (n <? k)%nat
            then Fragment (PyStr.drop n (text f)) false :: rest
            else take_room (n - k) rest
          else fs
      end
  end.

(** Modelled from the spec: [ValueNode.format], the value text
    followed by the rendered padding.  An unmutated node gives token
    and padding verbatim.  After a new value the padding makes room
    for the characters the text grew by, and one space stands where no
    padding is left; a node that never had padding renders as the
    value text alone.  The padded rows of [test_valuenode_int_format],
    [test_value_float_format] and [test_value_str_format] fix these
    cases. *)
Definition ValueNode_format (self : ValueNode) : string :=
  let value := format_value self in
  match _padding self with
  | None => value
  | Some p =>
      if negb (_mutated self) then String.append value (format p)
      else
        let grown :=
          (String.length value
           - String.length (token_text (_token self)))%nat in
        match take_room grown (nodes p) with
        | [] => String.append value " "
        | kept => String.append value (PyStr.join (map text kept))
        end
  end.

(** *** Structural nodes *)

#[local] Set Warnings "-register-all".

(** Modelled from the spec: the nodes of a tree (sections 3 and 4.3):
    a scalar leaf, a run of padding, a [SyntaxNode] with its named
    children in insertion order, and a [ListNode] with its sequence of
    children. *)
Inductive node : Type :=
  | Scalar (v : ValueNode)
  | Pad (p : PaddingNode)
  | Syntax (name : string) (children : list (string * node))
  | List_ (name : string) (children : list node).
#[local] Set Warnings "register-all".

(** Whether a [ListNode] gives the child [c] a space of its own: a
    value without padding, followed by a child that is no padding. *)
Definition lacks_padding (c : node) (rest : list node) : bool :=
  match c, rest with
  | Scalar v, next :: _ =>
      match _padding v, next with
      | None, Pad _ => false
      | None, _ => true
      | Some _, _ => false
      end
  | _, _ => false
  end.

(** The separators a [ListNode] writes after each of its children. *)
Fixpoint separators (cs : list node) : list string :=
  match cs with
  | [] => []
  | c :: rest =>
      (if lacks_padding c rest then " " else EmptyString) :: separators rest
  end.

(** Modelled from the spec: [format] of a tree (section 4.3): a
    [SyntaxNode] concatenates its children's texts in insertion order;
    a [ListNode] does the same and separates by one space a value
    without padding from the next, as [test_list_format] has it. *)
Fixpoint node_format (n : node) : string :=
  match n with
  | Scalar v => ValueNode_format v
  | Pad p => format p
  | Syntax _ children =>
      PyStr.join (map (fun c => node_format (snd c)) children)
  | List_ _ children =>
      PyStr.join
        (zip_with String.append (map node_format children)
           (separators children))
  end.

End Format.

(** The text a tree was built from: the raw tokens of its leaves, each
    followed by its padding, in order. *)
Fixpoint raw_text (n : node) : string :=
  match n with
  | Scalar v =>
      String.append (token_text (_token v))
        (match _padding v with
         | Some p => format p
         | None => EmptyString
         end)
  | Pad p => format p
  | Syntax _ children => PyStr.join (map (fun c => raw_text (snd c)) children)
  | List_ _ children => PyStr.join (map raw_text children)
  end.

(** No value of the tree was given a new value. *)
Fixpoint unmutated (n : node) : bool :=
  match n with
  | Scalar v => negb (_mutated v)
  | Pad _ => true
  | Syntax _ children => forallb (fun c => unmutated (snd c)) children
  | List_ _ children => forallb unmutated children
  end.

(** Within every list of the tree, a value followed by another child
    carries the padding that separated them in the text. *)
Fixpoint separated (n : node) : bool :=
  match n with
  | Scalar _ | Pad _ => true
  | Syntax _ children => forallb (fun c => separated (snd c)) children
  | List_ _ children =>
      forallb separated children
      && forallb (fun s => String.eqb s EmptyString) (separators children)
  end.

(** *** Building a node from a token and giving it a new value *)

(** [node = ValueNode(token, type, padding); node.value = v;
    node.format()] *)
Definition reassigned_with (default_float_format : raw -> Q -> string)
    (token : raw) (type : pytype) (padding : option PaddingNode)
    (v : scalar) : result string :=
  let* node := ValueNode_init token type padding in
  let* node := set_value node (Some v) in
  Ok (ValueNode_format default_float_format node).

(** [node = ValueNode(token, type); node.value = v; node.format()] *)
Definition reassigned (default_float_format : raw -> Q -> string)
    (token : string) (type : pytype) (v : scalar) : result string :=
  reassigned_with default_float_format (RawText token) type None v.

(** [pad = PaddingNode(first); for p in others: pad.append(p)] *)
Definition padding_of (first : string) (others : list string) : PaddingNode :=
  fold_left (fun pad p => append pad p false) others (PaddingNode_init first).

(** [6.02e23] *)
Definition avogadro : Q := inject_Z (602 * 10 ^ 21).

(** The trees of [TestSyntaxNode], [TestGeometryTree] and
    [test_list_format]. *)
Definition plain_value (token : string) (type : pytype) (v : scalar)
  : ValueNode :=
  {| _token := RawText token; _type := type; _value := Some v;
     _padding := None; _mutated := false |}.

Definition test_node : node :=
  Syntax "test"
    [("foo", Scalar (plain_value "1.5" TFloat (SFloat (3 # 2))));
     ("bar", Scalar (plain_value "1" TInt (SInt 1)));
     ("bar2", Syntax "test2" [])]%string.

Definition test_tree : node :=
  Syntax "test"
    [("left", Scalar (plain_value "1" TInt (SInt 1)));
     ("operator", Pad (PaddingNode_init " "));
     ("right", Scalar (plain_value "2" TInt (SInt 2)))]%string.

Definition list_node : node :=
  List_ "list" (repeat (Scalar (plain_value "1.0" TFloat (SFloat 1))) 20).

(** The pair of [test_isotopes_format], both values followed by a
    space. *)
Definition isotopes_node : node :=
  List_ "test"
    [Scalar {| _token := RawText "1001.80c"; _type := TStr;
               _value := Some (SStr "1001.80c");
               _padding := Some (PaddingNode_init " ");
               _mutated := false |};
     Scalar {| _token := RawText "1.5"; _type := TFloat;
               _value := Some (SFloat (3 # 2));
               _padding := Some (PaddingNode_init " ");
               _mutated := false |}].

End syntax_node.

(** ** mcnpy/input_parser/syntax_node.py: shortcuts

    The shortcut expander, modelled from the specification (section
    4.4) and in agreement with [test_shortcut_expansion].  The words
    of a list are read as exact rationals; the values of the expanded
    list are real numbers, so that a logarithmic interpolation has its
    points for any two positive end points. *)

Module shortcuts.
Import Reals.

Inductive Shortcuts : Type :=
  | REPEAT | MULTIPLY | INTERPOLATE | LOG_INTERPOLATE | JUMP.

(** A word of a numeric list: a number, or a shortcut with the number
    written before its letters, if any. *)
Inductive word : Type :=
  | NUMBER (q : Q)
  | SHORTCUT (kind : Shortcuts) (prefix : option Q).

Definition upper_char (c : ascii) : ascii :=
  let n := nat_of_ascii c in
  if ((97 <=? n) && (n <=? 122))%nat then ascii_of_nat (n - 32) else c.

Fixpoint upper (s : string) : string :=
  match s with
  | EmptyString => EmptyString
  | String c rest => String (upper_char c) (upper rest)
  end.

(** The blank-separated words of a line. *)
Fixpoint split_words (s : string) (cur : string) : list string :=
  let flush rest := match cur with EmptyString => rest | _ => cur :: rest end in
  match s with
  | EmptyString => flush []
  | String c rest =>
      if PyStr.is_whitespace c then flush (split_words rest EmptyString)
      else split_words rest (String.append cur (String c EmptyString))
  end.

(** [Some p] when [s] is [p] followed by [suffix]. *)
Definition strip_suffix (suffix s : string) : option string :=
  let n := String.length s in
  let k := String.length suffix in
  if (k <=? n)%nat && String.eqb (PyStr.drop (n - k) s) suffix
  then Some (PyStr.take (n - k) s) else None.

(** The number before a shortcut's letters: absent, or a numeric
    token. *)
Definition parse_prefix (p : string) : option (option Q) :=
  match p with
  | EmptyString => Some None
  | _ => option_map Some (number.parse_number p)
  end.

Definition shortcut_letters : list (string * Shortcuts) :=
  [("ILOG", LOG_INTERPOLATE); ("I", INTERPOLATE); ("R", REPEAT);
   ("M", MULTIPLY); ("J", JUMP)]%string.

Fixpoint classify_shortcut (letters : list (string * Shortcuts))
    (w : string) : option word :=
  match letters with
  | [] => None
  | (suffix, kind) :: rest =>
      match strip_suffix suffix w with
      | Some p => option_map (SHORTCUT kind) (parse_prefix p)
      | None => classify_shortcut rest w
      end
  end.

(** Modelled from the spec: the token shapes of section 4.4, letters
    in either case. *)
Definition classify (w : string) : result word :=
  match number.parse_number w with
  | Some q => Ok (NUMBER q)
  | None =>
      match classify_shortcut shortcut_letters (upper w) with
      | Some t => Ok t
      | None => Raise MalformedInputError
      end
  end.

Fixpoint classify_all (ws : list string) : result (list word) :=
  match ws with
  | [] => Ok []
  | w :: rest =>
      let* t := classify w in
      let* ts := classify_all rest in
      Ok (t :: ts)
  end.

(** The count written before [R], [I], [ILOG] or [J]: a non-negative
    integer, one when absent. *)
Definition count_of (prefix : option Q) : result nat :=
  match prefix with
  | None => Ok 1%nat
  | Some q =>
      if ((Qden q =? 1)%positive && (0 <=? Qnum q)%Z)
      then Ok (Z.to_nat (Qnum q)) else Raise MalformedInputError
  end.

(** The value a shortcut builds on: the last expanded value, which
    must exist and must not be a placeholder. *)
Definition previous (expanded : list (option R)) : result R :=
  match List.last expanded None with
  | Some x => Ok x
  | None => Raise MalformedInputError
  end.

(** Modelled from the spec: [n] evenly spaced values strictly between
    [a] and [b]. *)
Definition linear_point (a b : R) (n i : nat) : R :=
  (a + (b - a) * INR i / INR (S n))%R.

Definition linear_points (a b : R) (n : nat) : list (option R) :=
  map (fun i : nat => Some (linear_point a b n i)) (seq 1 n).

(** Modelled from the spec: [n] geometrically spaced values strictly
    between [a] and [b], both positive. *)
Definition log_point (a b : R) (n i : nat) : R :=
  (a * Rpower (b / a) (INR i / INR (S n)))%R.

Definition log_points (a b : R) (n : nat) : result (list (option R)) :=
  if Rlt_dec 0 a then
    if Rlt_dec 0 b then
      Ok (map (fun i : nat => Some (log_point a b n i)) (seq 1 n))
    else Raise MalformedInputError
  else Raise MalformedInputError.

(** Modelled from the spec: the expansion of section 4.4, word by
    word, [expanded] being the values produced so far. *)
Fixpoint expand (ws : list word) (expanded : list (option R))
  : result (list (option R)) :=
  match ws with
  | [] => Ok expanded
  | w :: rest =>
      match w with
      | NUMBER q => expand rest (expanded ++ [Some (Q2R q)])
      | SHORTCUT JUMP prefix =>
          let* n := count_of prefix in
          expand rest (expanded ++ repeat None n)
      | SHORTCUT REPEAT prefix =>
          let* n := count_of prefix in
          let* prev := previous expanded in
          expand rest (expanded ++ repeat (Some prev) n)
      | SHORTCUT MULTIPLY prefix =>
          match prefix with
          | None => Raise MalformedInputError
          | Some factor =>
              let* prev := previous expanded in
              expand rest (expanded ++ [Some (prev * Q2R factor)%R])
          end
      | SHORTCUT INTERPOLATE prefix =>
          let* n := count_of prefix in
          let* prev := previous expanded in
          match rest with
          | NUMBER b :: rest' =>
              expand rest'
                (expanded ++ linear_points prev (Q2R b) n ++ [Some (Q2R b)])
          | _ => Raise MalformedInputError
          end
      | SHORTCUT LOG_INTERPOLATE prefix =>
          let* n := count_of prefix in
          let* prev := previous expanded in
          match rest with
          | NUMBER b :: rest' =>
              let* points := log_points prev (Q2R b) n in
              expand rest' (expanded ++ points ++ [Some (Q2R b)])
          | _ => Raise MalformedInputError
          end
      end
  end.

(** Modelled from the spec: a numeric list, from its text to its
    values; [None] is the placeholder. *)
Definition parse_number_sequence (line : string)
  : result (list (option R)) :=
  let* ws := classify_all (split_words line EmptyString) in
  expand ws [].

(** The count [n] before a shortcut, as a number and as text. *)
Definition count (n : nat) : option Q := Some (inject_Z (Z.of_nat n)).

Definition count_text (n : nat) : string :=
  number.string_of_digits (number.decimal_digits (Z.of_nat n)).

(** The values of a list without placeholders. *)
Definition values (xs : list R) : list (option R) := map Some xs.

End shortcuts.

(** ** mcnpy/surfaces/half_space.py *)

Module half_space.
Import syntax_node.

(** [mcnpy.geometry_operators.Operator] *)
Inductive Operator : Type := INTERSECTION | UNION | COMPLEMENT | SHIFT.

(** The domain objects a divider resolves to; this module reads their
    [number] only. *)
Record Cell : Type := { cell_number : Z }.
Record Surface : Type := { surface_number : Z }.

(** Values that are neither half-spaces nor classes. *)
Inductive obj : Type :=
  | ONone
  | OInt (n : Z)
  | OStr (s : string)
  | OCell (c : Cell)
  | OSurface (s : Surface).

(** The scalar node behind a leaf, as far as this module uses it: the
    value and the sign flag its setters write. *)
Record ValueNode : Type := {
  value : option Z;
  is_negative : option bool
}.

(** The [GeometryTree] behind a [HalfSpace].  Of its [nodes] mapping
    this module reads and writes the ["operator"] entry, a padding
    node; the operand entries are the nodes of the operands. *)
Record GeometryTree : Type := {
  operator_node : PaddingNode
}.

Record UnitHalfSpace : Type := {
  _divider : obj;
  _side : bool;
  _is_cell : bool;
  _node : option ValueNode;
  _cell : option Cell
}.

#[local] Set Warnings "-register-all".

(** An instance of [UnitHalfSpace] or of [HalfSpace]; the arguments of
    [Half] are [_left], [_operator], [_right], [_node] and [_cell]. *)
Inductive geometry : Type :=
  | Unit (u : UnitHalfSpace)
  | Half (left_ : geometry) (operator : Operator) (right_ : option geometry)
         (node : option GeometryTree) (cell : option Cell).
#[local] Set Warnings "register-all".

Inductive pyclass : Type :=
  | ClsNoneType | ClsInt | ClsStr | ClsCell | ClsSurface
  | ClsHalfSpace | ClsUnitHalfSpace | ClsType.

Inductive pyval : Type :=
  | PObj (o : obj)
  | PGeom (g : geometry)
  | PClass (c : pyclass).

Definition pyclass_eqb (a b : pyclass) : bool :=
  match a, b with
  | ClsNoneType, ClsNoneType | ClsInt, ClsInt | ClsStr, ClsStr
  | ClsCell, ClsCell | ClsSurface, ClsSurface
  | ClsHalfSpace, ClsHalfSpace | ClsUnitHalfSpace, ClsUnitHalfSpace
  | ClsType, ClsType => true
  | _, _ => false
  end.

Definition class_of (v : pyval) : pyclass :=
  match v with
  | PObj ONone => ClsNoneType
  | PObj (OInt _) => ClsInt
  | PObj (OStr _) => ClsStr
  | PObj (OCell _) => ClsCell
  | PObj (OSurface _) => ClsSurface
  | PGeom (Unit _) => ClsUnitHalfSpace
  | PGeom (Half _ _ _ _ _) => ClsHalfSpace
  | PClass _ => ClsType
  end.

(** [isinstance(v, cls)] *)
Definition isinstance (v : pyval) (cls : pyclass) : bool :=
  pyclass_eqb (class_of v) cls.

(** [isinstance(v, (c1, c2))]: the members of the tuple are evaluated
    first and must be classes. *)
Definition isinstance_tuple (v : pyval) (classes : list pyval) : result bool :=
  fold_right
    (fun c acc =>
       let* rest := acc in
       match c with
       | PClass cls => Ok (isinstance v cls || rest)
       | _ => Raise TypeError
       end)
    (Ok false) classes.

(** The result of running a method on a receiver: the receiver after
    the call, and what the call returned or raised. *)
Definition outcome (S A : Type) : Type := (S * result A)%type.

Section Globals.

(** The names visible at module level in [half_space.py], by name. *)
Variable globals : string -> option pyval.

Definition lookup_global (name : string) : result pyval :=
  match globals name with
  | Some v => Ok v
  | None => Raise (NameError name)
  end.

(** *** [HalfSpace]: composition *)

Definition __and__ (self : geometry) (other : pyval) : result geometry :=
  match other with
  | PGeom (Half l o r n c) =>
      Ok (Half self INTERSECTION (Some (Half l o r n c)) None None)
  | _ => Raise TypeError
  end.

Definition __or__ (self : geometry) (other : pyval) : result geometry :=
  match other with
  | PGeom (Half l o r n c) =>
      Ok (Half self UNION (Some (Half l o r n c)) None None)
  | _ => Raise TypeError
  end.

(** The guard of [__invert__] reads the name [other], which is not a
    parameter of the method. *)
Definition __invert__ (self : geometry) : result geometry :=
  let* other := lookup_global "other" in
  if negb (isinstance other ClsHalfSpace) then Raise TypeError
  else Ok (Half self COMPLEMENT None None None).

(** [a & b], [a | b] and [~a]: [HalfSpace] defines [__and__], [__or__]
    and [__invert__]; [UnitHalfSpace] defines none of them and no class
    here defines a reflected operator. *)
Definition and_ (a : geometry) (b : pyval) : result geometry :=
  match a with
  | Half _ _ _ _ _ => __and__ a b
  | Unit _ => Raise TypeError
  end.

Definition or_ (a : geometry) (b : pyval) : result geometry :=
  match a with
  | Half _ _ _ _ _ => __or__ a b
  | Unit _ => Raise TypeError
  end.

Definition invert (a : geometry) : result geometry :=
  match a with
  | Half _ _ _ _ _ => __invert__ a
  | Unit _ => Raise TypeError
  end.

Definition is_unit (g : geometry) : bool :=
  match g with Unit _ => true | Half _ _ _ _ _ => false end.

(** [self &= other].  On a [HalfSpace] this is [__iand__]; the result
    is the value the statement binds, the first component the receiver
    as the call leaves it.  Attribute stores go through the properties
    of [make_prop_pointer], taken here as plain stores. *)
Fixpoint iand (self : geometry) (other : pyval) {struct self}
  : outcome geometry geometry :=
  match self with
  | Unit _ => (self, Raise TypeError)
  | Half left_ op right_ node cell =>
      if negb (isinstance other ClsHalfSpace) then (self, Raise TypeError)
      else
        let left_leaf := is_unit left_ in
        let right_leaf :=
          match right_ with Some r => is_unit r | None => true end in
        if left_leaf && right_leaf then
          match right_ with
          | Some r =>
              match and_ r other with
              | Ok v =>
                  let self' := Half left_ op (Some v) node cell in
                  (self', Ok self')
              | Raise e => (self, Raise e)
              end
          | None => (self, let* nl := invert left_ in and_ nl other)
          end
        else
          match right_ with
          | None => (self, Raise TypeError)
          | Some r =>
              let (r', res) := iand r other in
              match res with
              | Raise e => (Half left_ op (Some r') node cell, Raise e)
              | Ok v =>
                  (Half left_ op (Some v) node cell,
                   Raise (AttributeError "_add_new_children_to_parent"))
              end
          end
  end.

(** [self |= other]; past the missing method its last statement would
    read the name [sel]. *)
Fixpoint ior (self : geometry) (other : pyval) {struct self}
  : outcome geometry geometry :=
  match self with
  | Unit _ => (self, Raise TypeError)
  | Half left_ op right_ node cell =>
      if negb (isinstance other ClsHalfSpace) then (self, Raise TypeError)
      else
        let left_leaf := is_unit left_ in
        let right_leaf :=
          match right_ with Some r => is_unit r | None => true end in
        if left_leaf && right_leaf then
          match right_ with
          | Some r =>
              match or_ r other with
              | Ok v =>
                  let self' := Half left_ op (Some v) node cell in
                  (self', Ok self')
              | Raise e => (self, Raise e)
              end
          | None => (self, let* nl := invert left_ in or_ nl other)
          end
        else
          match right_ with
          | None => (self, Raise TypeError)
          | Some r =>
              let (r', res) := ior r other in
              match res with
              | Raise e => (Half left_ op (Some r') node cell, Raise e)
              | Ok v =>
                  (Half left_ op (Some v) node cell,
                   Raise (AttributeError "_add_new_children_to_parent"))
              end
          end
  end.

Definition __iand__ := iand.
Definition __ior__ := ior.

(** *** [UnitHalfSpace]: the divider property *)

Definition divider (self : UnitHalfSpace) : obj := _divider self.

(** [mcnpy.Cell] is an attribute of the package, bound in
    [mcnpy/__init__.py]; [Surface] is read as a bare name. *)
Definition divider_setter (self : UnitHalfSpace) (div : obj)
  : outcome UnitHalfSpace unit :=
  match lookup_global "Surface" with
  | Raise e => (self, Raise e)
  | Ok surface_cls =>
      match isinstance_tuple (PObj div) [PClass ClsCell; surface_cls] with
      | Raise e => (self, Raise e)
      | Ok false => (self, Raise TypeError)
      | Ok true =>
          ({| _divider := div; _side := _side self;
              _is_cell := _is_cell self; _node := _node self;
              _cell := _cell self |}, Ok tt)
      end
  end.

End Globals.

(** The module-level bindings of [half_space.py]: its two classes and
    the explicit imports.  The star imports of [mcnpy.errors] and
    [mcnpy.utilities] add exception classes and helper functions. *)
Definition half_space_globals (name : string) : option pyval :=
  if String.eqb name "HalfSpace" then Some (PClass ClsHalfSpace)
  else if String.eqb name "UnitHalfSpace" then Some (PClass ClsUnitHalfSpace)
  else if String.eqb name "Operator" then Some (PClass ClsType)
  else if String.eqb name "GeometryTree" then Some (PClass ClsType)
  else if String.eqb name "ValueNode" then Some (PClass ClsType)
  else if String.eqb name "BrokenObjectLinkError" then Some (PClass ClsType)
  else if String.eqb name "make_prop_pointer" then Some (PObj ONone)
  else None.

(** *** Parsing a leaf *)

(** [not node.is_negative]: an absent flag is falsy. *)
Definition not_negative (node : ValueNode) : bool :=
  match is_negative node with
  | Some true => false
  | _ => true
  end.

(** [UnitHalfSpace.parse_input_node], on a node already switched to a
    negatable identifier. *)
Definition unit_parse_input_node (node : ValueNode) (is_cell : bool)
  : UnitHalfSpace :=
  let side := if is_cell then true else not_negative node in
  {| _divider := match value node with Some n => OInt n | None => ONone end;
     _side := side; _is_cell := is_cell; _node := Some node;
     _cell := None |}.

(** *** Pointer resolution *)

Definition set_cell (self : UnitHalfSpace) (cell : Cell) : UnitHalfSpace :=
  {| _divider := _divider self; _side := _side self;
     _is_cell := _is_cell self; _node := _node self; _cell := Some cell |}.

Definition set_divider (self : UnitHalfSpace) (div : obj) : UnitHalfSpace :=
  {| _divider := div; _side := _side self;
     _is_cell := _is_cell self; _node := _node self; _cell := _cell self |}.

(** [container[self._divider]]: the numbered collections are keyed by
    integers; a missing key is the [KeyError] the method catches. *)
Definition getitem (is_cell : bool) (cells : gmap Z Cell)
    (surfaces : gmap Z Surface) (n : Z) : option obj :=
  if is_cell then OCell <$> cells !! n else OSurface <$> surfaces !! n.

(** [UnitHalfSpace.update_pointers] *)
Definition unit_update_pointers (self : UnitHalfSpace)
    (cells : gmap Z Cell) (surfaces : gmap Z Surface) (cell : Cell)
  : outcome UnitHalfSpace unit :=
  let self := set_cell self cell in
  match _divider self with
  | OInt n =>
      match getitem (_is_cell self) cells surfaces n with
      | Some found => (set_divider self found, Ok tt)
      | None =>
          if _is_cell self then
            (self, Raise (BrokenObjectLinkError
                            "Cell" (cell_number cell) "Complement" n))
          else
            (self, Raise (BrokenObjectLinkError
                            "Cell" (cell_number cell) "Surface" n))
      end
  | _ => (self, Raise TypeError)
  end.

(** [HalfSpace.update_pointers], and the dispatch on the operand's
    class. *)
Fixpoint update_pointers (self : geometry) (cells : gmap Z Cell)
    (surfaces : gmap Z Surface) (cell : Cell) : outcome geometry unit :=
  match self with
  | Unit u =>
      let (u', r) := unit_update_pointers u cells surfaces cell in
      (Unit u', r)
  | Half left_ op right_ node _ =>
      let (left', r) := update_pointers left_ cells surfaces cell in
      match r with
      | Raise e => (Half left' op right_ node (Some cell), Raise e)
      | Ok _ =>
          match right_ with
          | None => (Half left' op None node (Some cell), Ok tt)
          | Some rg =>
              let (right', r') := update_pointers rg cells surfaces cell in
              (Half left' op (Some right') node (Some cell), r')
          end
      end
  end.

(** *** Writing the semantic state back into the tree *)

(** The two [replace] calls of [__switch_operator] on one fragment; a
    comment fragment is a [CommentNode], which has no [replace]. *)
Definition replace_symbols (n : fragment) : result fragment :=
  if is_comment n then Raise (AttributeError "replace")
  else Ok (Fragment
             (PyStr.replace ":" " " (PyStr.replace "#" " " (text n))) false).

Fixpoint replace_all (ns : list fragment) : result (list fragment) :=
  match ns with
  | [] => Ok []
  | n :: rest =>
      let* n' := replace_symbols n in
      let* rest' := replace_all rest in
      Ok (n' :: rest')
  end.

(** [for i, node in enumerate(nodes)] with its [break]: the values of
    [i] and [node] when the loop is left (none if it never ran), and
    [total_len]. *)
Fixpoint scan (ns : list fragment) (i total_len midpoint : nat)
    (last : option (nat * fragment)) : option (nat * fragment) * nat :=
  match ns with
  | [] => (last, total_len)
  | node :: rest =>
      if midpoint <=? total_len + String.length (text node) then
        (Some (i, node), total_len)
      else
        scan rest (S i) (total_len + String.length (text node)) midpoint
             (Some (i, node))
  end.

(** [HalfSpace.__switch_operator], on the operator's padding node.
    The local [midpoint] is bound in the [":"] branch only; [None]
    stands for the unbound local. *)
Definition __switch_operator (operator_node : PaddingNode)
    (new_symbol : string) : outcome PaddingNode unit :=
  match replace_all (nodes operator_node) with
  | Raise e => (operator_node, Raise e)
  | Ok ns =>
      let branch : outcome (list fragment) (option nat) :=
        if String.eqb new_symbol "#" then
          match List.last (map Some ns) None with
          | None => (ns, Raise IndexError)
          | Some n =>
              (<[ (length ns - 1)%nat :=
                    Fragment (PyStr.drop_last (text n) ++ "#") false ]> ns,
               Ok None)
          end
        else if String.eqb new_symbol ":" then
          (ns, Ok (Some (Nat.div (String.length (format (Padding ns))) 2)))
        else (ns, Ok None) in
      match branch with
      | (ns, Raise e) => (Padding ns, Raise e)
      | (ns, Ok None) => (Padding ns, Raise (UnboundLocalError "midpoint"))
      | (ns, Ok (Some midpoint)) =>
          match scan ns 0 0 midpoint None with
          | (None, _) => (Padding ns, Raise (UnboundLocalError "node"))
          | (Some (i, node), total_len) =>
              let index := (midpoint - total_len)%nat in
              (Padding
                 (<[ i := Fragment
                            (PyStr.take index (text node) ++ ":"
                             ++ PyStr.drop (index + 1) (text node)) false ]>
                    ns),
               Ok tt)
          end
      end
  end.

(** [HalfSpace._update_operator]: [_generate_default_tree] is [pass],
    so a missing node stays missing. *)
Definition _update_operator (operator : Operator)
    (node : option GeometryTree) : outcome (option GeometryTree) unit :=
  match node with
  | None => (None, Raise (AttributeError "nodes"))
  | Some tree =>
      let operator_node := operator_node tree in
      let output := format operator_node in
      let switch new_symbol : outcome (option GeometryTree) unit :=
        let (p, r) := __switch_operator operator_node new_symbol in
        (Some {| operator_node := p |}, r) in
      match operator with
      | INTERSECTION =>
          if negb (PyStr.isspace output) then switch " "
          else (node, Ok tt)
      | UNION =>
          if negb (PyStr.contains ":" output) then switch ":"
          else (node, Ok tt)
      | COMPLEMENT =>
          if negb (PyStr.contains "#" output) then switch "#"
          else (node, Ok tt)
      | SHIFT => (node, Ok tt)
      end
  end.

(** [UnitHalfSpace._update_values]; the setters of the value node are
    taken as plain stores. *)
Definition unit_update_values (self : UnitHalfSpace)
  : outcome UnitHalfSpace unit :=
  let number : result Z :=
    match _divider self with
    | OCell c => Ok (cell_number c)
    | OSurface s => Ok (surface_number s)
    | _ => Raise (AttributeError "number")
    end in
  match number with
  | Raise e => (self, Raise e)
  | Ok n =>
      match _node self with
      | None => (self, Raise (AttributeError "value"))
      | Some _ =>
          ({| _divider := _divider self; _side := _side self;
              _is_cell := _is_cell self;
              _node := Some {| value := Some n;
                               is_negative := Some (_side self) |};
              _cell := _cell self |}, Ok tt)
      end
  end.

(** [HalfSpace._update_values], and the dispatch on the operand's
    class. *)
Fixpoint _update_values (self : geometry) : outcome geometry unit :=
  match self with
  | Unit u => let (u', r) := unit_update_values u in (Unit u', r)
  | Half left_ op right_ node cell =>
      let (node', r) := _update_operator op node in
      match r with
      | Raise e => (Half left_ op right_ node' cell, Raise e)
      | Ok _ =>
          let (left', r1) := _update_values left_ in
          match r1 with
          | Raise e => (Half left' op right_ node' cell, Raise e)
          | Ok _ =>
              match right_ with
              | None => (Half left' op None node' cell, Ok tt)
              | Some rg =>
                  let (right', r2) := _update_values rg in
                  (Half left' op (Some right') node' cell, r2)
              end
          end
      end
  end.

(** *** Sample objects and the vocabulary of the properties *)

Definition leaf (n : Z) (side : bool) : UnitHalfSpace :=
  {| _divider := OInt n; _side := side; _is_cell := false;
     _node := Some {| value := Some n; is_negative := Some (negb side) |};
     _cell := None |}.

(** The half-space of the geometry [1 -2]. *)
Definition one_and_not_two : geometry :=
  Half (Unit (leaf 1 true)) INTERSECTION (Some (Unit (leaf 2 false)))
       (Some {| operator_node := PaddingNode_init " " |}) None.

Definition is_cell_or_surface (div : obj) : bool :=
  match div with
  | OCell _ | OSurface _ => true
  | _ => false
  end.

Definition missing (u : UnitHalfSpace) (cells : gmap Z Cell)
    (surfaces : gmap Z Surface) (n : Z) : Prop :=
  if _is_cell u then cells !! n = None else surfaces !! n = None.

Definition found (u : UnitHalfSpace) (cells : gmap Z Cell)
    (surfaces : gmap Z Surface) (n : Z) (o : obj) : Prop :=
  if _is_cell u then exists c, cells !! n = Some c /\ o = OCell c
  else exists s, surfaces !! n = Some s /\ o = OSurface s.

(** The role a broken link names. *)
Definition role (u : UnitHalfSpace) : string :=
  if _is_cell u then "Complement" else "Surface".

Definition cell_7 : Cell := {| cell_number := 7 |}.
Definition surface_5 : Surface := {| surface_number := 5 |}.

Definition complement_leaf (n : Z) : UnitHalfSpace :=
  {| _divider := OInt n; _side := true; _is_cell := true;
     _node := None; _cell := None |}.

(** Whether the text of the operator slot already shows the operator:
    the three tests of [_update_operator]. *)
Definition shows (op : Operator) (output : string) : bool :=
  match op with
  | INTERSECTION => PyStr.isspace output
  | UNION => PyStr.contains ":" output
  | COMPLEMENT => PyStr.contains "#" output
  | SHIFT => true
  end.

Definition symbol (op : Operator) : string :=
  match op with
  | INTERSECTION => " "
  | UNION => ":"
  | COMPLEMENT => "#"
  | SHIFT => EmptyString
  end.

(** The half-space of [1:2] after its operator was set to
    [INTERSECTION]. *)
Definition union_made_intersection : geometry :=
  Half (Unit (leaf 1 true)) INTERSECTION (Some (Unit (leaf 2 true)))
       (Some {| operator_node := PaddingNode_init ":" |}) None.

End half_space.

(** ** The standard library's [textwrap.TextWrapper], with the options
    [wrap_string_for_mcnp] leaves at their defaults *)

Module textwrap.
Local Open Scope Z_scope.

Definition len (s : string) : Z := Z.of_nat (String.length s).

(** [s.rfind(c, 0, stop)], [None] for [-1]. *)
Fixpoint rfind (c : ascii) (s : string) (stop : nat) : option nat :=
  match stop, s with
  | S stop', String d rest =>
      match rfind c rest stop' with
      | Some i => Some (S i)
      | None => if Ascii.eqb d c then Some O else None
      end
  | _, _ => None
  end.

(** [any(c != '-' for c in s)] *)
Fixpoint any_not_hyphen (s : string) : bool :=
  match s with
  | EmptyString => false
  | String c rest => negb (Ascii.eqb c "-") || any_not_hyphen rest
  end.

(** Where [_handle_long_word] cuts the chunk: at [space_left], or,
    with [break_on_hyphens], just after the last hyphen before it that
    has a non-hyphen before it. *)
Definition break_end (chunk : string) (space_left : Z) : Z :=
  if space_left <? len chunk then
    match rfind "-" chunk (Z.to_nat space_left) with
    | Some hyphen =>
        if (0 <? Z.of_nat hyphen)
           && any_not_hyphen (PyStr.take hyphen chunk)
        then Z.of_nat hyphen + 1
        else space_left
    | None => space_left
    end
  else space_left.

(** [_handle_long_word] with [break_long_words] set: the part of the
    chunk put on the line and the part left on the stack. *)
Definition _handle_long_word (chunk : string) (cur_len width : Z)
  : string * string :=
  let space_left := if width <? 1 then 1 else width - cur_len in
  let e := Z.to_nat (break_end chunk space_left) in
  (PyStr.take e chunk, PyStr.drop e chunk).

(** The inner [while chunks] loop: chunks are moved to the line as
    long as they fit. *)
Fixpoint fill (chunks cur_line : list string) (cur_len width : Z)
  : list string * Z * list string :=
  match chunks with
  | [] => (cur_line, cur_len, [])
  | c :: rest =>
      if cur_len + len c <=? width then
        fill rest (cur_line ++ [c]) (cur_len + len c) width
      else (cur_line, cur_len, chunks)
  end.

(** [del cur_line[-1]] when the last chunk of the line is blank. *)
Definition drop_trailing_blank (cur_line : list string) : list string :=
  match List.last (map Some cur_line) None with
  | Some c => if PyStr.all_whitespace c then removelast cur_line else cur_line
  | None => cur_line
  end.

(** [del chunks[-1]] when a line after the first would start with a
    blank chunk. *)
Definition skip_blank (chunks lines : list string) : list string :=
  match chunks, lines with
  | c :: rest, _ :: _ => if PyStr.all_whitespace c then rest else chunks
  | _, _ => chunks
  end.

(** The next chunk is too long for any line: part of it goes on this
    one. *)
Definition break_long (chunks cur_line : list string) (cur_len width : Z)
  : list string * list string :=
  match chunks with
  | c :: rest =>
      if width <? len c then
        let (piece, left_over) := _handle_long_word c cur_len width in
        (cur_line ++ [piece], left_over :: rest)
      else (cur_line, chunks)
  | [] => (cur_line, chunks)
  end.

(** The chunks of one line, and the chunks left for the next. *)
Definition build_line (chunks : list string) (width : Z)
  : list string * list string :=
  let '(cur_line, cur_len, chunks) := fill chunks [] 0 width in
  let '(cur_line, chunks) := break_long chunks cur_line cur_len width in
  (drop_trailing_blank cur_line, chunks).

Section Wrapper.

Variable width : Z.
Variable initial_indent subsequent_indent : string.

(** [_munge_whitespace] followed by the split on [wordsep_re]. *)
Variable wordsep_split : string -> list string.

Definition _split_chunks (text : string) : list string :=
  List.filter (fun c => negb (String.eqb c EmptyString)) (wordsep_split text).

(** One pass of the outer [while chunks] loop of [_wrap_chunks]. *)
Definition wrap_step (chunks lines : list string)
  : list string * list string :=
  let indent :=
    match lines with [] => initial_indent | _ => subsequent_indent end in
  let width := width - len indent in
  let '(cur_line, chunks) := build_line (skip_blank chunks lines) width in
  match cur_line with
  | [] => (chunks, lines)
  | _ => (chunks, lines ++ [String.append indent (PyStr.join cur_line)])
  end.

Fixpoint wrap_loop (fuel : nat) (chunks lines : list string)
  : result (list string) :=
  match chunks with
  | [] => Ok lines
  | _ =>
      match fuel with
      | O => Raise OutOfFuel
      | S fuel' =>
          let (chunks', lines') := wrap_step chunks lines in
          wrap_loop fuel' chunks' lines'
      end
  end.

(** What is left to place: every chunk counts for its length and for
    itself. *)
Definition measure (chunks : list string) : nat :=
  fold_right (fun c n => (String.length c + 1 + n)%nat) O chunks.

Definition _wrap_chunks (chunks : list string) : result (list string) :=
  if width <=? 0 then Raise ValueError
  else wrap_loop (measure chunks) chunks [].

Definition wrap (text : string) : result (list string) :=
  _wrap_chunks (_split_chunks text).

(** Chunks as [_split] leaves them, and the text still to be placed
    as the tail of the whole. *)
Definition nonempty (c : string) : Prop := c <> EmptyString.

Definition remains (text : string) (chunks : list string) : Prop :=
  exists done, text = String.append done (PyStr.join chunks).

(** What the wrapper promises about its lines, in terms of the text
    [text] made of the chunks: a line is an indent followed by a piece
    of the text, and is no longer than the width. *)
Definition infix_of (body text : string) : Prop :=
  exists before after,
    text = String.append before (String.append body after).

Definition placed (text indent line : string) : Prop :=
  exists body,
    line = String.append indent body
    /\ len line <= width
    /\ infix_of body text.

Definition wrapped (text : string) (lines : list string) : Prop :=
  match lines with
  | [] => True
  | first :: rest =>
      placed text initial_indent first
      /\ Forall (placed text subsequent_indent) rest
  end.

End Wrapper.

(** A splitter for examples: maximal runs of blanks and of
    non-blanks. *)
Fixpoint split_runs (s : string) (cur : string) (cur_blank : bool)
  : list string :=
  match s with
  | EmptyString => [cur]
  | String c rest =>
      let b := PyStr.is_whitespace c in
      if Bool.eqb b cur_blank then
        split_runs rest (String.append cur (String c EmptyString)) b
      else cur :: split_runs rest (String c EmptyString) b
  end.

Definition simple_split (s : string) : list string :=
  split_runs s EmptyString false.

End textwrap.

(** ** mcnpy/input_parser/constants.py *)

Module constants.

Definition version : Type := (Z * Z * Z)%type.

(** Tuple comparison [a >= b]. *)
Definition version_geb (a b : version) : bool :=
  let '(a1, a2, a3) := a in
  let '(b1, b2, b3) := b in
  ((b1 <? a1) || ((b1 =? a1) && ((b2 <? a2) || ((b2 =? a2) && (b3 <=? a3)))))%Z.

(** Modelled from the spec: [get_max_line_length] of
    [constants.py]; the widths and the unsupported version are those
    of [test_get_line_numbers]. *)
Definition get_max_line_length (mcnp_version : version) : result nat :=
  if version_geb mcnp_version (6, 2, 0)%Z then Ok 128%nat
  else if version_geb mcnp_version (5, 1, 60)%Z then Ok 80%nat
  else Raise UnsupportedFeature.

End constants.

(** ** mcnpy/mcnp_card.py and mcnpy/data_cards/data_card.py *)

Module mcnp_card.
Import constants.

(** [mcnpy.input_parser.mcnp_input.Comment], as far as a card uses
    it. *)
Record Comment : Type := {
  lines : list string;
  is_cutting_comment : bool;
  card_line : Z
}.

(** A data card: the attributes [MCNP_Card.__init__] and
    [DataCardAbstract.__init__] set. *)
Record Card : Type := {
  _input_lines : list string;
  _mutated : bool;
  _comments : list Comment;
  _words : list string
}.

Definition input_lines (self : Card) : list string := _input_lines self.
Definition mutated (self : Card) : bool := _mutated self.
Definition comments (self : Card) : list Comment := _comments self.
Definition words (self : Card) : list string := _words self.

(** [" ".join(words)] *)
Fixpoint join_words (words : list string) : string :=
  match words with
  | [] => EmptyString
  | [w] => w
  | w :: rest => String.append w (String " " (join_words rest))
  end.

Section Formatting.

(** [Comment.format_for_mcnp_input], a method of the collaborator
    [mcnpy.input_parser.mcnp_input.Comment]: it returns the lines of
    the comment for a version, or raises. *)
Variable comment_format : version -> Comment -> result (list string).

(** [BLANK_SPACE_CONTINUE] of [mcnpy.input_parser.constants]. *)
Variable BLANK_SPACE_CONTINUE : nat.

(** The word splitter of the standard library's text wrapper. *)
Variable wordsep_split : string -> list string.

(** [MCNP_Card.wrap_string_for_mcnp] *)
Definition wrap_string_for_mcnp (text : string) (mcnp_version : version)
    (is_first_line : bool) : result (list string) :=
  let* line_length := get_max_line_length mcnp_version in
  let indent_length := BLANK_SPACE_CONTINUE in
  let initial_indent := if is_first_line then O else indent_length in
  textwrap.wrap (Z.of_nat line_length)
    (PyStr.spaces initial_indent) (PyStr.spaces indent_length)
    wordsep_split text.

(** [MCNP_Card.wrap_words_for_mcnp] *)
Definition wrap_words_for_mcnp (words : list string) (mcnp_version : version)
    (is_first_line : bool) : result (list string) :=
  wrap_string_for_mcnp (join_words words) mcnp_version is_first_line.

(** [for comment in self.comments: ret += comment.format_for_mcnp_input(v)]:
    the comments are rendered in turn, and the first one that raises
    ends the loop. *)
Fixpoint render_all (mcnp_version : version) (cs : list Comment)
  : result (list string) :=
  match cs with
  | [] => Ok []
  | c :: rest =>
      let* block := comment_format mcnp_version c in
      let* blocks := render_all mcnp_version rest in
      Ok (block ++ blocks)
  end.

(** [MCNP_Card.format_for_mcnp_input]: the comment lines that go
    before the card. *)
Definition base_format_for_mcnp_input (self : Card) (mcnp_version : version)
  : result (list string) :=
  match comments self with
  | [] => Ok []
  | first :: _ =>
      if negb (mutated self) then comment_format mcnp_version first
      else render_all mcnp_version (comments self)
  end.

(** The first loop of [_format_for_mcnp_unmutated]: the cutting
    comments by the line they cut, a later one replacing an earlier
    one on the same line. *)
Definition cutting_comments (cs : list Comment) : gmap Z Comment :=
  fold_left
    (fun d comment =>
       if is_cutting_comment comment then <[card_line comment := comment]> d
       else d)
    cs ∅.

(** The second loop: [for i, line in enumerate(self.input_lines)]. *)
Fixpoint weave (comments_dict : gmap Z Comment) (mcnp_version : version)
    (i : Z) (input_lines : list string) : result (list string) :=
  match input_lines with
  | [] => Ok []
  | line :: rest =>
      let* block :=
        (match comments_dict !! i with
         | Some comment => comment_format mcnp_version comment
         | None => Ok []
         end) in
      let* tail := weave comments_dict mcnp_version (i + 1)%Z rest in
      Ok (block ++ line :: tail)
  end.

(** [MCNP_Card._format_for_mcnp_unmutated] *)
Definition _format_for_mcnp_unmutated (self : Card) (mcnp_version : version)
  : result (list string) :=
  match comments self with
  | [] => weave ∅ mcnp_version 0%Z (input_lines self)
  | first :: _ =>
      let* head := comment_format mcnp_version first in
      let* body :=
        weave (cutting_comments (comments self)) mcnp_version 0%Z
          (input_lines self) in
      Ok (head ++ body)
  end.

(** [DataCardAbstract.format_for_mcnp_input]: the call of the parent's
    method comes first, also for a card that is not mutated. *)
Definition format_for_mcnp_input (self : Card) (mcnp_version : version)
  : result (list string) :=
  let* ret := base_format_for_mcnp_input self mcnp_version in
  if mutated self then
    let* wrapped := wrap_words_for_mcnp (words self) mcnp_version true in
    Ok (ret ++ wrapped)
  else _format_for_mcnp_unmutated self mcnp_version.

End Formatting.

(** The setter of [DataCardAbstract.words]; the argument is a list of
    texts, so the two assertions hold. *)
Definition words_setter (self : Card) (words : list string) : Card :=
  {| _input_lines := _input_lines self; _mutated := true;
     _comments := _comments self; _words := words |}.

(** A comment formatter for examples: the comment's own lines, for a
    version that has a line length. *)
Definition verbatim_comment (v : version) (c : Comment)
  : result (list string) :=
  let* _ := get_max_line_length v in Ok (lines c).

(** A line that is [n] blanks followed by a piece of the text. *)
Definition indented (n : nat) (text line : string) : Prop :=
  exists body,
    line = String.append (PyStr.spaces n) body
    /\ textwrap.infix_of body text.

(** A material card of two lines, unmutated, with the comment block
    that precedes it. *)
Definition preceding_comment : Comment :=
  {| lines := ["C the fuel"%string];
     is_cutting_comment := false;
     card_line := 0 |}.

Definition material_lines : list string :=
  ["m1 1001.80c 2.0"; "     8016.80c 1.0"]%string.

Definition material_words : list string :=
  ["m1"; "1001.80c"; "2.0"; "8016.80c"; "1.0"]%string.

Definition commented_card : Card :=
  {| _input_lines := material_lines;
     _mutated := false;
     _comments := [preceding_comment];
     _words := material_words |}.

(** The same card with a second comment, cutting it before its second
    line. *)
Definition cutting_comment : Comment :=
  {| lines := ["C the oxygen"%string];
     is_cutting_comment := true;
     card_line := 1 |}.

Definition cut_card : Card :=
  {| _input_lines := material_lines;
     _mutated := false;
     _comments := [preceding_comment; cutting_comment];
     _words := material_words |}.

(** The card with the cutting comment alone. *)
Definition cut_only_card : Card :=
  {| _input_lines := material_lines;
     _mutated := false;
     _comments := [cutting_comment];
     _words := material_words |}.

(** The card with two comment blocks before it. *)
Definition second_comment : Comment :=
  {| lines := ["C enriched to 5 percent"%string];
     is_cutting_comment := false;
     card_line := 0 |}.

Definition twice_commented_card : Card :=
  {| _input_lines := material_lines;
     _mutated := false;
     _comments := [preceding_comment; second_comment];
     _words := material_words |}.


(** A line of 200 characters, forty words of four letters. *)
Definition long_text : string :=
  join_words (repeat "word"%string 40).

End mcnp_card.

(** ** montepy/data_inputs/isotope.py *)

Module Isotope.
Local Open Scope Z_scope.

(**                   Cl-52      Br-101     Xe-150      Os-203    Cm-251     Og-296 *)
Definition _BOUNDING_CURVE : list (Z * Z) :=
  [(17, 52); (35, 101); (54, 150); (76, 203); (96, 251); (118, 296)].

(** The [for lim_Z, lim_A in curve] loop of [is_probably_an_isotope]. *)
Fixpoint is_probably_an_isotope_in (curve : list (Z * Z)) (Zn A : Z) : bool :=
  match curve with
  | [] => true
  | (lim_Z, lim_A) :: rest =>
      if Zn <=? lim_Z then A <=? lim_A
      else is_probably_an_isotope_in rest Zn A
  end.

Definition is_probably_an_isotope (Zn A : Z) : bool :=
  is_probably_an_isotope_in _BOUNDING_CURVE Zn A.

(** [for i in range(1, 5): true_A -= 100; if ...: found = True; break].
    Returns the [i] and the [true_A] at the break, or [None] when the
    loop runs to its end with [found] still false. *)
Fixpoint find_meta_state (range : list Z) (Zn true_A : Z) : option (Z * Z) :=
  match range with
  | [] => None
  | i :: rest =>
      let true_A := true_A - 100 in
      if is_probably_an_isotope Zn true_A then Some (i, true_A)
      else find_meta_state rest Zn true_A
  end.

(** [int(ZAID / 1000)]: true division, then truncation toward zero.
    The quotient is exact for every identifier below 2^53. *)
Definition int_truediv (a b : Z) : Z := Z.quot a b.

Section WithElement.

(** [montepy.data_inputs.element.Element] is a collaborator of this
    module; its constructor either builds the element of an atomic
    number or raises. *)
Variable element : Type.
Variable Element : Z -> result element.

(** The attributes of an isotope that [_parse_zaid] computes and
    [__init__] installs with [setattr]. *)
Record t : Type := mk {
  _Z : Z;
  _element : element;
  _A : Z;
  _is_metastable : bool;
  _meta_state : option Z
}.

Definition _parse_zaid (ZAID : Z) : result t :=
  let Zn := int_truediv ZAID 1000 in
  let* el := Element Zn in
  let A := ZAID mod 1000 in
  if negb (is_probably_an_isotope Zn A) then
    let true_A := A - 300 in
    match find_meta_state [1; 2; 3; 4] Zn true_A with
    | Some (i, true_A) =>
        Ok {| _Z := Zn; _element := el; _A := true_A;
              _is_metastable := true; _meta_state := Some i |}
    | None => Raise ValueError
    end
  else
    Ok {| _Z := Zn; _element := el; _A := A;
          _is_metastable := false; _meta_state := None |}.

(** [300 + 100 * self.meta_state if self.is_metastable else 0]; the
    product with [None] is a [TypeError]. *)
Definition get_full_zaid (self : t) : result Z :=
  let* meta_adder :=
    (if _is_metastable self then
       match _meta_state self with
       | Some m => Ok (300 + 100 * m)
       | None => Raise TypeError
       end
     else Ok 0) in
  Ok (_Z self * 1000 + _A self + meta_adder).

Definition get_base_zaid (self : t) : Z := _Z self * 1000 + _A self.

End WithElement.

Arguments mk {element}.
Arguments _Z {element}.
Arguments _element {element}.
Arguments _A {element}.
Arguments _is_metastable {element}.
Arguments _meta_state {element}.
Arguments _parse_zaid {element}.
Arguments get_full_zaid {element}.
Arguments get_base_zaid {element}.

(** A concrete element table for examples: atomic numbers 1 to 118. *)
Definition periodic_table (z : Z) : result Z :=
  if (1 <=? z) && (z <=? 118) then Ok z else Raise UnknownElement.

End Isotope.

(** ** montepy/data_inputs/isotope.py: building isotopes *)

Module isotope_objects.
Import Isotope.
Local Open Scope Z_scope.

(** [str(n)] for an integer. *)
Definition str_of_Z (n : Z) : string :=
  if n <? 0 then
    String "-" (number.string_of_digits (number.decimal_digits (- n)))
  else number.string_of_digits (number.decimal_digits n).

Section WithElement.

Variable element : Type.
Variable Element : Z -> result element.

(** [Element.Z], the atomic number an element carries. *)
Variable Z_of : element -> Z.

(** An [Isotope] object: the attributes [_parse_zaid] also computes,
    the library and the identifier kept as text. *)
Record Isotope : Type := {
  attributes : t element;
  _library : string;
  _ZAID : string
}.

(** [Isotope.__init__] for an [element] argument and no [ZAID]: the
    branch [elif element is not None] and what follows it.  The
    arguments are typed, so the [isinstance] guards pass. *)
Definition init_from_element (el : element) (A : option Z)
    (meta_state : option Z) (library : string) : result Isotope :=
  let a := match A with Some a => a | None => 0 end in
  let truthy := match meta_state with Some m => negb (m =? 0) | None => false end in
  let attrs :=
    {| _Z := Z_of el; _element := el; _A := a;
       _is_metastable := truthy;
       _meta_state := if truthy then meta_state else None |} in
  let* full := get_full_zaid attrs in
  Ok {| attributes := attrs; _library := library; _ZAID := str_of_Z full |}.

(** [Isotope.get_from_fancy_name] for an integer identifier. *)
Definition get_from_fancy_name (identifier : Z) : result Isotope :=
  let* parts := _parse_zaid Element identifier in
  init_from_element (_element parts) (Some (_A parts)) (_meta_state parts)
    EmptyString.

End WithElement.

Arguments attributes {element}.
Arguments _library {element}.
Arguments _ZAID {element}.
Arguments init_from_element {element}.
Arguments get_from_fancy_name {element}.

End isotope_objects.

(** ** montepy/data_inputs/nuclide.py *)

Module nuclide.
Import Isotope.
Local Open Scope Z_scope.

Definition _ZAID_A_ADDER : Z := 1000.

(** The keys of [_STUPID_MAP] with the [_meta_state] each one forces;
    [str(ZAID)] of an integer is a key exactly when the integer is the
    number the key spells. *)
Definition _STUPID_MAP : list (Z * Z) := [(95642, 0); (95242, 1)].

Definition _STUPID_ZAID_SWAP : list (Z * Z) :=
  [(95242, 95642); (95642, 95242)].

(** [d[k]] on an association list, [None] when [k not in d]. *)
Fixpoint assoc (k : Z) (d : list (Z * Z)) : option Z :=
  match d with
  | [] => None
  | (k', v) :: rest => if k' =? k then Some v else assoc k rest
  end.

(** [s.split(".")] *)
Fixpoint split_dot (s : string) (cur : string) : list string :=
  match s with
  | EmptyString => [cur]
  | String c rest =>
      if Ascii.eqb c "." then cur :: split_dot rest EmptyString
      else split_dot rest (String.append cur (String c EmptyString))
  end.

Section WithElement.

Variable element : Type.
Variable Element : Z -> result element.

(** [Element.Z] *)
Variable Z_of : element -> Z.

(** The built-in [int] on text. *)
Variable python_int : string -> result Z.

(** A [Nucleus]: its three slots, [None] for a slot never set. *)
Record Nucleus : Type := {
  _element : option element;
  _A : option Z;
  _meta_state : option Z
}.

(** The dictionary [Nucleus._parse_zaid] returns: its three
    entries. *)
Record zaid_parts : Type := {
  parts_element : element;
  parts_meta_state : Z;
  parts_A : Z
}.

(** [Nucleus._parse_zaid]; the nested [is_probably_an_isotope] and the
    loop over [range(1, 5)] are those of [Isotope._parse_zaid], over
    the same [_BOUNDING_CURVE]. *)
Definition _parse_zaid (ZAID : Z) : result zaid_parts :=
  let Zn := int_truediv ZAID _ZAID_A_ADDER in
  let* el := Element Zn in
  let A := ZAID mod _ZAID_A_ADDER in
  if negb (is_probably_an_isotope Zn A) then
    let true_A := A - 300 in
    match find_meta_state [1; 2; 3; 4] Zn true_A with
    | Some (i, true_A) =>
        Ok {| parts_element := el; parts_meta_state := i;
              parts_A := true_A |}
    | None => Raise ValueError
    end
  else Ok {| parts_element := el; parts_meta_state := 0; parts_A := A |}.

(** [Nucleus._handle_stupid_legacy_stupidity] *)
Definition _handle_stupid_legacy_stupidity (self : Nucleus) (ZAID : Z)
  : Nucleus :=
  match assoc ZAID _STUPID_MAP with
  | Some meta =>
      {| _element := _element self; _A := _A self;
         _meta_state := Some meta |}
  | None => self
  end.

(** The tail of [Nucleus.__init__], from [if A is not None] on. *)
Definition set_A_and_meta (self : Nucleus) (A meta_state : option Z)
  : Nucleus :=
  {| _element := _element self;
     _A := Some (match A with Some a => a | None => 0 end);
     _meta_state :=
       Some (match meta_state with
             | Some m => if m =? 0 then 0 else m
             | None => 0
             end) |}.

(** [Nucleus.__init__]; the arguments other than [ZAID] are typed, so
    their [isinstance] guards pass. *)
Definition Nucleus_init (ZAID : string) (el : option element)
    (Zn A meta_state : option Z) : result Nucleus :=
  let empty := {| _element := None; _A := None; _meta_state := None |} in
  match ZAID with
  | String _ _ =>
      let parts := split_dot ZAID EmptyString in
      if (2 <? length parts)%nat then Raise ValueError
      else
        let* n := python_int (hd EmptyString parts) in
        let* new_vals := _parse_zaid n in
        let self :=
          _handle_stupid_legacy_stupidity
            {| _element := Some (parts_element new_vals);
               _A := Some (parts_A new_vals);
               _meta_state := Some (parts_meta_state new_vals) |} n in
        if n =? 0 then Ok (set_A_and_meta self A meta_state)
        else Ok self
  | EmptyString =>
      match el, Zn with
      | Some e, _ =>
          Ok (set_A_and_meta
                {| _element := Some e; _A := None; _meta_state := None |}
                A meta_state)
      | None, Some z =>
          let* e := Element z in
          Ok (set_A_and_meta
                {| _element := Some e; _A := None; _meta_state := None |}
                A meta_state)
      | None, None => Ok (set_A_and_meta empty A meta_state)
      end
  end.

(** Reading a slot that was never set is an [AttributeError]. *)
Definition slot {A : Type} (name : string) (v : option A) : result A :=
  match v with
  | Some a => Ok a
  | None => Raise (AttributeError name)
  end.

(** [Nucleus.Z] *)
Definition Nucleus_Z (self : Nucleus) : result Z :=
  let* e := slot "_element" (_element self) in Ok (Z_of e).

(** [Nucleus.is_metastable]: [bool(self._meta_state)] *)
Definition is_metastable (self : Nucleus) : result bool :=
  let* m := slot "_meta_state" (_meta_state self) in Ok (negb (m =? 0)).

(** [Nucleus.ZAID] *)
Definition Nucleus_ZAID (self : Nucleus) : result Z :=
  let* metastable := is_metastable self in
  let* meta_adder :=
    (if metastable then
       let* m := slot "_meta_state" (_meta_state self) in Ok (300 + 100 * m)
     else Ok 0) in
  let* z := Nucleus_Z self in
  let* a := slot "_A" (_A self) in
  let temp := z * _ZAID_A_ADDER + a + meta_adder in
  match assoc temp _STUPID_ZAID_SWAP with
  | Some swapped => Ok swapped
  | None => Ok temp
  end.

(** A [Nuclide]: its nucleus and its library. *)
Record Nuclide : Type := {
  _nucleus : Nucleus;
  _library : string
}.

(** [Nuclide.__init__] without a [node]. *)
Definition Nuclide_init (ZAID : string) (el : option element)
    (Zn A meta_state : option Z) (library : string) : result Nuclide :=
  let* nucleus := Nucleus_init ZAID el Zn A meta_state in
  let parts := split_dot ZAID EmptyString in
  let library :=
    match parts, library with
    | _ :: second :: _, EmptyString => second
    | _, _ => library
    end in
  Ok {| _nucleus := nucleus; _library := library |}.

(** [Nuclide.ZAID] *)
Definition ZAID (self : Nuclide) : result Z := Nucleus_ZAID (_nucleus self).

(** [Nuclide.get_base_zaid] *)
Definition get_base_zaid (self : Nuclide) : result Z :=
  let* z := Nucleus_Z (_nucleus self) in
  let* a := slot "_A" (_A (_nucleus self)) in
  Ok (z * _ZAID_A_ADDER + a).

(** [Nuclide.get_from_fancy_name] for an integer identifier. *)
Definition get_from_fancy_name (identifier : Z) : result Nuclide :=
  if _ZAID_A_ADDER <? identifier then
    let* parts := _parse_zaid identifier in
    Nuclide_init EmptyString (Some (parts_element parts)) None
      (Some (parts_A parts)) (Some (parts_meta_state parts)) EmptyString
  else
    let* el := Element identifier in
    Nuclide_init EmptyString (Some el) None (Some 0) (Some 0) EmptyString.

(** The swap of the two identifiers of Am-242. *)
Definition swapped (n : Z) : Z :=
  if n =? 95242 then 95642 else if n =? 95642 then 95242 else n.

End WithElement.

Arguments _element {element}.
Arguments _A {element}.
Arguments _meta_state {element}.
Arguments _nucleus {element}.
Arguments _library {element}.
Arguments parts_element {element}.
Arguments parts_meta_state {element}.
Arguments parts_A {element}.
Arguments _parse_zaid {element}.
Arguments Nucleus_init {element}.
Arguments Nucleus_ZAID {element}.
Arguments Nucleus_Z {element}.
Arguments is_metastable {element}.
Arguments Nuclide_init {element}.
Arguments ZAID {element}.
Arguments get_base_zaid {element}.
Arguments get_from_fancy_name {element}.

(** The built-in [int] on the texts the examples use: runs of decimal
    digits. *)
Definition int_of_digits (s : string) : result Z :=
  match s with
  | EmptyString => Raise ValueError
  | _ =>
      if forallb number.is_digit (list_ascii_of_string s) then
        Ok (number.digits_value
              (List.map number.digit_of (list_ascii_of_string s)))
      else Raise ValueError
  end.

End nuclide.

(** ** mcnpy/surfaces/half_space.py: whole trees *)

Module half_space_tree.
Import syntax_node half_space.

(** *** Parsing *)

#[local] Set Warnings "-register-all".

(** What [parse_input_node] is given: a [ValueNode], or a
    [GeometryTree] with its [left], [operator] and [right] and the
    ["operator"] entry of its [nodes]. *)
Inductive syntax_tree : Type :=
  | Value (node : ValueNode)
  | Tree (left_ : option syntax_tree) (operator : Operator)
         (right_ : option syntax_tree) (operator_node : PaddingNode).
#[local] Set Warnings "register-all".

(** [node.operator == Operator.COMPLEMENT] *)
Definition is_complement (op : Operator) : bool :=
  match op with COMPLEMENT => true | _ => false end.

(** [HalfSpace.parse_input_node]; [sides] is built left operand first.
    A [ValueNode] has no [left]. *)
Fixpoint parse_input_node (node : syntax_tree) : result geometry :=
  match node with
  | Value _ => Raise (AttributeError "left")
  | Tree left_ operator right_ operator_node =>
      let is_cell := is_complement operator in
      let* from_left :=
        (match left_ with
         | None => Ok []
         | Some (Value side) => Ok [Unit (unit_parse_input_node side is_cell)]
         | Some (Tree _ _ _ _ as side) =>
             let* g := parse_input_node side in Ok [g]
         end) in
      let* from_right :=
        (match right_ with
         | None => Ok []
         | Some (Value side) => Ok [Unit (unit_parse_input_node side is_cell)]
         | Some (Tree _ _ _ _ as side) =>
             let* g := parse_input_node side in Ok [g]
         end) in
      let sides := from_left ++ from_right in
      let tree := Some {| half_space.operator_node := operator_node |} in
      match operator, sides with
      | _, [] => Raise IndexError
      | SHIFT, first :: _ => Ok first
      | _, [first] => Ok (Half first operator None tree None)
      | _, first :: second :: _ => Ok (Half first operator (Some second) tree None)
      end
  end.


(** The values of a syntax tree that parsing keeps, left to right,
    each with whether it stands directly under a complement: of a
    shift the first operand alone is kept. *)
Fixpoint kept_values (under_complement : bool) (node : syntax_tree)
  : list (ValueNode * bool) :=
  match node with
  | Value v => [(v, under_complement)]
  | Tree left_ operator right_ _ =>
      let c := is_complement operator in
      let l := match left_ with Some t => kept_values c t | None => [] end in
      let r := match right_ with Some t => kept_values c t | None => [] end in
      match operator, left_ with
      | SHIFT, Some _ => l
      | _, _ => l ++ r
      end
  end.

(** The trees of a syntax tree that parsing keeps, each with its
    operator and the padding of its operator slot, root first: a
    shift is not kept, and of its operands only the first. *)
Fixpoint kept_trees (node : syntax_tree) : list (Operator * PaddingNode) :=
  match node with
  | Value _ => []
  | Tree left_ operator right_ operator_node =>
      let l := match left_ with Some t => kept_trees t | None => [] end in
      let r := match right_ with Some t => kept_trees t | None => [] end in
      match operator, left_ with
      | SHIFT, Some _ => l
      | SHIFT, None => r
      | _, _ => (operator, operator_node) :: l ++ r
      end
  end.

(** *** Walking a half-space *)

(** The leaves of a half-space, left to right. *)
Fixpoint leaves (g : geometry) : list UnitHalfSpace :=
  match g with
  | Unit u => [u]
  | Half left_ _ right_ _ _ =>
      leaves left_ ++ match right_ with Some r => leaves r | None => [] end
  end.

(** The operators of a half-space, root first. *)
Fixpoint operators (g : geometry) : list Operator :=
  match g with
  | Unit _ => []
  | Half left_ op right_ _ _ =>
      op :: operators left_
      ++ match right_ with Some r => operators r | None => [] end
  end.

(** The [_cell] attribute of every node and leaf. *)
Fixpoint owners (g : geometry) : list (option Cell) :=
  match g with
  | Unit u => [_cell u]
  | Half left_ _ right_ _ cell =>
      cell :: owners left_
      ++ match right_ with Some r => owners r | None => [] end
  end.

(** The [_node] attribute of every [HalfSpace] node. *)
Fixpoint trees (g : geometry) : list (option GeometryTree) :=
  match g with
  | Unit _ => []
  | Half left_ _ right_ node _ =>
      node :: trees left_
      ++ match right_ with Some r => trees r | None => [] end
  end.

(** [UnitHalfSpace.update_pointers] called on the leaves of a list in
    turn, until one raises. *)
Fixpoint update_each (us : list UnitHalfSpace) (cells : gmap Z Cell)
    (surfaces : gmap Z Surface) (cell : Cell)
  : outcome (list UnitHalfSpace) unit :=
  match us with
  | [] => ([], Ok tt)
  | u :: rest =>
      let (u', r) := unit_update_pointers u cells surfaces cell in
      match r with
      | Raise e => (u' :: rest, Raise e)
      | Ok _ =>
          let (rest', r') := update_each rest cells surfaces cell in
          (u' :: rest', r')
      end
  end.

(** Whether a leaf holds an object of the kind its flag announces. *)
Definition resolved (u : UnitHalfSpace) : bool :=
  match _divider u, _is_cell u with
  | OCell _, true | OSurface _, false => true
  | _, _ => false
  end.

(** *** Leaf objects *)

#[global] Instance Cell_eq_dec : EqDecision Cell.
Proof. solve_decision. Defined.

#[global] Instance Surface_eq_dec : EqDecision Surface.
Proof. solve_decision. Defined.

#[global] Instance obj_eq_dec : EqDecision obj.
Proof. solve_decision. Defined.

Definition obj_to_sum (o : obj) : unit + Z + string + Z + Z :=
  match o with
  | ONone => inl (inl (inl (inl tt)))
  | OInt n => inl (inl (inl (inr n)))
  | OStr s => inl (inl (inr s))
  | OCell c => inl (inr (cell_number c))
  | OSurface s => inr (surface_number s)
  end.

Definition obj_of_sum (x : unit + Z + string + Z + Z) : obj :=
  match x with
  | inl (inl (inl (inl _))) => ONone
  | inl (inl (inl (inr n))) => OInt n
  | inl (inl (inr s)) => OStr s
  | inl (inr n) => OCell {| cell_number := n |}
  | inr n => OSurface {| surface_number := n |}
  end.

#[global] Instance obj_countable : Countable obj.
Proof.
  refine (inj_countable' obj_to_sum obj_of_sum _).
  intros [| | | [] | []]; reflexivity.
Defined.

(** [UnitHalfSpace._get_leaf_objects] *)
Definition unit_get_leaf_objects (self : UnitHalfSpace)
  : gset obj * gset obj :=
  if _is_cell self then ({[ _divider self ]}, ∅)
  else (∅, {[ _divider self ]}).

(** [HalfSpace._get_leaf_objects], and the dispatch on the operand's
    class; a half-space object is truthy. *)
Fixpoint _get_leaf_objects (self : geometry) : gset obj * gset obj :=
  match self with
  | Unit u => unit_get_leaf_objects u
  | Half left_ _ right_ _ _ =>
      let (cells, surfaces) := _get_leaf_objects left_ in
      match right_ with
      | Some r =>
          let (new_cells, new_surfaces) := _get_leaf_objects r in
          (cells ∪ new_cells, surfaces ∪ new_surfaces)
      | None => (cells, surfaces)
      end
  end.

(** *** Sample objects *)

Definition value_node (n : Z) (negative : bool) : ValueNode :=
  {| value := Some n; is_negative := Some negative |}.

(** The syntax tree of [1 -2]. *)
Definition tree_one_and_not_two : syntax_tree :=
  Tree (Some (Value (value_node 1 false))) INTERSECTION
       (Some (Value (value_node 2 true))) (PaddingNode_init " ").

(** The syntax tree of [#3]. *)
Definition tree_not_cell_3 : syntax_tree :=
  Tree (Some (Value (value_node 3 false))) COMPLEMENT None
       (PaddingNode_init "#").

(** The syntax tree of a shifted surface 1 cut by [-2]: the shift
    holds the surface and its transform. *)
Definition tree_shifted : syntax_tree :=
  Tree (Some (Tree (Some (Value (value_node 1 false))) SHIFT
                   (Some (Value (value_node 9 false)))
                   (PaddingNode_init " ")))
       INTERSECTION
       (Some (Value (value_node 2 true))) (PaddingNode_init " ").

Definition surfaces_1_2 : gmap Z Surface :=
  <[ 1%Z := {| surface_number := 1 |} ]>
    (<[ 2%Z := {| surface_number := 2 |} ]> ∅).

End half_space_tree.

(** ** mcnpy/data_cards/data_card.py: the name of a data card *)

Module data_card.
Local Open Scope Z_scope.

(** *** The name pattern *)

(** [a-z] read without regard to case, on code points below 256. *)
Definition is_letter (c : ascii) : bool :=
  let n := nat_of_ascii c in
  (((97 <=? n) && (n <=? 122)) || ((65 <=? n) && (n <=? 90)))%nat.

(** The three character classes of [_NAME_PARSER]. *)
Definition is_prefix_char (c : ascii) : bool :=
  is_letter c || Ascii.eqb c "*".

Definition is_number_char (c : ascii) : bool :=
  number.is_digit c || Ascii.eqb c "-".

Definition is_classifier_char (c : ascii) : bool :=
  is_letter c || Ascii.eqb c ":" || Ascii.eqb c ",".

(** The longest run of a class at the head of a text, and the rest:
    what a greedy [[...]+] takes. *)
Fixpoint span (p : ascii -> bool) (s : string) : string * string :=
  match s with
  | String c rest =>
      if p c then let (run, tail) := span p rest in (String c run, tail)
      else (EmptyString, s)
  | EmptyString => (EmptyString, EmptyString)
  end.

(** The named groups of a match; [None] for a group that took no part
    in it. *)
Record groups : Type := {
  group_prefix : string;
  group_number : option string;
  group_classifier : option string
}.

(** Where [$] matches: at the end, or before a newline that ends the
    text. *)
Definition at_end (s : string) : bool :=
  match s with
  | EmptyString => true
  | String c EmptyString => Ascii.eqb c "010"
  | _ => false
  end.

(** [_NAME_PARSER.match(name)].  The classes of the three groups
    exclude one another's first characters, so that a match, when
    there is one, gives each group its whole run. *)
Definition _NAME_PARSER_match (name : string) : option groups :=
  let (prefix, after_prefix) := span is_prefix_char name in
  match prefix with
  | EmptyString => None
  | _ =>
      let (number, after_number) := span is_number_char after_prefix in
      let (classifier, rest) :=
        match after_number with
        | String ":" tail =>
            let (run, rest) := span is_classifier_char tail in
            match run with
            | EmptyString => (None, after_number)
            | _ => (Some (String ":" run), rest)
            end
        | _ => (None, after_number)
        end in
      if at_end rest then
        Some {| group_prefix := prefix;
                group_number :=
                  match number with
                  | EmptyString => None
                  | _ => Some number
                  end;
                group_classifier := classifier |}
      else None
  end.

(** The built-in [int] on a run of digits and hyphens: a sign at most,
    then at least one digit. *)
Definition int (text : string) : result Z :=
  let digits s :=
    match s with
    | EmptyString => None
    | _ =>
        if forallb number.is_digit (list_ascii_of_string s) then
          Some (number.digits_value
                  (List.map number.digit_of (list_ascii_of_string s)))
        else None
    end in
  match text with
  | String "-" rest =>
      match digits rest with Some n => Ok (- n) | None => Raise ValueError end
  | _ =>
      match digits text with Some n => Ok n | None => Raise ValueError end
  end.

(** *** The card *)

(** What [__split_name] sets on the card. *)
Record name : Type := {
  _input_number : option Z;
  _prefix : string;
  _classifier : option string
}.

(** How a call ends: with a value, with one of the exceptions of the
    other modules, or with the [AssertionError] of an [assert]. *)
Inductive ending (A : Type) : Type :=
  | Returns (a : A)
  | Raises (e : exception)
  | AssertionError.
Arguments Returns {A}.
Arguments Raises {A}.
Arguments AssertionError {A}.

(** [DataCardAbstract.__split_name], on the words of the card. *)
Definition __split_name (_words : list string) : ending name :=
  match _words with
  | [] => Raises IndexError
  | name :: _ =>
      match _NAME_PARSER_match name with
      | None => AssertionError
      | Some match_dict =>
          match group_number match_dict with
          | Some number =>
              match int number with
              | Ok n =>
                  Returns {| _input_number := Some n;
                             _prefix := group_prefix match_dict;
                             _classifier := group_classifier match_dict |}
              | Raise e => Raises e
              end
          | None =>
              Returns {| _input_number := None;
                         _prefix := group_prefix match_dict;
                         _classifier := group_classifier match_dict |}
          end
      end
  end.

(** [str.lower] on texts of the pattern's classes. *)
Definition lower_char (c : ascii) : ascii :=
  let n := nat_of_ascii c in
  if ((65 <=? n) && (n <=? 90))%nat then ascii_of_nat (n + 32) else c.

Fixpoint lower (s : string) : string :=
  match s with
  | EmptyString => EmptyString
  | String c rest => String (lower_char c) (lower rest)
  end.

(** The property [prefix]. *)
Definition prefix (self : name) : string := lower (_prefix self).

(** The property [particle_classifier]; a classifier that matched is
    not empty. *)
Definition particle_classifier (self : name) : option string :=
  match _classifier self with
  | Some c => Some (lower c)
  | None => None
  end.


(** *** Building the card *)

(** [mcnpy.input_parser.mcnp_input.Card], the syntax object a card is
    built from: what the constructors read of it. *)
Record InputCard : Type := {
  card_input_lines : list string;
  card_words : list string
}.

(** The [comments] argument of the constructors: [None], one
    [Comment], or a list of them. *)
Inductive comments_arg : Type :=
  | NoComments
  | OneComment (c : mcnp_card.Comment)
  | CommentList (cs : list mcnp_card.Comment).

(** A data card: the attributes [MCNP_Card.__init__] sets, the words,
    and what [__split_name] stores. *)
Record DataCard : Type := {
  attributes : mcnp_card.Card;
  split_name : name
}.

(** [DataCardAbstract.__init__] for an input card: the branch
    [if input_card] of [MCNP_Card.__init__], whose assertions the
    types of the arguments meet, then the words and [__split_name]. *)
Definition DataCardAbstract_init (input_card : InputCard)
    (comments : comments_arg) : ending DataCard :=
  let comments :=
    match comments with
    | CommentList cs => cs
    | OneComment c => [c]
    | NoComments => []
    end in
  let base :=
    {| mcnp_card._input_lines := card_input_lines input_card;
       mcnp_card._mutated := false;
       mcnp_card._comments := comments;
       mcnp_card._words := card_words input_card |} in
  match __split_name (card_words input_card) with
  | Returns split => Returns {| attributes := base; split_name := split |}
  | Raises e => Raises e
  | AssertionError => AssertionError
  end.

(** The input card of the material of the examples, and the cell card
    [1 0 -1], which is no data card. *)
Definition material_input : InputCard :=
  {| card_input_lines := mcnp_card.material_lines;
     card_words := mcnp_card.material_words |}.

Definition cell_input : InputCard :=
  {| card_input_lines := ["1 0 -1"%string];
     card_words := ["1"; "0"; "-1"]%string |}.

Definition material_1 : name :=
  {| _input_number := Some 1; _prefix := "m"; _classifier := None |}.

(** *** The vocabulary of the properties *)

(** What a user reads off a card's name. *)
Definition identity (self : name) : option Z * string * option string :=
  (_input_number self, prefix self, particle_classifier self).

Definition ending_map {A B : Type} (f : A -> B) (r : ending A) : ending B :=
  match r with
  | Returns a => Returns (f a)
  | Raises e => Raises e
  | AssertionError => AssertionError
  end.

Fixpoint all_chars (p : ascii -> bool) (s : string) : bool :=
  match s with
  | EmptyString => true
  | String c rest => p c && all_chars p rest
  end.

Definition text_of (o : option string) : string :=
  match o with Some s => s | None => EmptyString end.

Definition is_decimal_digit (d : Z) : Prop := 0 <= d <= 9.

(** The classifier of a name built from a run of particles: a colon
    and the run. *)
Definition classifier_text (run : option string) : option string :=
  match run with Some r => Some (String ":" r) | None => None end.

(** [str(number)], nothing for a card without number. *)
Definition number_text (number : option Z) : string :=
  match number with
  | Some n => isotope_objects.str_of_Z n
  | None => EmptyString
  end.

(** Whether a text is empty or begins outside a class. *)
Definition starts_outside (p : ascii -> bool) (s : string) : Prop :=
  match s with
  | String c _ => p c = false
  | EmptyString => True
  end.

(** Sample names: [F14:n,p], and the material cards [m2] and [m10]. *)
Definition tally_name : name :=
  {| _input_number := Some 14; _prefix := "F";
     _classifier := Some ":n,p"%string |}.



End data_card.

(** ** What a wrapped text is made of *)

Module text_content.

(** A text without its whitespace. *)
Fixpoint squeeze (s : string) : string :=
  match s with
  | EmptyString => EmptyString
  | String c rest =>
      if PyStr.is_whitespace c then squeeze rest
      else String c (squeeze rest)
  end.

(** A word splitter moves no character other than whitespace:
    [_munge_whitespace] turns whitespace into blanks, and the split
    cuts the text into pieces. *)
Definition keeps_content (wordsep_split : string -> list string) : Prop :=
  forall text, squeeze (PyStr.join (wordsep_split text)) = squeeze text.

(** The material card of the examples after its words were set anew,
    with its comment block. *)
Definition mutated_card : mcnp_card.Card :=
  mcnp_card.words_setter mcnp_card.commented_card
    ["m1"; "1001.80c"; "3.0"; "8016.80c"; "1.5"]%string.

End text_content.

(** ** The cutting comments of a card *)

Module card_comments.
Import mcnp_card.

(** Whether a comment cuts the card before line [j]. *)
Definition cuts (j : Z) (c : Comment) : bool :=
  is_cutting_comment c && (card_line c =? j)%Z.

(** Whether a comment cuts the card before one of its [n] lines. *)
Definition cuts_within (n : nat) (c : Comment) : bool :=
  is_cutting_comment c
  && (0 <=? card_line c)%Z && (card_line c <? Z.of_nat n)%Z.

(** A comment that cuts a line the card of the examples does not
    have. *)
Definition stray_comment : Comment :=
  {| lines := ["C lost"%string];
     is_cutting_comment := true;
     card_line := 2 |}.

Definition stray_card : Card :=
  {| _input_lines := material_lines;
     _mutated := false;
     _comments := [preceding_comment; stray_comment];
     _words := material_words |}.

End card_comments.

(** * Properties *)

(** ** Strings *)

Module PyStrFacts.
Import PyStr.
Local Open Scope string_scope.

Lemma append_cons (c : ascii) (s t : string) :
  String c s ++ t = String c (s ++ t).
Proof. reflexivity. Qed.

Lemma append_nil_l (t : string) : EmptyString ++ t = t.
Proof. reflexivity. Qed.

Lemma length_append (s1 s2 : string) :
  String.length (s1 ++ s2) = String.length s1 + String.length s2.
Proof.
  induction s1 as [| c s1 IH]; [reflexivity |].
  rewrite append_cons. simpl. now rewrite IH.
Qed.

Lemma append_nil_r (s : string) : s ++ EmptyString = s.
Proof.
  induction s as [| c s IH]; [reflexivity |].
  rewrite append_cons. now rewrite IH.
Qed.

Lemma append_assoc (s1 s2 s3 : string) : (s1 ++ s2) ++ s3 = s1 ++ s2 ++ s3.
Proof.
  induction s1 as [| c s1 IH]; [reflexivity |].
  rewrite !append_cons. now rewrite IH.
Qed.

Lemma length_replace (a b : ascii) (s : string) :
  String.length (replace a b s) = String.length s.
Proof. induction s as [| c s IH]; simpl; [reflexivity | now rewrite IH]. Qed.

Lemma take_drop (n : nat) (s : string) : take n s ++ drop n s = s.
Proof.
  revert s. induction n as [| n IH]; intros [| c s]; try reflexivity.
  simpl take. simpl drop. rewrite append_cons. now rewrite IH.
Qed.

Lemma length_take (n : nat) (s : string) :
  String.length (take n s) = Nat.min n (String.length s).
Proof.
  revert s. induction n as [| n IH]; intros [| c s]; simpl; try reflexivity.
  now rewrite IH.
Qed.

Lemma length_drop (n : nat) (s : string) :
  String.length (drop n s) = String.length s - n.
Proof.
  revert s. induction n as [| n IH]; intros [| c s]; simpl; try reflexivity.
  now rewrite IH.
Qed.

Lemma length_spaces (n : nat) : String.length (spaces n) = n.
Proof. induction n as [| n IH]; simpl; [reflexivity | now rewrite IH]. Qed.

Lemma join_app (l1 l2 : list string) :
  join (l1 ++ l2)%list = join l1 ++ join l2.
Proof.
  induction l1 as [| s l1 IH]; [reflexivity |].
  change (s ++ join (l1 ++ l2)%list = (s ++ join l1) ++ join l2).
  now rewrite IH, append_assoc.
Qed.

End PyStrFacts.

(** ** Integers as decimal text *)

Module DecimalFacts.
Import number data_card.
Local Open Scope Z_scope.

Lemma digits_of_value (fuel : nat) (n : Z) (acc : list Z) :
  0 <= n < 2 ^ Z.of_nat fuel ->
  fold_left (fun a d => 10 * a + d) (digits_of fuel n acc) 0
  = fold_left (fun a d => 10 * a + d) acc n.
Proof.
  revert n acc. induction fuel as [| fuel IH]; intros n acc Hn.
  - cbn in Hn. assert (n = 0) as -> by lia. reflexivity.
  - cbn [digits_of]. destruct (n <? 10) eqn:Hsmall.
    + cbn [fold_left]. f_equal.
    + apply Z.ltb_ge in Hsmall. rewrite IH.
      * cbn [fold_left]. f_equal.
        pose proof (Z.div_mod n 10 ltac:(lia)). lia.
      * rewrite Nat2Z.inj_succ, Z.pow_succ_r in Hn by lia.
        split; [apply Z.div_pos; lia |].
        apply Z.div_lt_upper_bound; lia.
Qed.

Lemma digits_of_digits (fuel : nat) (n : Z) (acc : list Z) :
  0 <= n < 2 ^ Z.of_nat fuel ->
  Forall is_decimal_digit acc ->
  Forall is_decimal_digit (digits_of fuel n acc).
Proof.
  revert n acc. induction fuel as [| fuel IH]; intros n acc Hn Hacc.
  - exact Hacc.
  - cbn [digits_of]. destruct (n <? 10) eqn:Hsmall.
    + apply Z.ltb_lt in Hsmall. constructor; [unfold is_decimal_digit; lia |].
      exact Hacc.
    + apply Z.ltb_ge in Hsmall. apply IH.
      * rewrite Nat2Z.inj_succ, Z.pow_succ_r in Hn by lia.
        split; [apply Z.div_pos; lia |].
        apply Z.div_lt_upper_bound; lia.
      * constructor; [| exact Hacc].
        pose proof (Z.mod_pos_bound n 10 ltac:(lia)).
        unfold is_decimal_digit. lia.
Qed.

Lemma digits_of_nonempty (fuel : nat) (n : Z) (acc : list Z) :
  digits_of (S fuel) n acc <> [].
Proof.
  revert n acc. induction fuel as [| fuel IH]; intros n acc.
  - cbn. destruct (n <? 10); [discriminate |]. discriminate.
  - change (digits_of (S (S fuel)) n acc)
      with (if n <? 10 then n :: acc
            else digits_of (S fuel) (n / 10) (n mod 10 :: acc)).
    destruct (n <? 10); [discriminate | apply IH].
Qed.

Lemma log2_fuel (n : Z) :
  0 <= n -> 0 <= n < 2 ^ Z.of_nat (S (Z.to_nat (Z.log2 n))).
Proof.
  intros Hn. split; [exact Hn |].
  rewrite Nat2Z.inj_succ, Z2Nat.id by apply Z.log2_nonneg.
  destruct (Z.eq_dec n 0) as [-> | Hne]; [reflexivity |].
  apply Z.log2_spec. lia.
Qed.

Lemma decimal_digits_value (n : Z) :
  0 <= n -> digits_value (decimal_digits n) = n.
Proof.
  intros Hn. unfold digits_value, decimal_digits.
  now rewrite digits_of_value by (apply log2_fuel; exact Hn).
Qed.

Lemma decimal_digits_digits (n : Z) :
  0 <= n -> Forall is_decimal_digit (decimal_digits n).
Proof.
  intros Hn. apply digits_of_digits; [apply log2_fuel; exact Hn |].
  constructor.
Qed.

Lemma decimal_digits_nonempty (n : Z) : decimal_digits n <> [].
Proof. apply digits_of_nonempty. Qed.

Lemma char_of_digit_spec (d : Z) :
  is_decimal_digit d ->
  is_digit (char_of_digit d) = true /\ digit_of (char_of_digit d) = d.
Proof.
  intros Hd.
  assert (d = 0 \/ d = 1 \/ d = 2 \/ d = 3 \/ d = 4 \/ d = 5 \/ d = 6
          \/ d = 7 \/ d = 8 \/ d = 9) as H by (unfold is_decimal_digit in Hd; lia).
  repeat (destruct H as [-> | H]; [split; reflexivity |]).
  subst. split; reflexivity.
Qed.

Lemma string_of_digits_spec (ds : list Z) :
  Forall is_decimal_digit ds ->
  forallb is_digit (list_ascii_of_string (string_of_digits ds)) = true
  /\ List.map digit_of (list_ascii_of_string (string_of_digits ds)) = ds.
Proof.
  induction 1 as [| d ds Hd _ [IH1 IH2]]; [split; reflexivity |].
  destruct (char_of_digit_spec d Hd) as [H1 H2].
  change (string_of_digits (d :: ds))
    with (String (char_of_digit d) (string_of_digits ds)).
  cbn [list_ascii_of_string forallb List.map].
  rewrite H1, H2, IH1, IH2. split; reflexivity.
Qed.

Lemma string_of_digits_nonempty (ds : list Z) :
  ds <> [] -> string_of_digits ds <> EmptyString.
Proof. destruct ds; [congruence | discriminate]. Qed.

(** *** The number of digits *)

Lemma take_digits_no_digit (s : string) :
  fst (take_digits s) = [] -> take_digits s = ([], s).
Proof.
  destruct s as [| c s]; [reflexivity |]. cbn [take_digits].
  destruct (is_digit c); [| reflexivity].
  destruct (take_digits s). discriminate.
Qed.

Lemma take_digits_app (ds : list Z) (rest : string) :
  Forall is_decimal_digit ds ->
  fst (take_digits rest) = [] ->
  take_digits (String.append (string_of_digits ds) rest) = (ds, rest).
Proof.
  intros Hds Hrest. induction Hds as [| d ds Hd _ IH].
  - apply take_digits_no_digit, Hrest.
  - change (string_of_digits (d :: ds))
      with (String (char_of_digit d) (string_of_digits ds)).
    rewrite PyStrFacts.append_cons. cbn [take_digits].
    destruct (char_of_digit_spec d Hd) as [H1 H2].
    now rewrite H1, IH, H2.
Qed.

Lemma digits_of_length (k : nat) :
  forall (fuel : nat) (n : Z) (acc : list Z),
    0 <= n < 2 ^ Z.of_nat (S fuel) ->
    n < 10 ^ Z.of_nat (S k) ->
    (k = O \/ 10 ^ Z.of_nat k <= n) ->
    length (digits_of (S fuel) n acc) = (S k + length acc)%nat.
Proof.
  induction k as [| k IH]; intros fuel n acc Hn Hlt Hge.
  - cbn [digits_of]. change (10 ^ Z.of_nat 1) with 10 in Hlt.
    apply Z.ltb_lt in Hlt. now rewrite Hlt.
  - destruct Hge as [Hge | Hge]; [discriminate |].
    assert (H10 : 10 <= n).
    { rewrite Nat2Z.inj_succ, Z.pow_succ_r in Hge by lia.
      pose proof (Z.pow_pos_nonneg 10 (Z.of_nat k) ltac:(lia) ltac:(lia)).
      lia. }
    cbn [digits_of]. apply Z.ltb_ge in H10 as H10'. rewrite H10'.
    destruct fuel as [| fuel].
    { change (2 ^ Z.of_nat 1) with 2 in Hn. lia. }
    rewrite IH.
    + cbn [length]. lia.
    + rewrite (Nat2Z.inj_succ (S fuel)), Z.pow_succ_r in Hn by lia.
      split; [apply Z.div_pos; lia |].
      apply Z.div_lt_upper_bound; lia.
    + apply Z.div_lt_upper_bound; [lia |].
      rewrite (Nat2Z.inj_succ (S k)), Z.pow_succ_r in Hlt by lia. lia.
    + right. apply Z.div_le_lower_bound; [lia |].
      rewrite Nat2Z.inj_succ, Z.pow_succ_r in Hge by lia. lia.
Qed.

(** A number of [k + 1] digits. *)
Lemma decimal_digits_length (n : Z) (k : nat) :
  0 <= n < 10 ^ Z.of_nat (S k) ->
  (k = O \/ 10 ^ Z.of_nat k <= n) ->
  length (decimal_digits n) = S k.
Proof.
  intros [Hn Hlt] Hge. unfold decimal_digits.
  rewrite (digits_of_length k); [cbn; lia | apply log2_fuel, Hn | exact Hlt | exact Hge].
Qed.

Lemma decade_exists (m : nat) (n : Z) :
  1 <= n < 10 ^ Z.of_nat m ->
  exists k : nat, 10 ^ Z.of_nat k <= n < 10 ^ Z.of_nat (S k).
Proof.
  induction m as [| m IH]; intros [Hlo Hhi].
  - change (10 ^ Z.of_nat 0) with 1 in Hhi. lia.
  - destruct (Z_lt_le_dec n (10 ^ Z.of_nat m)) as [Hlt | Hge].
    + apply IH. lia.
    + exists m. lia.
Qed.

(** The bounds a number of digits gives. *)
Lemma decimal_digits_bounds (n : Z) :
  1 <= n ->
  10 ^ (Z.of_nat (length (decimal_digits n)) - 1) <= n
  < 10 ^ Z.of_nat (length (decimal_digits n)).
Proof.
  intros Hn.
  destruct (decade_exists (Z.to_nat n) n) as (k & Hk).
  { split; [exact Hn |]. rewrite Z2Nat.id by lia.
    apply Z.pow_gt_lin_r; lia. }
  rewrite (decimal_digits_length n k); [| lia | right; lia].
  replace (Z.of_nat (S k) - 1) with (Z.of_nat k) by lia. exact Hk.
Qed.

(** *** Rounding *)

Lemma round_half_even_bounds (n d : Z) :
  0 <= n -> 0 < d ->
  2 * d * round_half_even n d - d <= 2 * n
  <= 2 * d * round_half_even n d + d.
Proof.
  intros Hn Hd. unfold round_half_even.
  pose proof (Z.div_mod n d ltac:(lia)) as Hdm.
  pose proof (Z.mod_pos_bound n d Hd) as Hr.
  destruct (2 * (n mod d) <? d) eqn:H1;
    [apply Z.ltb_lt in H1; nia | apply Z.ltb_ge in H1].
  destruct (d <? 2 * (n mod d)) eqn:H2;
    [apply Z.ltb_lt in H2; nia | apply Z.ltb_ge in H2].
  destruct (Z.even (n / d)); nia.
Qed.

Lemma round_half_even_lower (n d a : Z) :
  0 <= n -> 0 < d -> a * d <= n -> a <= round_half_even n d.
Proof.
  intros Hn Hd Ha.
  pose proof (round_half_even_bounds n d Hn Hd). nia.
Qed.

Lemma round_half_even_upper (n d b : Z) :
  0 <= n -> 0 < d -> n <= b * d -> round_half_even n d <= b.
Proof.
  intros Hn Hd Hb.
  pose proof (round_half_even_bounds n d Hn Hd). nia.
Qed.

Lemma round_half_even_nonneg (n d : Z) :
  0 <= n -> 0 < d -> 0 <= round_half_even n d.
Proof. intros Hn Hd. apply round_half_even_lower; lia. Qed.

(** *** The decimal exponent *)


Lemma decimal_exponent_spec (n d : Z) :
  1 <= n -> 1 <= d -> in_decade n d (decimal_exponent n d).
Proof.
  intros Hn Hd. unfold decimal_exponent, in_decade.
  pose proof (decimal_digits_bounds n Hn) as Hna.
  pose proof (decimal_digits_bounds d Hd) as Hdb.
  set (a := Z.of_nat (length (decimal_digits n))) in *.
  set (b := Z.of_nat (length (decimal_digits d))) in *.
  assert (Ha : 1 <= a).
  { unfold a. pose proof (decimal_digits_nonempty n).
    destruct (decimal_digits n); [congruence | cbn [length]; lia]. }
  assert (Hb : 1 <= b).
  { unfold b. pose proof (decimal_digits_nonempty d).
    destruct (decimal_digits d); [congruence | cbn [length]; lia]. }
  destruct (0 <=? a - b) eqn:Hk.
  - apply Z.leb_le in Hk.
    assert (Hpa : 10 ^ a = 10 ^ (a - b) * 10 ^ b).
    { rewrite <- Z.pow_add_r by lia. f_equal. lia. }
    assert (Hpa1 : 10 ^ (a - b + 1) = 10 * 10 ^ (a - b)).
    { rewrite Z.pow_add_r by lia. lia. }
    assert (Hpb : 10 ^ b = 10 * 10 ^ (b - 1)).
    { rewrite <- Z.pow_succ_r by lia. f_equal. lia. }
    pose proof (Z.pow_pos_nonneg 10 (a - b) ltac:(lia) ltac:(lia)).
    pose proof (Z.pow_pos_nonneg 10 (b - 1) ltac:(lia) ltac:(lia)).
    destruct (d * 10 ^ (a - b) <=? n) eqn:Hat.
    + apply Z.leb_le in Hat. apply Z.leb_le in Hk as Hk'. rewrite Hk'.
      split; [exact Hat |]. rewrite Hpa1. nia.
    + apply Z.leb_gt in Hat.
      destruct (0 <=? a - b - 1) eqn:Hk1.
      * apply Z.leb_le in Hk1.
        replace (a - b - 1 + 1) with (a - b) by lia.
        split; [| exact Hat].
        assert (Hpa' : 10 ^ (a - 1) = 10 ^ (a - b - 1) * 10 ^ b).
        { rewrite <- Z.pow_add_r by lia. f_equal. lia. }
        pose proof (Z.pow_pos_nonneg 10 (a - b - 1) ltac:(lia) ltac:(lia)).
        nia.
      * apply Z.leb_gt in Hk1. assert (a = b) as Hab by lia.
        replace (- (a - b - 1)) with 1 by lia.
        replace (- (a - b - 1) - 1) with 0 by lia.
        replace (a - b) with 0 in Hat by lia.
        change (10 ^ 1) with 10. change (10 ^ 0) with 1.
        rewrite Hab in Hna. split; [| lia]. nia.
  - apply Z.leb_gt in Hk.
    assert (Hpb : 10 ^ b = 10 ^ (- (a - b)) * 10 ^ a).
    { rewrite <- Z.pow_add_r by lia. f_equal. lia. }
    assert (Hpa : 10 ^ a = 10 * 10 ^ (a - 1)).
    { rewrite <- Z.pow_succ_r by lia. f_equal. lia. }
    assert (Hpb1 : 10 ^ b = 10 * 10 ^ (b - 1)).
    { rewrite <- Z.pow_succ_r by lia. f_equal. lia. }
    pose proof (Z.pow_pos_nonneg 10 (- (a - b)) ltac:(lia) ltac:(lia)).
    pose proof (Z.pow_pos_nonneg 10 (a - 1) ltac:(lia) ltac:(lia)).
    pose proof (Z.pow_pos_nonneg 10 (b - 1) ltac:(lia) ltac:(lia)).
    assert (Hk1 : 10 ^ (- (a - b - 1)) = 10 * 10 ^ (- (a - b))).
    { replace (- (a - b - 1)) with (Z.succ (- (a - b))) by lia.
      rewrite Z.pow_succ_r by lia. reflexivity. }
    assert (Hk2 : 10 ^ (- (a - b)) = 10 * 10 ^ (- (a - b) - 1)).
    { rewrite <- Z.pow_succ_r by lia. f_equal. lia. }
    pose proof (Z.pow_pos_nonneg 10 (- (a - b) - 1) ltac:(lia) ltac:(lia)).
    destruct (d <=? n * 10 ^ (- (a - b))) eqn:Hat.
    + apply Z.leb_le in Hat. apply Z.leb_gt in Hk as Hk'. rewrite Hk'.
      split; [exact Hat |]. nia.
    + apply Z.leb_gt in Hat.
      assert (Hneg : (0 <=? a - b - 1) = false) by (apply Z.leb_gt; lia).
      rewrite Hneg.
      replace (- (a - b - 1) - 1) with (- (a - b)) by lia.
      split; [| exact Hat]. rewrite Hk1. nia.
Qed.

(** *** Powers of ten *)

Lemma pow10_Qpower (k : Z) : (pow10 k == 10 ^ k)%Q.
Proof.
  unfold pow10. destruct (0 <=? k) eqn:Hk.
  - apply Z.leb_le in Hk. now rewrite Zpower_Qpower.
  - apply Z.leb_gt in Hk. rewrite Zpower_Qpower by lia.
    rewrite <- Qpower_opp. now rewrite Z.opp_involutive.
Qed.

Lemma pow10_pos (k : Z) : (0 < pow10 k)%Q.
Proof. rewrite pow10_Qpower. apply Qpower_0_lt. reflexivity. Qed.

Lemma pow10_add (a b : Z) : (pow10 (a + b) == pow10 a * pow10 b)%Q.
Proof. rewrite !pow10_Qpower. apply Qpower_plus. discriminate. Qed.

Lemma pow10_nonneg (k : Z) : 0 <= k -> pow10 k = inject_Z (10 ^ k).
Proof. intros Hk. unfold pow10. apply Z.leb_le in Hk. now rewrite Hk. Qed.

Lemma pow10_succ (k : Z) : (pow10 (k + 1) == 10 * pow10 k)%Q.
Proof.
  rewrite pow10_add. rewrite (pow10_nonneg 1) by lia.
  change (inject_Z (10 ^ 1)) with (10 # 1)%Q. ring.
Qed.


Lemma digits_value_app (ds1 ds2 : list Z) :
  digits_value (ds1 ++ ds2)
  = digits_value ds1 * 10 ^ Z.of_nat (length ds2) + digits_value ds2.
Proof.
  unfold digits_value.
  assert (H : forall ds a b,
             fold_left (fun acc d => 10 * acc + d) ds (a + b)
             = a * 10 ^ Z.of_nat (length ds)
               + fold_left (fun acc d => 10 * acc + d) ds b).
  { induction ds as [| d ds IH]; intros a b; cbn [fold_left length].
    - change (10 ^ Z.of_nat 0) with 1. lia.
    - replace (10 * (a + b) + d) with (10 * a + (10 * b + d)) by lia.
      rewrite IH. rewrite Nat2Z.inj_succ, Z.pow_succ_r by lia. lia. }
  rewrite fold_left_app.
  rewrite <- (Z.add_0_r (fold_left _ ds1 0)). rewrite H. lia.
Qed.

Lemma digits_value_zeros (k : nat) : digits_value (repeat 0 k) = 0.
Proof.
  unfold digits_value. induction k as [| k IH]; [reflexivity | exact IH].
Qed.

Lemma zero_pad_value (w : nat) (ds : list Z) :
  digits_value (zero_pad w ds) = digits_value ds.
Proof.
  unfold zero_pad. rewrite digits_value_app, digits_value_zeros. lia.
Qed.

Lemma zero_pad_length (w : nat) (ds : list Z) :
  length (zero_pad w ds) = Nat.max w (length ds).
Proof. unfold zero_pad. rewrite length_app, repeat_length. lia. Qed.

Lemma zero_pad_digits (w : nat) (ds : list Z) :
  Forall is_decimal_digit ds -> Forall is_decimal_digit (zero_pad w ds).
Proof.
  intros H. unfold zero_pad. apply Forall_app. split; [| exact H].
  apply List.Forall_forall. intros x Hx. apply repeat_spec in Hx.
  subst. unfold is_decimal_digit. lia.
Qed.

Lemma zero_pad_enough (w : nat) (ds : list Z) :
  (w <= length ds)%nat -> zero_pad w ds = ds.
Proof.
  intros H. unfold zero_pad. now replace (w - length ds)%nat with O by lia.
Qed.

(** The rounding is within a half of the quotient. *)
Lemma round_half_even_close (n d : Z) :
  0 <= n -> 0 < d ->
  (Qabs (inject_Z (round_half_even n d) - inject_Z n / inject_Z d)
   <= 1 # 2)%Q.
Proof.
  intros Hn Hd.
  pose proof (round_half_even_bounds n d Hn Hd) as [Hlo0 Hhi].
  set (m := round_half_even n d) in *.
  assert (Hlo : 2 * d * m <= 2 * n + d) by lia. clear Hlo0.
  apply Qabs_Qle_condition.
  assert (HD : (0 < inject_Z d)%Q) by (rewrite Zlt_Qlt in Hd; exact Hd).
  rewrite Zle_Qle in Hlo, Hhi.
  set (x := (inject_Z n / inject_Z d)%Q).
  assert (Hx : (inject_Z n == x * inject_Z d)%Q).
  { unfold x. field. lra. }
  rewrite inject_Z_plus in Hlo. rewrite !inject_Z_mult in Hlo.
  rewrite inject_Z_plus in Hhi. rewrite !inject_Z_mult in Hhi.
  rewrite Hx in Hlo, Hhi.
  change (inject_Z 2) with 2%Q in *.
  clearbody x.
  set (M := inject_Z m) in *. set (D := inject_Z d) in *.
  assert (Hlo' : (2 * (M * D) <= 2 * (x * D) + D)%Q).
  { eapply Qle_trans; [| exact Hlo]. apply Qle_lteq. right. ring. }
  assert (Hhi' : (2 * (x * D) <= 2 * (M * D) + D)%Q).
  { eapply Qle_trans; [exact Hhi |]. apply Qle_lteq. right. ring. }
  split; apply (Qmult_le_r _ _ D HD).
  - assert (E : ((M - x) * D == M * D - x * D)%Q) by ring. rewrite E.
    clear Hlo Hhi Hx E.
    generalize dependent (M * D)%Q. generalize dependent (x * D)%Q.
    intros. lra.
  - assert (E : ((M - x) * D == M * D - x * D)%Q) by ring. rewrite E.
    clear Hlo Hhi Hx E.
    generalize dependent (M * D)%Q. generalize dependent (x * D)%Q.
    intros. lra.
Qed.

Lemma Qabs_frac (v : Q) :
  (Qabs v == inject_Z (Z.abs (Qnum v)) / inject_Z (Zpos (Qden v)))%Q.
Proof. destruct v as [a b]. cbn [Qabs Qnum Qden]. apply Qmake_Qdiv. Qed.

Lemma pow_10_pos (k : Z) : 0 <= k -> 0 < 10 ^ k.
Proof. intros. apply Z.pow_pos_nonneg; lia. Qed.

Lemma inject_Z_nonzero (a : Z) : a <> 0 -> ~ (inject_Z a == 0)%Q.
Proof.
  intros Ha H. apply Ha. change 0%Q with (inject_Z 0) in H.
  now rewrite inject_Z_injective in H.
Qed.

(** The quotient the significand is rounded from. *)
Lemma scaled_quotient (n d e : Z) (p : nat) :
  1 <= n -> 1 <= d -> in_decade n d e ->
  let shift := Z.of_nat p - e in
  let N := if 0 <=? shift then n * 10 ^ shift else n in
  let D := if 0 <=? shift then d else d * 10 ^ (- shift) in
  0 <= N /\ 0 < D
  /\ 10 ^ Z.of_nat p * D <= N < 10 ^ Z.of_nat (S p) * D
  /\ (inject_Z N / inject_Z D
      == inject_Z n / inject_Z d * pow10 shift)%Q.
Proof.
  intros Hn Hd Hdec shift N D. unfold in_decade in Hdec.
  assert (HdQ : ~ (inject_Z d == 0)%Q) by (apply inject_Z_nonzero; lia).
  assert (Hp1 : 10 ^ Z.of_nat (S p) = 10 * 10 ^ Z.of_nat p).
  { rewrite Nat2Z.inj_succ, Z.pow_succ_r by lia. reflexivity. }
  pose proof (pow_10_pos (Z.of_nat p) ltac:(lia)) as Hpp.
  unfold N, D. destruct (0 <=? shift) eqn:Hs.
  - apply Z.leb_le in Hs.
    pose proof (pow_10_pos shift Hs) as Hps.
    split; [nia |]. split; [lia |]. split.
    + destruct (0 <=? e) eqn:He.
      * apply Z.leb_le in He.
        pose proof (pow_10_pos e He) as Hpe.
        assert (Hsplit : 10 ^ Z.of_nat p = 10 ^ e * 10 ^ shift).
        { rewrite <- Z.pow_add_r by lia. f_equal; unfold shift; lia. }
        assert (He1 : 10 ^ (e + 1) = 10 * 10 ^ e).
        { rewrite Z.pow_add_r by lia. lia. }
        rewrite Hp1, Hsplit. rewrite He1 in Hdec. split; nia.
      * apply Z.leb_gt in He.
        pose proof (pow_10_pos (- e - 1) ltac:(lia)) as Hpe.
        assert (Hsplit : 10 ^ shift = 10 ^ Z.of_nat p * 10 ^ (- e)).
        { rewrite <- Z.pow_add_r by lia. f_equal; unfold shift; lia. }
        assert (He1 : 10 ^ (- e) = 10 * 10 ^ (- e - 1)).
        { rewrite <- Z.pow_succ_r by lia. f_equal. lia. }
        rewrite Hp1, Hsplit. split; [nia |].
        rewrite He1. nia.
    + rewrite (pow10_nonneg shift Hs). rewrite inject_Z_mult. field. exact HdQ.
  - apply Z.leb_gt in Hs.
    assert (He : (0 <=? e) = true) by (apply Z.leb_le; lia).
    rewrite He in Hdec. apply Z.leb_le in He.
    pose proof (pow_10_pos (- shift) ltac:(lia)) as Hps.
    assert (Hsplit : 10 ^ e = 10 ^ Z.of_nat p * 10 ^ (- shift)).
    { rewrite <- Z.pow_add_r by lia. f_equal; unfold shift; lia. }
    assert (He1 : 10 ^ (e + 1) = 10 * 10 ^ e).
    { rewrite Z.pow_add_r by lia. lia. }
    rewrite He1, Hsplit in Hdec.
    split; [lia |]. split; [nia |]. split.
    + rewrite Hp1. split; nia.
    + unfold pow10. apply Z.leb_gt in Hs as Hs'. rewrite Hs'.
      rewrite inject_Z_mult. field. split; [| exact HdQ].
      apply inject_Z_nonzero. lia.
Qed.

Lemma repeat_zero_digits (k : nat) : Forall is_decimal_digit (repeat 0 k).
Proof.
  apply List.Forall_forall. intros x Hx. apply repeat_spec in Hx.
  subst. unfold is_decimal_digit. lia.
Qed.

(** The error of a significand [m] written with the exponent [e]. *)
Lemma significand_error (v : Q) (m N D e' : Z) (p : nat) :
  0 <= N -> 0 < D ->
  m = round_half_even N D ->
  (inject_Z N / inject_Z D == Qabs v * pow10 (Z.of_nat p - e'))%Q ->
  (Qabs (inject_Z m * pow10 (e' - Z.of_nat p) - Qabs v)
   <= (1 # 2) * pow10 (e' - Z.of_nat p))%Q.
Proof.
  intros HN HD -> Hq.
  pose proof (round_half_even_close N D HN HD) as Hclose.
  set (c := pow10 (e' - Z.of_nat p)).
  assert (Hc : (0 < c)%Q) by apply pow10_pos.
  assert (Hone : (pow10 (Z.of_nat p - e') * c == 1)%Q).
  { unfold c. rewrite <- pow10_add.
    replace (Z.of_nat p - e' + (e' - Z.of_nat p)) with 0 by lia. reflexivity. }
  assert (Hv : (Qabs v == inject_Z N / inject_Z D * c)%Q).
  { rewrite Hq. rewrite <- Qmult_assoc, Hone. ring. }
  rewrite Hv.
  assert (E : (inject_Z (round_half_even N D) * c - inject_Z N / inject_Z D * c
               == (inject_Z (round_half_even N D) - inject_Z N / inject_Z D) * c)%Q)
    by ring.
  rewrite E, Qabs_Qmult. rewrite (Qabs_pos c) by lra.
  apply Qmult_le_compat_r; [exact Hclose | lra].
Qed.

(** What [scientific] returns: as many digits as asked for, a first
    digit that is not zero for a number that is not zero, and a value
    within half a unit of the last digit. *)
Lemma scientific_spec (v : Q) (p : nat) :
  let ds := fst (scientific v p) in
  let e := snd (scientific v p) in
  length ds = S p
  /\ Forall is_decimal_digit ds
  /\ (Qnum v <> 0 -> 10 ^ Z.of_nat p <= digits_value ds)
  /\ (Qabs (inject_Z (digits_value ds) * pow10 (e - Z.of_nat p) - Qabs v)
      <= (1 # 2) * pow10 (e - Z.of_nat p))%Q.
Proof.
  unfold scientific.
  set (n := Z.abs (Qnum v)). set (d := Z.pos (Qden v)).
  destruct (n =? 0) eqn:Hzero.
  - apply Z.eqb_eq in Hzero. cbn [fst snd].
    split; [apply repeat_length |].
    split; [apply repeat_zero_digits |].
    split; [unfold n in Hzero; lia |].
    rewrite digits_value_zeros.
    assert (Hv : (Qabs v == 0)%Q).
    { rewrite Qabs_frac. fold n. rewrite Hzero. unfold Qdiv. ring. }
    rewrite Hv.
    pose proof (pow10_pos (0 - Z.of_nat p)) as Hc.
    set (c := pow10 (0 - Z.of_nat p)) in *.
    assert (E : (inject_Z 0 * c - 0 == 0)%Q) by ring.
    rewrite E. change (Qabs 0) with 0%Q. clearbody c. lra.
  - apply Z.eqb_neq in Hzero.
    assert (Hn : 1 <= n) by (unfold n in *; lia).
    assert (Hd : 1 <= d) by (unfold d; lia).
    pose proof (decimal_exponent_spec n d Hn Hd) as Hdec.
    set (e := decimal_exponent n d) in *.
    pose proof (scaled_quotient n d e p Hn Hd Hdec) as HND.
    cbv zeta in HND.
    set (shift := Z.of_nat p - e) in *.
    set (N := if 0 <=? shift then n * 10 ^ shift else n) in *.
    set (D := if 0 <=? shift then d else d * 10 ^ (- shift)) in *.
    destruct HND as (HN & HD & [Hlo Hhi] & Hq).
    set (m := if 0 <=? shift then round_half_even (n * 10 ^ shift) d
              else round_half_even n (d * 10 ^ (- shift))).
    assert (Hm : m = round_half_even N D).
    { unfold m, N, D. destruct (0 <=? shift); reflexivity. }
    assert (Hmlo : 10 ^ Z.of_nat p <= m).
    { rewrite Hm. apply round_half_even_lower; assumption. }
    assert (Hmhi : m <= 10 ^ Z.of_nat (S p)).
    { rewrite Hm. apply round_half_even_upper; [assumption .. | lia]. }
    assert (Hp1 : 10 ^ Z.of_nat (S p) = 10 * 10 ^ Z.of_nat p).
    { rewrite Nat2Z.inj_succ, Z.pow_succ_r by lia. reflexivity. }
    pose proof (pow_10_pos (Z.of_nat p) ltac:(lia)) as Hpp.
    assert (Hq' : (inject_Z N / inject_Z D
                   == Qabs v * pow10 (Z.of_nat p - e))%Q).
    { rewrite Hq. now rewrite Qabs_frac. }
    pose proof (significand_error v m N D e p HN HD Hm Hq') as Herr.
    destruct (10 ^ Z.of_nat (S p) <=? m) eqn:Hcarry; cbn [fst snd].
    + apply Z.leb_le in Hcarry.
      assert (Hmeq : m = 10 * 10 ^ Z.of_nat p) by lia.
      assert (Hdiv : m / 10 = 10 ^ Z.of_nat p).
      { rewrite Hmeq, Z.mul_comm. apply Z.div_mul. lia. }
      rewrite Hdiv.
      assert (Hlen : length (decimal_digits (10 ^ Z.of_nat p)) = S p).
      { apply decimal_digits_length; [lia | right; lia]. }
      rewrite zero_pad_enough by lia.
      split; [exact Hlen |].
      split; [apply decimal_digits_digits; lia |].
      rewrite decimal_digits_value by lia.
      split; [lia |].
      replace (e + 1 - Z.of_nat p) with (e - Z.of_nat p + 1) by lia.
      rewrite pow10_succ.
      pose proof (pow10_pos (e - Z.of_nat p)) as Hc.
      set (c := pow10 (e - Z.of_nat p)) in *.
      assert (E : (inject_Z (10 ^ Z.of_nat p) * (10 * c)
                   == inject_Z m * c)%Q).
      { rewrite Hmeq, inject_Z_mult. change (inject_Z 10) with 10%Q. ring. }
      rewrite E.
      eapply Qle_trans; [exact Herr |]. lra.
    + apply Z.leb_gt in Hcarry.
      assert (Hlen : length (decimal_digits m) = S p).
      { apply decimal_digits_length; [lia | right; lia]. }
      rewrite zero_pad_enough by lia.
      split; [exact Hlen |].
      split; [apply decimal_digits_digits; lia |].
      rewrite decimal_digits_value by lia.
      split; [lia | exact Herr].
Qed.

End DecimalFacts.

(** ** Numbers read back *)

Module RenderingFacts.
Import number data_card DecimalFacts syntax_node.
Local Open Scope Z_scope.


Lemma take_sign_digit (d : Z) (s : string) :
  is_decimal_digit d ->
  take_sign (String (char_of_digit d) s) = (None, String (char_of_digit d) s).
Proof.
  intros Hd.
  assert (d = 0 \/ d = 1 \/ d = 2 \/ d = 3 \/ d = 4 \/ d = 5 \/ d = 6
          \/ d = 7 \/ d = 8 \/ d = 9) as H by (unfold is_decimal_digit in Hd; lia).
  repeat (destruct H as [-> | H]; [reflexivity |]).
  subst. reflexivity.
Qed.

Lemma is_e_cases (c : ascii) : is_e c = true -> c = "e"%char \/ c = "E"%char.
Proof.
  unfold is_e. intros H. apply orb_prop in H as [H | H];
    apply Ascii.eqb_eq in H; auto.
Qed.

(** The digits of an exponent field read back. *)
Lemma exponent_text_reads_back (marker : option ascii) (w : nat) (e : Z) :
  (forall c, marker = Some c -> is_e c = true) ->
  parse_exponent (String.append (marker_text marker) (exponent_text w e))
  = Some (marker, e <? 0,
          zero_pad w (decimal_digits (Z.abs e))).
Proof.
  intros Hmarker. unfold exponent_text.
  set (ds := zero_pad w (decimal_digits (Z.abs e))).
  assert (Hds : Forall is_decimal_digit ds).
  { apply zero_pad_digits, decimal_digits_digits. lia. }
  assert (Hne : ds <> []).
  { unfold ds, zero_pad. pose proof (decimal_digits_nonempty (Z.abs e)).
    destruct (decimal_digits (Z.abs e)); [congruence |].
    intros H0. apply app_eq_nil in H0 as [_ H0]. discriminate. }
  assert (Htake : take_digits (string_of_digits ds) = (ds, EmptyString)).
  { rewrite <- (PyStrFacts.append_nil_r (string_of_digits ds)).
    now apply take_digits_app. }
  destruct marker as [c |]; cbn [marker_text].
  - destruct (is_e_cases c (Hmarker c eq_refl)) as [-> | ->];
      destruct (e <? 0);
      rewrite !PyStrFacts.append_cons, !PyStrFacts.append_nil_l;
      unfold parse_exponent; cbn [is_e Ascii.eqb Bool.eqb orb take_sign];
      rewrite Htake; destruct ds; congruence.
  - destruct (e <? 0);
      rewrite !PyStrFacts.append_cons, !PyStrFacts.append_nil_l;
      unfold parse_exponent; cbn [is_e Ascii.eqb Bool.eqb orb take_sign];
      rewrite Htake; destruct ds; congruence.
Qed.

(** What follows the significand begins with no digit and no point. *)
Lemma exponent_field_head (marker : option ascii) (w : nat) (e : Z) :
  (forall c, marker = Some c -> is_e c = true) ->
  exists h t,
    String.append (marker_text marker) (exponent_text w e) = String h t
    /\ (h = "e" \/ h = "E" \/ h = "+" \/ h = "-")%char.
Proof.
  intros Hmarker. unfold exponent_text. destruct marker as [c |].
  - exists c. eexists. split; [reflexivity |].
    destruct (is_e_cases c (Hmarker c eq_refl)); auto.
  - cbn [marker_text]. rewrite PyStrFacts.append_nil_l.
    destruct (e <? 0); eexists; eexists; (split; [reflexivity | auto]).
Qed.


Lemma significand_reads_back (point : bool) (d0 : Z) (rest : list Z)
    (marker : option ascii) (w : nat) (e : Z) :
  is_decimal_digit d0 ->
  Forall is_decimal_digit rest ->
  (forall c, marker = Some c -> is_e c = true) ->
  parse_literal
    (String.append (significand_text point (d0 :: rest))
       (String.append (marker_text marker) (exponent_text w e)))
  = Some (rendered point d0 rest marker w e).
Proof.
  intros Hd0 Hrest Hmarker.
  pose proof (exponent_text_reads_back marker w e Hmarker) as Hexp.
  destruct (exponent_field_head marker w e Hmarker) as (h & t & Htail & Hh).
  rewrite Htail in *.
  assert (Hnodigit : take_digits (String h t) = ([], String h t)).
  { destruct Hh as [-> | [-> | [-> | ->]]]; reflexivity. }
  destruct (char_of_digit_spec d0 Hd0) as [Hc1 Hc2].
  unfold parse_literal, significand_text.
  change (string_of_digits [d0]) with (String (char_of_digit d0) EmptyString).
  rewrite !PyStrFacts.append_cons, PyStrFacts.append_nil_l.
  rewrite (take_sign_digit d0 _ Hd0).
  cbn [take_digits]. rewrite Hc1, Hc2.
  assert (Hfst : fst (take_digits (String h t)) = []) by now rewrite Hnodigit.
  destruct point.
  - rewrite PyStrFacts.append_cons.
    cbn [take_digits]. change (is_digit ".") with false.
    cbv beta iota zeta.
    rewrite (take_digits_app rest (String h t) Hrest Hfst).
    rewrite Hexp. reflexivity.
  - rewrite PyStrFacts.append_nil_l. rewrite Hnodigit.
    destruct Hh as [-> | [-> | [-> | ->]]];
      cbv beta iota zeta; rewrite Hexp; reflexivity.
Qed.

Lemma parse_exponent_marker (s : string) (c : ascii) (neg : bool)
    (ds : list Z) :
  parse_exponent s = Some (Some c, neg, ds) -> is_e c = true.
Proof.
  destruct s as [| a s]; [discriminate |]. unfold parse_exponent.
  destruct (is_e a) eqn:Ha.
  - destruct (take_sign s) as [sg body].
    destruct (take_digits body) as [eds tail].
    destruct sg as [[|] |], eds, tail; try discriminate;
      intros [= <- _ _]; exact Ha.
  - destruct (take_sign (String a s)) as [sg body].
    destruct (take_digits body) as [eds tail].
    destruct sg as [[|] |], eds, tail; discriminate.
Qed.

(** The marker of a token that reads as a number is an [e]. *)
Lemma parse_literal_marker (s : string) (l : literal) (c : ascii) :
  parse_literal s = Some l -> exp_marker l = Some c -> is_e c = true.
Proof.
  unfold parse_literal.
  destruct (take_sign s) as [sg s1].
  destruct (take_digits s1) as [ip s2].
  destruct (match s2 with
            | String "."%char rest =>
                let (ds, tail) := take_digits rest in (Some ds, tail)
            | _ => (None, s2)
            end) as [fp s3].
  destruct (parse_exponent s3) as [[[marker eneg] eds] |] eqn:Hexp.
  - destruct ip as [| i ip]; [destruct fp as [[| f fp] |] |];
      try discriminate; intros [= <-]; cbn [exp_marker]; intros ->;
      exact (parse_exponent_marker _ _ _ _ Hexp).
  - destruct ip as [| i ip]; [destruct fp as [[| f fp] |] |]; discriminate.
Qed.

Lemma digits_value_bound (ds : list Z) :
  Forall is_decimal_digit ds ->
  0 <= digits_value ds < 10 ^ Z.of_nat (length ds).
Proof.
  induction ds as [| d ds IH] using rev_ind; intros Hds.
  - cbn. lia.
  - apply Forall_app in Hds as [Hds Hd].
    apply Forall_inv in Hd. unfold is_decimal_digit in Hd.
    specialize (IH Hds).
    rewrite digits_value_app, length_app. cbn [length].
    replace (digits_value [d]) with d by (unfold digits_value; cbn; lia).
    change (10 ^ Z.of_nat 1) with 10.
    rewrite Nat2Z.inj_add, Z.pow_add_r by lia.
    change (10 ^ Z.of_nat 1) with 10. lia.
Qed.

Lemma exponent_value_rendered (point : bool) (d0 : Z) (rest : list Z)
    (marker : option ascii) (w : nat) (e : Z) :
  exponent_value (rendered point d0 rest marker w e) = e.
Proof.
  unfold exponent_value, rendered. cbn [exp_digits exp_negative].
  rewrite zero_pad_value, decimal_digits_value by lia.
  destruct (e <? 0) eqn:He;
    [apply Z.ltb_lt in He | apply Z.ltb_ge in He]; lia.
Qed.

(** A real written after a token with an exponent: the sign column,
    then a number of the same shape as the token, within half a unit
    of its last digit of the value. *)
Lemma exponent_form_reads_back (l : literal) (v : Q) :
  (forall c, exp_marker l = Some c -> is_e c = true) ->
  exists body l',
    exponent_form l v
    = String.append (sign_column (sign l) (Qnum v <? 0)) body
    /\ parse_literal body = Some l'
    /\ sign l' = None
    /\ exp_marker l' = exp_marker l
    /\ length (int_digits l') = 1%nat
    /\ option_map (@length Z) (frac_digits l')
       = option_map (@length Z) (frac_digits l)
    /\ length (exp_digits l')
       = Nat.max (length (exp_digits l))
           (length (decimal_digits (Z.abs (exponent_value l'))))
    /\ (Qnum v <> 0 -> hd 0 (int_digits l') <> 0)
    /\ (Qabs (literal_value l' - Qabs v)
        <= (1 # 2) * pow10 (exponent_value l' - Z.of_nat (precision l')))%Q.
Proof.
  intros Hmarker. unfold exponent_form.
  pose proof (scientific_spec v (precision l)) as (Hlen & Hds & Hnorm & Hacc).
  cbv zeta in Hlen, Hds, Hnorm, Hacc.
  set (e := snd (scientific v (precision l))) in *.
  destruct (fst (scientific v (precision l))) as [| d0 rest];
    [discriminate |].
  set (point := match frac_digits l with Some _ => true | None => false end).
  set (w := length (exp_digits l)).
  apply Forall_cons in Hds as [Hd0 Hrest].
  exists (String.append (significand_text point (d0 :: rest))
            (String.append (marker_text (exp_marker l)) (exponent_text w e))),
    (rendered point d0 rest (exp_marker l) w e).
  split; [reflexivity |].
  split; [now apply significand_reads_back |].
  split; [reflexivity |]. split; [reflexivity |]. split; [reflexivity |].
  injection Hlen as Hlen.
  assert (Hfrac : (if point then Some rest else None)
                  = match frac_digits l with
                    | Some _ => Some rest
                    | None => None
                    end).
  { unfold point. now destruct (frac_digits l). }
  assert (Hrest0 : frac_digits l = None -> rest = []).
  { intros Hnone. unfold precision in Hlen. rewrite Hnone in Hlen.
    now destruct rest. }
  split.
  { cbn [rendered frac_digits]. unfold point, precision in *.
    destruct (frac_digits l); cbn [option_map]; congruence. }
  split.
  { rewrite exponent_value_rendered. cbn [rendered exp_digits].
    apply zero_pad_length. }
  split.
  { intros Hv. specialize (Hnorm Hv). cbn [rendered int_digits hd].
    intros ->.
    change (0 :: rest) with ([0] ++ rest) in Hnorm.
    rewrite digits_value_app in Hnorm.
    pose proof (digits_value_bound rest Hrest) as Hb.
    rewrite Hlen in Hb. change (digits_value [0]) with 0 in Hnorm. lia. }
  rewrite exponent_value_rendered.
  assert (Hval : (literal_value (rendered point d0 rest (exp_marker l) w e)
                  == inject_Z (digits_value (d0 :: rest))
                     * pow10 (e - Z.of_nat (precision l)))%Q).
  { unfold literal_value.
    fold (exponent_value (rendered point d0 rest (exp_marker l) w e)).
    rewrite exponent_value_rendered. rewrite Qred_correct.
    cbn [rendered sign int_digits frac_digits].
    unfold point, precision in *.
    destruct (frac_digits l).
    - rewrite Hlen. reflexivity.
    - rewrite (Hrest0 eq_refl). reflexivity. }
  assert (Hprec : precision (rendered point d0 rest (exp_marker l) w e)
                  = precision l).
  { unfold precision at 1. cbn [rendered frac_digits].
    unfold point, precision in *. destruct (frac_digits l); congruence. }
  rewrite Hprec, Hval. exact Hacc.
Qed.

(** *** Integers *)



Lemma lstrip_spaces (k : nat) (s : string) :
  PyStr.lstrip (String.append (PyStr.spaces k) s) = PyStr.lstrip s.
Proof. induction k as [| k IH]; [reflexivity | exact IH]. Qed.

Lemma lstrip_digit (d : Z) (s : string) :
  is_decimal_digit d ->
  PyStr.lstrip (String (char_of_digit d) s) = String (char_of_digit d) s.
Proof.
  intros Hd.
  assert (d = 0 \/ d = 1 \/ d = 2 \/ d = 3 \/ d = 4 \/ d = 5 \/ d = 6
          \/ d = 7 \/ d = 8 \/ d = 9) as H by (unfold is_decimal_digit in Hd; lia).
  repeat (destruct H as [-> | H]; [reflexivity |]).
  subst. reflexivity.
Qed.

(** A sign and digits read as the integer token they are. *)
Lemma signed_digits_read_back (sg : option bool) (body : list Z) :
  body <> [] ->
  Forall is_decimal_digit body ->
  parse_literal (String.append (number.sign_text sg) (string_of_digits body))
  = Some {| sign := sg; int_digits := body; frac_digits := None;
            exp_marker := None; exp_negative := false; exp_digits := [] |}.
Proof.
  intros Hne Hbody.
  assert (Htake : take_digits (string_of_digits body) = (body, EmptyString)).
  { rewrite <- (PyStrFacts.append_nil_r (string_of_digits body)).
    now apply take_digits_app. }
  destruct body as [| b body]; [congruence |].
  pose proof (Forall_inv Hbody) as Hb.
  unfold parse_literal.
  assert (Hsign : take_sign (String.append (number.sign_text sg)
                               (string_of_digits (b :: body)))
                  = (sg, string_of_digits (b :: body))).
  { destruct sg as [[|] |]; try reflexivity.
    cbn [number.sign_text]. rewrite PyStrFacts.append_nil_l.
    change (string_of_digits (b :: body))
      with (String (char_of_digit b) (string_of_digits body)).
    now apply take_sign_digit. }
  rewrite Hsign, Htake. reflexivity.
Qed.

Lemma string_of_digits_length (ds : list Z) :
  String.length (string_of_digits ds) = length ds.
Proof.
  induction ds as [| d ds IH]; [reflexivity |].
  change (string_of_digits (d :: ds))
    with (String (char_of_digit d) (string_of_digits ds)).
  cbn [String.length length]. now rewrite IH.
Qed.

Lemma rjust_length (w : nat) (s : string) :
  String.length (rjust w s) = Nat.max w (String.length s).
Proof.
  unfold rjust. rewrite PyStrFacts.length_append, PyStrFacts.length_spaces.
  lia.
Qed.


Lemma lstrip_signed (original : option bool) (negative : bool)
    (body : list Z) :
  body <> [] ->
  Forall is_decimal_digit body ->
  PyStr.lstrip (String.append (sign_column original negative)
            (string_of_digits body))
  = String.append (number.sign_text (sign_written original negative))
      (string_of_digits body).
Proof.
  intros Hne Hbody. destruct body as [| b body]; [congruence |].
  pose proof (Forall_inv Hbody) as Hb.
  change (string_of_digits (b :: body))
    with (String (char_of_digit b) (string_of_digits body)).
  destruct negative; [reflexivity |].
  destruct original as [[|] |]; cbn [sign_column sign_written number.sign_text].
  - rewrite PyStrFacts.append_cons, !PyStrFacts.append_nil_l.
    cbn [PyStr.lstrip]. change (PyStr.is_whitespace " ") with true. cbv iota.
    now apply lstrip_digit.
  - reflexivity.
  - rewrite !PyStrFacts.append_nil_l. now apply lstrip_digit.
Qed.

(** An integer written after a token: as wide as the token or as
    wide as it needs, read back as the value, with the sign column of
    the original. *)
Lemma int_text_law (l : literal) (width : nat) (v : Z) :
  (1 <= width)%nat ->
  String.length (int_text l width v)
  = Nat.max width
      (String.length (sign_column (sign l) (v <? 0))
       + length (decimal_digits (Z.abs v)))
  /\ parse_int (PyStr.lstrip (int_text l width v)) = Some v
  /\ fst (take_sign (PyStr.lstrip (int_text l width v)))
     = sign_written (sign l) (v <? 0)
  /\ (sign l = Some true -> 0 <= v ->
      exists rest, int_text l width v = String " " rest).
Proof.
  intros Hwidth. unfold int_text.
  set (digits := decimal_digits (Z.abs v)).
  set (sg := sign_column (sign l) (v <? 0)).
  set (body := if leading_zero (int_digits l)
               then zero_pad (width - String.length sg) digits
               else digits).
  assert (Hdigits : Forall is_decimal_digit digits)
    by (apply decimal_digits_digits; lia).
  assert (Hdne : digits <> []) by apply decimal_digits_nonempty.
  assert (Hbody : Forall is_decimal_digit body).
  { unfold body. destruct (leading_zero _); [apply zero_pad_digits |];
      exact Hdigits. }
  assert (Hbne : body <> []).
  { unfold body. destruct (leading_zero _); [| exact Hdne].
    unfold zero_pad. destruct digits; [congruence |].
    intros H. apply app_eq_nil in H as [_ H]. discriminate. }
  assert (Hbval : digits_value body = Z.abs v).
  { unfold body. destruct (leading_zero _); [rewrite zero_pad_value |];
      apply decimal_digits_value; lia. }
  assert (Hsg : (String.length sg <= 1)%nat).
  { unfold sg, sign_column. destruct (v <? 0); [cbn; lia |].
    destruct (sign l) as [[|] |]; cbn; lia. }
  assert (Hstrip : PyStr.lstrip (rjust width
                             (String.append sg (string_of_digits body)))
                   = String.append
                       (number.sign_text (sign_written (sign l) (v <? 0)))
                       (string_of_digits body)).
  { unfold rjust. rewrite lstrip_spaces. now apply lstrip_signed. }
  split; [| split; [| split]].
  - rewrite rjust_length, PyStrFacts.length_append, string_of_digits_length.
    unfold body. destruct (leading_zero _); [| lia].
    rewrite zero_pad_length. fold digits. lia.
  - rewrite Hstrip. unfold parse_int.
    rewrite (signed_digits_read_back _ body Hbne Hbody).
    cbn [frac_digits exp_digits int_digits sign]. rewrite Hbval.
    unfold sign_written.
    destruct (v <? 0) eqn:Hv;
      [apply Z.ltb_lt in Hv | apply Z.ltb_ge in Hv].
    + f_equal. lia.
    + destruct (sign l) as [[|] |]; f_equal; lia.
  - rewrite Hstrip.
    pose proof (signed_digits_read_back
                  (sign_written (sign l) (v <? 0)) body Hbne Hbody) as Hp.
    unfold parse_literal in Hp.
    destruct (take_sign _) as [sg' s1]. cbn [fst].
    destruct (take_digits s1) as [ip s2].
    destruct (match s2 with
              | String "."%char rest =>
                  let (ds, tail) := take_digits rest in (Some ds, tail)
              | _ => (None, s2)
              end) as [fp s3].
    destruct (parse_exponent s3) as [[[marker eneg] eds] |];
      destruct ip as [| i ip]; [destruct fp as [[| f fp] |] | |
                                destruct fp as [[| f fp] |] |];
      try discriminate; now injection Hp.
  - intros Hminus Hv. apply Z.ltb_ge in Hv.
    unfold sg, rjust. rewrite Hminus, Hv. cbn [sign_column].
    match goal with
    | |- context [PyStr.spaces ?k] => destruct k
    end; eexists; reflexivity.
Qed.

(** The sign of a token that reads as a number is the sign it begins
    with, and such a token is not empty. *)
Lemma parse_literal_sign (s : string) (l : literal) :
  parse_literal s = Some l ->
  sign l = fst (take_sign s) /\ (1 <= String.length s)%nat.
Proof.
  intros Hl. split.
  - revert Hl. unfold parse_literal.
    destruct (take_sign s) as [sg s1].
    destruct (take_digits s1) as [ip s2].
    destruct (match s2 with
              | String "."%char rest =>
                  let (ds, tail) := take_digits rest in (Some ds, tail)
              | _ => (None, s2)
              end) as [fp s3].
    destruct (parse_exponent s3) as [[[marker eneg] eds] |];
      destruct ip as [| i ip]; [destruct fp as [[| f fp] |] | |
                                destruct fp as [[| f fp] |] |];
      try discriminate; now intros [= <-].
  - destruct s; [discriminate | cbn; lia].
Qed.

End RenderingFacts.

(** ** Values and structural nodes *)

Module SyntaxNodeFacts.
Import syntax_node.
Local Open Scope string_scope.

(** *** Padding *)

(** [test_padding_init] and [test_padding_append]: the number of
    fragments after each step. *)
Example padding_append_lengths :
  let pad0 := PaddingNode_init " " in
  let pad1 := append pad0 (String newline EmptyString) false in
  let pad2 := append pad1 " " false in
  let pad3 := append pad2 (String " " (String newline EmptyString)) false in
  let pad4 := append pad3 "$ hi" true in
  map (fun p => length (nodes p)) [pad0; pad1; pad2; pad3; pad4]
  = [1; 2; 3; 5; 6]%nat.
Proof. reflexivity. Qed.

(** [test_padding_is_space] *)
Example padding_is_space :
  let pad :=
    append (append (PaddingNode_init " ") (String newline EmptyString) false)
      "$ hi" true in
  map (is_space pad) [0; 1; 2; 5]%nat
  = [Ok true; Ok false; Ok false; Raise IndexError].
Proof. reflexivity. Qed.

(** [test_padding_format] *)
Example padding_format :
  format (PaddingNode_init " ") = " "
  /\ format (append (PaddingNode_init " ") "$ hi" true) = " $ hi".
Proof. split; reflexivity. Qed.

(** A text without a newline is one fragment. *)
Lemma PaddingNode_init_one_fragment (token : string) :
  PyStr.contains newline token = false ->
  PaddingNode_init token = Padding [Fragment token false].
Proof.
  intros H. unfold PaddingNode_init, append. now rewrite H.
Qed.

(** Appending keeps the text: the fragments of a text spell it. *)
Lemma split_lines_text (s cur : string) :
  PyStr.join (map text (line_fragments (split_lines s cur))) = cur ++ s.
Proof.
  revert cur. induction s as [| c s IH]; intros cur; cbn [split_lines].
  - cbn [line_fragments]. rewrite PyStrFacts.append_nil_r.
    destruct cur; [reflexivity |].
    cbn [part_fragment map text PyStr.join fold_right].
    now rewrite PyStrFacts.append_nil_r.
  - destruct (Ascii.eqb_spec c newline) as [-> | Hc].
    + specialize (IH EmptyString).
      cbn [line_fragments].
      destruct (split_lines s EmptyString) as [| part parts] eqn:Hs.
      { destruct s; cbn in Hs; [discriminate |].
        destruct (Ascii.eqb a newline); discriminate. }
      rewrite map_app, PyStrFacts.join_app.
      cbn [map PyStr.join fold_right text].
      change (fold_right String.append EmptyString
                (map text (line_fragments (part :: parts))))
        with (PyStr.join (map text (line_fragments (part :: parts)))).
      rewrite IH. cbn.
      destruct cur; cbn; [reflexivity |].
      now rewrite PyStrFacts.append_nil_r.
    + rewrite IH. rewrite PyStrFacts.append_assoc. reflexivity.
Qed.

Lemma append_format (self : PaddingNode) (val : string) (comment : bool) :
  format (append self val comment) = format self ++ val.
Proof.
  unfold append, format.
  destruct comment; [| destruct (PyStr.contains newline val)];
    cbn [nodes]; rewrite map_app, PyStrFacts.join_app.
  - cbn. now rewrite PyStrFacts.append_nil_r.
  - now rewrite split_lines_text.
  - cbn. now rewrite PyStrFacts.append_nil_r.
Qed.

(** *** Trees *)




Lemma separators_length (cs : list node) :
  length (separators cs) = length cs.
Proof. induction cs as [| c cs IH]; cbn; [reflexivity | now rewrite IH]. Qed.


(** [test_syntax_format], [test_geometry_format] and
    [test_isotopes_format]: the trees are written back as their tokens
    and padding. *)
Example test_node_format (default_float_format : raw -> Q -> string) :
  node_format default_float_format test_node = "1.51"
  /\ node_format default_float_format test_tree = "1 2"
  /\ node_format default_float_format isotopes_node = "1001.80c 1.5 ".
Proof. repeat split; reflexivity. Qed.

(** [test_list_format]: twenty values without padding, put in a list
    by hand, are written with a space between them, which no text
    they were built from had. *)
Example list_node_format (default_float_format : raw -> Q -> string) :
  node_format default_float_format list_node
  = PyStr.join (repeat "1.0 " 19) ++ "1.0"
  /\ raw_text list_node = PyStr.join (repeat "1.0" 20)
  /\ unmutated list_node = true
  /\ separated list_node = false.
Proof. repeat split; reflexivity. Qed.

(** *** New values *)

(** A real token given a new real is written by [format_float], an
    integer token given a new integer by [format_int]. *)
Lemma reassigned_float (default_float_format : raw -> Q -> string)
    (token : string) (l : number.literal) (v : Q) :
  number.parse_literal token = Some l ->
  reassigned default_float_format token TFloat (SFloat v)
  = Ok (format_float default_float_format (RawText token) v).
Proof.
  intros Hl. unfold reassigned, reassigned_with, ValueNode_init.
  unfold number.parse_number. rewrite Hl. reflexivity.
Qed.

Lemma reassigned_int (default_float_format : raw -> Q -> string)
    (token : string) (n v : Z) :
  parse_int token = Some n ->
  reassigned default_float_format token TInt (SInt v)
  = Ok (format_int (RawText token) v).
Proof.
  intros Hn. unfold reassigned, reassigned_with, ValueNode_init.
  rewrite Hn. reflexivity.
Qed.

(** The rows of [test_valuenode_int_format] and
    [test_value_float_format] without padding, and those of
    [test_value_str_format]. *)
Example reassigned_integers (default_float_format : raw -> Q -> string) :
  map (fun '(token, v) => reassigned default_float_format token TInt (SInt v))
      [("1", 5%Z); ("-1", 2%Z); ("-1", (-2)%Z); ("+1", 5%Z); ("0001", 5%Z)]
  = [Ok "5"; Ok " 2"; Ok "-2"; Ok "+5"; Ok "0005"].
Proof. vm_compute. reflexivity. Qed.

Example reassigned_reals (default_float_format : raw -> Q -> string) :
  map (fun '(token, v) =>
         reassigned default_float_format token TFloat (SFloat v))
      [("1.23", (123 # 100)%Q); ("1.23", (456 # 100)%Q);
       ("-1.23", (456 # 100)%Q); ("1.0e-2", 2%Q);
       ("1.602-19", avogadro); ("1.602-0019", avogadro);
       ("1", 2%Q); ("0.5", 0%Q)]
  = [Ok "1.23"; Ok "4.56"; Ok " 4.56"; Ok "2.0e+0"; Ok "6.020+23";
     Ok "6.020+0023"; Ok "2"; Ok "0.0"].
Proof. vm_compute. reflexivity. Qed.

Example reassigned_jump (default_float_format : raw -> Q -> string) :
  reassigned_with default_float_format RawJump TInt None (SInt 5) = Ok "5"
  /\ reassigned_with default_float_format RawJump TFloat None
       (SFloat (54 # 10))
     = Ok (default_float_format RawJump (54 # 10)%Q).
Proof. split; reflexivity. Qed.

Example reassigned_text (default_float_format : raw -> Q -> string) :
  reassigned default_float_format "hi" TStr (SStr "foo") = Ok "foo"
  /\ (let* node := ValueNode_init (RawText "hi") TStr None in
      let* node := set_value node None in
      Ok (ValueNode_format default_float_format node))
     = Ok EmptyString.
Proof. split; reflexivity. Qed.

(** The padded rows of the three tests: the token [1], [1.0] or [hi]
    with each padding, given the value 10, 10.0 or [foo]. *)
Example reassigned_padded (default_float_format : raw -> Q -> string) :
  let paddings :=
    [padding_of " " []; padding_of "  " [];
     padding_of (String newline EmptyString) [];
     padding_of " " [String newline EmptyString; "c hi"];
     padding_of " " [" "]] in
  let nl := String newline EmptyString in
  map (fun pad => reassigned_with default_float_format (RawText "1") TInt
                    (Some pad) (SInt 10)) paddings
  = [Ok "10 "; Ok "10 "; Ok ("10" ++ nl); Ok ("10" ++ nl ++ "c hi");
     Ok "10 "]
  /\ map (fun pad => reassigned_with default_float_format (RawText "1.0")
                       TFloat (Some pad) (SInt 10)) paddings
     = [Ok "10.0 "; Ok "10.0 "; Ok ("10.0" ++ nl);
        Ok ("10.0" ++ nl ++ "c hi"); Ok "10.0 "]
  /\ map (fun pad => reassigned_with default_float_format (RawText "hi")
                       TStr (Some pad) (SStr "foo")) paddings
     = [Ok "foo "; Ok "foo "; Ok ("foo" ++ nl); Ok ("foo" ++ nl ++ "c hi");
        Ok "foo "].
Proof. repeat split; vm_compute; reflexivity. Qed.

(** C3: a real given to a node whose token has an exponent is written
    in the token's convention.  The text is the sign column followed
    by a number that reads back with the marker of the token, or with
    its bare sign, one digit before the point, as many digits after
    the point as the token, an exponent field as wide as the token's,
    or wider where the exponent needs it, a first digit that is not
    zero for a value that is not zero, and a value within half a unit
    of the last digit written.  An integer given to a node of an
    integer token is written as wide as the token, or wider where it
    needs it, reads back as the value, with an explicit plus where the
    token had one, and with a blank in the sign column where the token
    had a minus and the value has none.  The three examples of the
    specification are instances. *)
Theorem reassigned_value_keeps_convention
    (default_float_format : raw -> Q -> string) :
  (forall (token : string) (l : number.literal) (v : Q),
     number.parse_literal token = Some l ->
     number.has_exponent l = true ->
     exists body l',
       reassigned default_float_format token TFloat (SFloat v)
       = Ok (sign_column (number.sign l) (Qnum v <? 0)%Z ++ body)
       /\ number.parse_literal body = Some l'
       /\ number.sign l' = None
       /\ number.exp_marker l' = number.exp_marker l
       /\ length (number.int_digits l') = 1%nat
       /\ option_map (@length Z) (number.frac_digits l')
          = option_map (@length Z) (number.frac_digits l)
       /\ length (number.exp_digits l')
          = Nat.max (length (number.exp_digits l))
              (length (number.decimal_digits
                         (Z.abs (number.exponent_value l'))))
       /\ (Qnum v <> 0%Z -> hd 0%Z (number.int_digits l') <> 0%Z)
       /\ (Qabs (number.literal_value l' - Qabs v)
           <= (1 # 2) * number.pow10 (number.exponent_value l'
                                      - Z.of_nat (number.precision l')))%Q)
  /\ (forall (token : string) (n v : Z),
        parse_int token = Some n ->
        exists out,
          reassigned default_float_format token TInt (SInt v) = Ok out
          /\ String.length out
             = Nat.max (String.length token)
                 (String.length
                    (sign_column (fst (number.take_sign token)) (v <? 0)%Z)
                  + length (number.decimal_digits (Z.abs v)))
          /\ parse_int (PyStr.lstrip out) = Some v
          /\ fst (number.take_sign (PyStr.lstrip out))
             = sign_written (fst (number.take_sign token)) (v <? 0)%Z
          /\ (fst (number.take_sign token) = Some true -> (0 <= v)%Z ->
              exists rest, out = String " " rest))
  /\ reassigned default_float_format "1.602-19" TFloat (SFloat avogadro)
     = Ok "6.020+23"
  /\ reassigned default_float_format "1.602-0019" TFloat (SFloat avogadro)
     = Ok "6.020+0023"
  /\ reassigned default_float_format "-1" TInt (SInt 2) = Ok " 2".
Proof.
  split; [| split; [| repeat split; vm_compute; reflexivity]].
  - intros token l v Hl Hexp.
    destruct (RenderingFacts.exponent_form_reads_back l v)
      as (body & l' & Hform & Hrest).
    { intros c. apply (RenderingFacts.parse_literal_marker token l c Hl). }
    exists body, l'. split; [| exact Hrest].
    rewrite (reassigned_float _ token l v Hl).
    unfold format_float. rewrite Hl, Hexp. now rewrite Hform.
  - intros token n v Hn.
    assert (Hl : exists l, number.parse_literal token = Some l).
    { unfold parse_int in Hn.
      destruct (number.parse_literal token) as [l |]; [eauto | discriminate]. }
    destruct Hl as (l & Hl).
    destruct (RenderingFacts.parse_literal_sign token l Hl) as [Hsign Hlen].
    exists (int_text l (String.length token) v).
    rewrite <- Hsign.
    split; [| exact (RenderingFacts.int_text_law l _ v Hlen)].
    rewrite (reassigned_int _ token n v Hn).
    unfold format_int. now rewrite Hl.
Qed.

(** The token [1.0e-2] given the value 2, and the token [+7] given
    the value 12. *)
Lemma reassigned_value_keeps_convention_witness :
  (exists body l',
     reassigned (fun _ _ => EmptyString) "1.0e-2" TFloat (SFloat 2)
     = Ok body
     /\ number.parse_literal body = Some l'
     /\ number.exp_marker l' = Some "e"%char
     /\ option_map (@length Z) (number.frac_digits l') = Some 1%nat)
  /\ (exists out,
        reassigned (fun _ _ => EmptyString) "+7" TInt (SInt 12) = Ok out
        /\ parse_int (PyStr.lstrip out) = Some 12%Z
        /\ fst (number.take_sign (PyStr.lstrip out)) = Some false).
Proof.
  pose proof (reassigned_value_keeps_convention (fun _ _ => EmptyString))
    as (Hreal & Hint & _).
  split.
  - destruct (Hreal "1.0e-2"
                {| number.sign := None; number.int_digits := [1%Z];
                   number.frac_digits := Some [0%Z];
                   number.exp_marker := Some "e"%char;
                   number.exp_negative := true;
                   number.exp_digits := [2%Z] |} 2%Q eq_refl eq_refl)
      as (body & l' & Hout & Hparse & _ & Hmarker & _ & Hfrac & _).
    exists body, l'. repeat split; assumption.
  - destruct (Hint "+7" 7%Z 12%Z eq_refl)
      as (out & Hout & _ & Hparse & Hsign & _).
    exists out. repeat split; assumption.
Defined.

End SyntaxNodeFacts.

(** ** Shortcuts *)

(** *** The words *)

Module ShortcutWordFacts.
Import number data_card DecimalFacts RenderingFacts shortcuts.
Local Open Scope string_scope.

Lemma count_digits (n : nat) :
  Forall is_decimal_digit (decimal_digits (Z.of_nat n))
  /\ decimal_digits (Z.of_nat n) <> []
  /\ digits_value (decimal_digits (Z.of_nat n)) = Z.of_nat n.
Proof.
  split; [apply decimal_digits_digits; lia |].
  split; [apply decimal_digits_nonempty |].
  apply decimal_digits_value. lia.
Qed.

Lemma Qred_whole (z : Z) : Qred (z # 1) = z # 1.
Proof.
  unfold Qred.
  pose proof (Z.ggcd_gcd z 1) as Hg.
  pose proof (Z.ggcd_correct_divisors z 1) as Hd.
  cbn [Qnum Qden].
  destruct (Z.ggcd z 1) as [g [aa bb]]. cbn [fst snd] in *.
  rewrite Z.gcd_1_r in Hg. subst g. destruct Hd as [Ha Hb].
  rewrite Z.mul_1_l in Ha, Hb. now subst.
Qed.

(** A count reads as the whole number it is. *)
Lemma parse_number_count (n : nat) :
  parse_number (count_text n) = Some (inject_Z (Z.of_nat n)).
Proof.
  destruct (count_digits n) as (Hds & Hne & Hval).
  unfold parse_number, count_text.
  pose proof (signed_digits_read_back None _ Hne Hds) as Hp.
  cbn [sign_text] in Hp. rewrite PyStrFacts.append_nil_l in Hp.
  rewrite Hp. cbn [option_map]. f_equal.
  unfold literal_value.
  cbn [frac_digits int_digits exp_digits exp_negative sign].
  rewrite app_nil_r, Hval.
  change (digits_value []) with 0%Z.
  change (pow10 (0 - Z.of_nat (length (@nil Z)))) with (1 # 1)%Q.
  unfold Qmult, inject_Z. cbn [Qnum Qden Pos.mul].
  rewrite Z.mul_1_r. apply Qred_whole.
Qed.

Lemma length_count_text_pos (n : nat) :
  exists c rest, count_text n = String c rest.
Proof.
  unfold count_text. destruct (count_digits n) as (_ & Hne & _).
  destruct (decimal_digits (Z.of_nat n)) as [| d ds]; [congruence |].
  eexists. eexists. reflexivity.
Qed.

Lemma parse_prefix_count (n : nat) :
  parse_prefix (count_text n) = Some (count n).
Proof.
  destruct (length_count_text_pos n) as (c & rest & Hc).
  unfold parse_prefix. rewrite Hc, <- Hc.
  now rewrite parse_number_count.
Qed.

(** *** Suffixes *)

Lemma drop_app_length (p s : string) :
  PyStr.drop (String.length p) (p ++ s) = s.
Proof. induction p as [| c p IH]; [now destruct s | exact IH]. Qed.

Lemma take_app_length (p s : string) :
  PyStr.take (String.length p) (p ++ s) = p.
Proof.
  induction p as [| c p IH]; [now destruct s |].
  rewrite PyStrFacts.append_cons. cbn [String.length PyStr.take].
  now rewrite IH.
Qed.

Lemma strip_suffix_app (p suffix : string) :
  strip_suffix suffix (p ++ suffix) = Some p.
Proof.
  unfold strip_suffix. rewrite PyStrFacts.length_append.
  replace (String.length p + String.length suffix - String.length suffix)%nat
    with (String.length p) by lia.
  rewrite drop_app_length, take_app_length, String.eqb_refl.
  assert (H : (String.length suffix
               <=? String.length p + String.length suffix)%nat = true)
    by (apply Nat.leb_le; lia).
  now rewrite H.
Qed.

Lemma strip_suffix_Some (suffix s p : string) :
  strip_suffix suffix s = Some p -> s = p ++ suffix.
Proof.
  unfold strip_suffix.
  destruct (_ <=? _)%nat; [| discriminate]. cbn [andb].
  destruct (String.eqb_spec
              (PyStr.drop (String.length s - String.length suffix) s) suffix)
    as [Hd |]; [| discriminate].
  intros [= <-]. rewrite <- Hd at 2. now rewrite PyStrFacts.take_drop.
Qed.

Lemma append_last_char (p q : string) (c d : ascii) :
  p ++ String c EmptyString = q ++ String d EmptyString -> c = d.
Proof.
  revert q. induction p as [| a p IH]; intros [| b q] H.
  - now injection H.
  - rewrite PyStrFacts.append_cons in H. injection H as _ H.
    destruct q; discriminate.
  - rewrite PyStrFacts.append_cons in H. injection H as _ H.
    destruct p; discriminate.
  - rewrite !PyStrFacts.append_cons in H. injection H as _ H.
    now apply (IH q).
Qed.

(** A text does not end with a suffix that ends otherwise. *)
Lemma strip_suffix_other (p : string) (c : ascii) (suffix body : string)
    (d : ascii) :
  suffix = body ++ String d EmptyString ->
  c <> d ->
  strip_suffix suffix (p ++ String c EmptyString) = None.
Proof.
  intros -> Hcd.
  destruct (strip_suffix _ _) as [p' |] eqn:H; [| reflexivity].
  apply strip_suffix_Some in H.
  rewrite <- PyStrFacts.append_assoc in H.
  apply append_last_char in H. contradiction.
Qed.

Lemma upper_app (s t : string) : upper (s ++ t) = upper s ++ upper t.
Proof.
  induction s as [| c s IH]; [reflexivity |].
  rewrite PyStrFacts.append_cons. cbn [upper].
  now rewrite IH, PyStrFacts.append_cons.
Qed.

Lemma upper_digits (ds : list Z) :
  Forall is_decimal_digit ds ->
  upper (string_of_digits ds) = string_of_digits ds.
Proof.
  induction 1 as [| d ds Hd _ IH]; [reflexivity |].
  change (string_of_digits (d :: ds))
    with (String (char_of_digit d) (string_of_digits ds)).
  cbn [upper]. rewrite IH. f_equal.
  assert (d = 0 \/ d = 1 \/ d = 2 \/ d = 3 \/ d = 4 \/ d = 5 \/ d = 6
          \/ d = 7 \/ d = 8 \/ d = 9)%Z as H
    by (unfold is_decimal_digit in Hd; lia).
  repeat (destruct H as [-> | H]; [reflexivity |]).
  subst. reflexivity.
Qed.

(** A count followed by the letters of a shortcut is no number. *)
Lemma parse_number_letters (n : nat) (suffix : string) (kind : Shortcuts) :
  In (suffix, kind) shortcut_letters ->
  parse_number (count_text n ++ suffix) = None.
Proof.
  intros Hin.
  destruct (count_digits n) as (Hds & Hne & _).
  unfold parse_number, parse_literal, count_text.
  destruct (decimal_digits (Z.of_nat n)) as [| d ds] eqn:Hdigits;
    [congruence |].
  pose proof (Forall_inv Hds) as Hd.
  assert (Hsign : take_sign (string_of_digits (d :: ds) ++ suffix)
                  = (None, string_of_digits (d :: ds) ++ suffix)).
  { change (string_of_digits (d :: ds))
      with (String (char_of_digit d) (string_of_digits ds)).
    rewrite PyStrFacts.append_cons. now apply take_sign_digit. }
  rewrite Hsign.
  assert (Htake : take_digits (string_of_digits (d :: ds) ++ suffix)
                  = (d :: ds, suffix)).
  { apply take_digits_app; [exact Hds |].
    cbn in Hin.
    destruct Hin as [[= <- _] | [[= <- _] | [[= <- _] | [[= <- _] |
                    [[= <- _] | []]]]]]; reflexivity. }
  rewrite Htake.
  cbn in Hin.
  destruct Hin as [[= <- _] | [[= <- _] | [[= <- _] | [[= <- _] |
                  [[= <- _] | []]]]]]; reflexivity.
Qed.

(** The words of a shortcut: its letters, with or without a count
    before them, and a count alone, which is a number. *)
Lemma classify_words (n : nat) (suffix : string) (kind : Shortcuts) :
  In (suffix, kind) shortcut_letters ->
  classify (count_text n ++ suffix) = Ok (SHORTCUT kind (count n))
  /\ classify suffix = Ok (SHORTCUT kind None)
  /\ classify (count_text n) = Ok (NUMBER (inject_Z (Z.of_nat n))).
Proof.
  intros Hin.
  split; [| split].
  - unfold classify. rewrite (parse_number_letters n suffix kind Hin).
    rewrite upper_app. unfold count_text at 1.
    rewrite upper_digits by (apply decimal_digits_digits; lia).
    fold (count_text n).
    cbn in Hin.
    destruct Hin as [[= <- <-] | [[= <- <-] | [[= <- <-] | [[= <- <-] |
                    [[= <- <-] | []]]]]];
      match goal with
      | |- context [upper ?u] =>
          let r := eval vm_compute in (upper u) in change (upper u) with r
      end;
      unfold shortcut_letters; cbn [classify_shortcut].
    + rewrite strip_suffix_app. now rewrite parse_prefix_count.
    + rewrite (strip_suffix_other (count_text n) "I" "ILOG" "ILO" "G" eq_refl)
        by discriminate.
      rewrite strip_suffix_app. now rewrite parse_prefix_count.
    + rewrite (strip_suffix_other (count_text n) "R" "ILOG" "ILO" "G" eq_refl)
        by discriminate.
      rewrite (strip_suffix_other (count_text n) "R" "I" EmptyString "I" eq_refl)
        by discriminate.
      rewrite strip_suffix_app. now rewrite parse_prefix_count.
    + rewrite (strip_suffix_other (count_text n) "M" "ILOG" "ILO" "G" eq_refl)
        by discriminate.
      rewrite (strip_suffix_other (count_text n) "M" "I" EmptyString "I" eq_refl)
        by discriminate.
      rewrite (strip_suffix_other (count_text n) "M" "R" EmptyString "R" eq_refl)
        by discriminate.
      rewrite strip_suffix_app. now rewrite parse_prefix_count.
    + rewrite (strip_suffix_other (count_text n) "J" "ILOG" "ILO" "G" eq_refl)
        by discriminate.
      rewrite (strip_suffix_other (count_text n) "J" "I" EmptyString "I" eq_refl)
        by discriminate.
      rewrite (strip_suffix_other (count_text n) "J" "R" EmptyString "R" eq_refl)
        by discriminate.
      rewrite (strip_suffix_other (count_text n) "J" "M" EmptyString "M" eq_refl)
        by discriminate.
      rewrite strip_suffix_app. now rewrite parse_prefix_count.
  - cbn in Hin.
    destruct Hin as [[= <- <-] | [[= <- <-] | [[= <- <-] | [[= <- <-] |
                    [[= <- <-] | []]]]]]; reflexivity.
  - unfold classify. now rewrite parse_number_count.
Qed.

End ShortcutWordFacts.

(** *** The expansion *)

Module ShortcutFacts.
Import Reals Lra shortcuts.
Local Open Scope R_scope.

Lemma count_of_count (n : nat) : count_of (count n) = Ok n.
Proof.
  unfold count_of, count. cbn [inject_Z Qden Qnum].
  assert (H : (0 <=? Z.of_nat n)%Z = true) by (apply Z.leb_le; lia).
  rewrite H. cbn. now rewrite Nat2Z.id.
Qed.

Lemma previous_last (acc : list (option R)) (x : option R) :
  previous (acc ++ [x])
  = match x with Some p => Ok p | None => Raise MalformedInputError end.
Proof. unfold previous. now rewrite List.last_last. Qed.

(** An interpolation gives as many points as its count. *)
Lemma linear_points_length (a b : R) (n : nat) :
  length (linear_points a b n) = n.
Proof. unfold linear_points. now rewrite length_map, length_seq. Qed.

Lemma INR_S_nonzero (n : nat) : INR (S n) <> 0.
Proof. apply not_0_INR. discriminate. Qed.

(** The points of a linear interpolation go from one end point to the
    other by equal steps. *)
Lemma linear_point_steps (a b : R) (n : nat) :
  linear_point a b n 0 = a
  /\ linear_point a b n (S n) = b
  /\ forall i : nat,
       linear_point a b n (S i) - linear_point a b n i = (b - a) / INR (S n).
Proof.
  pose proof (INR_S_nonzero n) as Hn. unfold linear_point.
  split; [| split].
  - cbn [INR]. field. exact Hn.
  - field. exact Hn.
  - intros i. rewrite (S_INR i). field. exact Hn.
Qed.

(** The points of a logarithmic interpolation go from one end point
    to the other by equal ratios. *)
Lemma log_point_steps (a b : R) (n : nat) :
  0 < a -> 0 < b ->
  log_point a b n 0 = a
  /\ log_point a b n (S n) = b
  /\ forall i : nat,
       log_point a b n (S i)
       = log_point a b n i * Rpower (b / a) (1 / INR (S n)).
Proof.
  intros Ha Hb. pose proof (INR_S_nonzero n) as Hn. unfold log_point.
  assert (Hr : 0 < b / a) by (apply Rdiv_lt_0_compat; assumption).
  split; [| split].
  - replace (INR 0 / INR (S n)) with 0 by (cbn [INR]; field; exact Hn).
    rewrite Rpower_O by exact Hr. ring.
  - replace (INR (S n) / INR (S n)) with 1 by (field; exact Hn).
    rewrite Rpower_1 by exact Hr. field. lra.
  - intros i.
    replace (INR (S i) / INR (S n)) with (INR i / INR (S n) + 1 / INR (S n))
      by (rewrite (S_INR i); field; exact Hn).
    rewrite Rpower_plus. ring.
Qed.

(** *** The rules *)

Lemma expand_repeat (prefix : option Q) (n : nat) (p : R)
    (acc : list (option R)) (rest : list word) :
  count_of prefix = Ok n ->
  expand (SHORTCUT REPEAT prefix :: rest) (acc ++ [Some p])
  = expand rest ((acc ++ [Some p]) ++ repeat (Some p) n).
Proof.
  intros Hn. cbn [expand]. rewrite Hn, previous_last. reflexivity.
Qed.

Lemma expand_multiply (x : Q) (p : R) (acc : list (option R))
    (rest : list word) :
  expand (SHORTCUT MULTIPLY (Some x) :: rest) (acc ++ [Some p])
  = expand rest ((acc ++ [Some p]) ++ [Some (p * Q2R x)]).
Proof. cbn [expand]. rewrite previous_last. reflexivity. Qed.

Lemma expand_jump (prefix : option Q) (n : nat) (acc : list (option R))
    (rest : list word) :
  count_of prefix = Ok n ->
  expand (SHORTCUT JUMP prefix :: rest) acc
  = expand rest (acc ++ repeat None n).
Proof. intros Hn. cbn [expand]. rewrite Hn. reflexivity. Qed.

Lemma expand_interpolate (prefix : option Q) (n : nat) (p : R) (b : Q)
    (acc : list (option R)) (rest : list word) :
  count_of prefix = Ok n ->
  expand (SHORTCUT INTERPOLATE prefix :: NUMBER b :: rest) (acc ++ [Some p])
  = expand rest
      ((acc ++ [Some p]) ++ linear_points p (Q2R b) n ++ [Some (Q2R b)]).
Proof.
  intros Hn. cbn [expand]. rewrite Hn, previous_last. reflexivity.
Qed.

Lemma expand_log_interpolate (prefix : option Q) (n : nat) (p : R) (b : Q)
    (acc : list (option R)) (rest : list word) :
  count_of prefix = Ok n ->
  0 < p -> 0 < Q2R b ->
  expand (SHORTCUT LOG_INTERPOLATE prefix :: NUMBER b :: rest)
    (acc ++ [Some p])
  = expand rest
      ((acc ++ [Some p])
       ++ values (map (log_point p (Q2R b) n) (seq 1 n))
       ++ [Some (Q2R b)]).
Proof.
  intros Hn Hp Hb. cbn [expand]. rewrite Hn, previous_last.
  cbn [bind]. unfold log_points.
  destruct (Rlt_dec 0 p); [| contradiction].
  destruct (Rlt_dec 0 (Q2R b)); [| contradiction].
  cbn [bind]. unfold values. now rewrite map_map.
Qed.

Lemma expand_log_interpolate_sign (prefix : option Q) (p : R) (b : Q)
    (acc : list (option R)) (rest : list word) :
  ~ (0 < p /\ 0 < Q2R b) ->
  expand (SHORTCUT LOG_INTERPOLATE prefix :: NUMBER b :: rest)
    (acc ++ [Some p])
  = Raise MalformedInputError.
Proof.
  intros Hsign. cbn [expand].
  destruct (count_of prefix) as [n | e] eqn:Hn.
  - rewrite previous_last. cbn [bind]. unfold log_points.
    destruct (Rlt_dec 0 p); [| reflexivity].
    destruct (Rlt_dec 0 (Q2R b)); [| reflexivity].
    exfalso. apply Hsign. now split.
  - revert Hn. unfold count_of. destruct prefix as [q |]; [| discriminate].
    destruct (_ && _); [discriminate |]. now intros [= <-].
Qed.

Lemma count_of_raises (prefix : option Q) (e : exception) :
  count_of prefix = Raise e -> e = MalformedInputError.
Proof.
  unfold count_of. destruct prefix as [q |]; [| discriminate].
  destruct (_ && _); [discriminate |]. now intros [= <-].
Qed.

(** A shortcut that builds on the previous value has nothing to build
    on at the start of a list, or after a placeholder. *)
Lemma expand_needs_previous (kind : Shortcuts) (prefix : option Q)
    (rest : list word) (acc : list (option R)) :
  kind <> JUMP ->
  previous acc = Raise MalformedInputError ->
  expand (SHORTCUT kind prefix :: rest) acc = Raise MalformedInputError.
Proof.
  intros Hkind Hprev. cbn [expand].
  destruct kind; try congruence.
  - destruct (count_of prefix) as [n | e] eqn:Hn; cbn [bind].
    + now rewrite Hprev.
    + now rewrite (count_of_raises _ _ Hn).
  - destruct prefix; [now rewrite Hprev | reflexivity].
  - destruct (count_of prefix) as [n | e] eqn:Hn; cbn [bind].
    + now rewrite Hprev.
    + now rewrite (count_of_raises _ _ Hn).
  - destruct (count_of prefix) as [n | e] eqn:Hn; cbn [bind].
    + now rewrite Hprev.
    + now rewrite (count_of_raises _ _ Hn).
Qed.

(** An interpolation needs the number it ends at. *)
Lemma expand_needs_end (kind : Shortcuts) (prefix : option Q)
    (rest : list word) (acc : list (option R)) :
  kind = INTERPOLATE \/ kind = LOG_INTERPOLATE ->
  match rest with NUMBER _ :: _ => False | _ => True end ->
  expand (SHORTCUT kind prefix :: rest) acc = Raise MalformedInputError.
Proof.
  intros Hkind Hrest. cbn [expand].
  destruct Hkind as [-> | ->];
    (destruct (count_of prefix) as [n | e] eqn:Hn; cbn [bind];
     [| now rewrite (count_of_raises _ _ Hn)]);
    (destruct (previous acc) as [p | e] eqn:Hp; cbn [bind];
     [| revert Hp; unfold previous; destruct (List.last acc None);
        [discriminate | now intros [= <-]]]);
    destruct rest as [| [q | k x] rest']; try reflexivity; contradiction.
Qed.

(** *** The rows of the tests *)

(** A whole power has its roots. *)
Lemma Rpower_root (x : R) (k m : nat) :
  0 < x -> k <> O -> Rpower (x ^ k) (INR m / INR k) = x ^ m.
Proof.
  intros Hx Hk.
  rewrite <- (Rpower_pow k x Hx), Rpower_mult.
  replace (INR k * (INR m / INR k)) with (INR m)
    by (field; now apply not_0_INR).
  now apply Rpower_pow.
Qed.

Ltac read_words :=
  unfold parse_number_sequence;
  match goal with
  | |- context [classify_all ?ws] =>
      let r := eval vm_compute in (classify_all ws) in
      change (classify_all ws) with r
  end;
  cbn [bind].

Ltac count_words :=
  repeat match goal with
         | |- context [count_of ?p] =>
             let r := eval vm_compute in (count_of p) in
             change (count_of p) with r
         end.

Ltac expand_words :=
  cbn [expand]; count_words;
  cbn [bind previous List.last app repeat linear_points seq map values].

Ltac real_value :=
  unfold linear_point, Q2R; cbn [Qnum Qden INR]; field.

Ltac same_values tac :=
  apply (f_equal Ok);
  repeat (apply (f_equal2 cons);
          [first [reflexivity | apply (f_equal Some); tac] |]);
  reflexivity.

(** The rows of [test_shortcut_expansion] that stay within the
    rationals. *)
Example shortcut_test_rows :
  parse_number_sequence "1 3M I 4" = Ok (values [1; 3; 7 / 2; 4])
  /\ parse_number_sequence "1 3M 3M" = Ok (values [1; 3; 9])
  /\ parse_number_sequence "1 R 2m" = Ok (values [1; 1; 2])
  /\ parse_number_sequence "1 R R" = Ok (values [1; 1; 1])
  /\ parse_number_sequence "1 2i 4 3m" = Ok (values [1; 2; 3; 4; 12])
  /\ parse_number_sequence "1 i 3" = Ok (values [1; 2; 3])
  /\ parse_number_sequence "1 2i 4 2i 10"
     = Ok (values [1; 2; 3; 4; 6; 8; 10])
  /\ parse_number_sequence "1 j" = Ok [Some 1; None].
Proof.
  repeat split; read_words; repeat expand_words; same_values real_value.
Qed.

Lemma log_points_of_power (x : R) (k : nat) (a : R) :
  0 < x -> 0 < a ->
  log_points a (a * x ^ S k) k
  = Ok (map (fun i : nat => Some (a * x ^ i)) (seq 1 k)).
Proof.
  intros Hx Ha. unfold log_points.
  assert (Hb : 0 < a * x ^ S k).
  { apply Rmult_lt_0_compat; [exact Ha | now apply pow_lt]. }
  destruct (Rlt_dec 0 a); [| contradiction].
  destruct (Rlt_dec 0 (a * x ^ S k)); [| contradiction].
  f_equal. apply map_ext. intros i. f_equal. unfold log_point. f_equal.
  replace (a * x ^ S k / a) with (x ^ S k) by (field; lra).
  now apply Rpower_root.
Qed.

Example shortcut_test_rows_log :
  parse_number_sequence "1 ilog 100" = Ok (values [1; 10; 100])
  /\ parse_number_sequence "0.01 2ILOG 10"
     = Ok (values [1 / 100; 1 / 10; 1; 10]).
Proof.
  split; read_words; repeat expand_words.
  - replace (Q2R 100) with (Q2R 1 * 10 ^ 2) by real_value.
    rewrite (log_points_of_power 10 1) by (unfold Q2R; cbn; lra).
    cbn [bind seq map app]. same_values real_value.
  - replace (Q2R 10) with (Q2R 0.01 * 10 ^ 3) by real_value.
    rewrite (log_points_of_power 10 2) by (unfold Q2R; cbn; lra).
    cbn [bind seq map app]. same_values real_value.
Qed.

Example shortcut_test_rows_invalid :
  Forall (fun line => parse_number_sequence line = Raise MalformedInputError)
    ["3J 4R"; "1 4I 3M"; "1 4I J"; "1 2Ilog J"; "J 2Ilog 5"; "3J 2M";
     "10 M"; "2R"]%string.
Proof.
  repeat constructor; read_words; repeat expand_words; reflexivity.
Qed.

(** C2: the expansion of the shortcuts.  The letters of a shortcut,
    with or without a count before them, are read as that shortcut and
    a count alone as a number.  With the count [n] written before it,
    or one where none is written, a repeat appends the previous value
    [n] times and a jump appends [n] placeholders; a
    multiplication appends the previous value times its factor; an
    interpolation appends [n] points and the end value, the points
    going from the previous value to the end value by equal steps, and
    a logarithmic interpolation does so by equal ratios between two
    positive end points and is malformed otherwise.  A repeat, a
    multiplication or an interpolation with no value before it, or
    with a placeholder before it, a multiplication without factor, and
    an interpolation without the number it ends at are malformed.  The
    four lists and the two malformed lists of the specification are
    instances. *)
Theorem shortcut_expansion_cases :
  (forall (n : nat) (suffix : string) (kind : Shortcuts),
     In (suffix, kind) shortcut_letters ->
     classify (String.append (count_text n) suffix)
     = Ok (SHORTCUT kind (count n))
     /\ classify suffix = Ok (SHORTCUT kind None)
     /\ classify (count_text n) = Ok (NUMBER (inject_Z (Z.of_nat n))))
  /\ (forall (n : nat) (p : R) (acc : list (option R)) (rest : list word),
     expand (SHORTCUT REPEAT (count n) :: rest) (acc ++ [Some p])
     = expand rest ((acc ++ [Some p]) ++ repeat (Some p) n)
     /\ expand (SHORTCUT REPEAT None :: rest) (acc ++ [Some p])
        = expand rest ((acc ++ [Some p]) ++ [Some p])
     /\ expand (SHORTCUT JUMP (count n) :: rest) acc
        = expand rest (acc ++ repeat None n)
     /\ expand (SHORTCUT JUMP None :: rest) acc
        = expand rest (acc ++ [None]))
  /\ (forall (x : Q) (p : R) (acc : list (option R)) (rest : list word),
        expand (SHORTCUT MULTIPLY (Some x) :: rest) (acc ++ [Some p])
        = expand rest ((acc ++ [Some p]) ++ [Some (p * Q2R x)]))
  /\ (forall (n : nat) (p : R) (b : Q) (acc : list (option R))
             (rest : list word),
        expand (SHORTCUT INTERPOLATE (count n) :: NUMBER b :: rest)
          (acc ++ [Some p])
        = expand rest
            ((acc ++ [Some p])
             ++ values (map (linear_point p (Q2R b) n) (seq 1 n))
             ++ [Some (Q2R b)])
        /\ linear_point p (Q2R b) n 0 = p
        /\ linear_point p (Q2R b) n (S n) = Q2R b
        /\ forall i : nat,
             linear_point p (Q2R b) n (S i) - linear_point p (Q2R b) n i
             = (Q2R b - p) / INR (S n))
  /\ (forall (n : nat) (p : R) (b : Q) (acc : list (option R))
             (rest : list word),
        0 < p -> 0 < Q2R b ->
        expand (SHORTCUT LOG_INTERPOLATE (count n) :: NUMBER b :: rest)
          (acc ++ [Some p])
        = expand rest
            ((acc ++ [Some p])
             ++ values (map (log_point p (Q2R b) n) (seq 1 n))
             ++ [Some (Q2R b)])
        /\ log_point p (Q2R b) n 0 = p
        /\ log_point p (Q2R b) n (S n) = Q2R b
        /\ forall i : nat,
             log_point p (Q2R b) n (S i)
             = log_point p (Q2R b) n i
               * Rpower (Q2R b / p) (1 / INR (S n)))
  /\ (forall (prefix : option Q) (p : R) (b : Q) (acc : list (option R))
             (rest : list word),
        ~ (0 < p /\ 0 < Q2R b) ->
        expand (SHORTCUT LOG_INTERPOLATE prefix :: NUMBER b :: rest)
          (acc ++ [Some p])
        = Raise MalformedInputError)
  /\ (forall (kind : Shortcuts) (prefix : option Q) (rest : list word)
             (acc : list (option R)),
        kind <> JUMP ->
        acc = [] \/ (exists acc', acc = acc' ++ [None]) ->
        expand (SHORTCUT kind prefix :: rest) acc
        = Raise MalformedInputError)
  /\ (forall (rest : list word) (acc : list (option R)),
        expand (SHORTCUT MULTIPLY None :: rest) acc
        = Raise MalformedInputError)
  /\ (forall (kind : Shortcuts) (prefix : option Q) (rest : list word)
             (acc : list (option R)),
        kind = INTERPOLATE \/ kind = LOG_INTERPOLATE ->
        match rest with NUMBER _ :: _ => False | _ => True end ->
        expand (SHORTCUT kind prefix :: rest) acc
        = Raise MalformedInputError)
  /\ parse_number_sequence "1 3M 2r" = Ok (values [1; 3; 3; 3])
  /\ parse_number_sequence "1 2R 2I 2.5"
     = Ok (values [1; 1; 1; 3 / 2; 2; 5 / 2])
  /\ parse_number_sequence "1 2j 4" = Ok [Some 1; None; None; Some 4]
  /\ parse_number_sequence "0.01 2ILOG 10"
     = Ok (values [1 / 100; 1 / 10; 1; 10])
  /\ parse_number_sequence "2R" = Raise MalformedInputError
  /\ parse_number_sequence "10 M" = Raise MalformedInputError.
Proof.
  split; [exact ShortcutWordFacts.classify_words |].
  split.
  { intros n p acc rest. split; [| split; [| split]].
    - apply expand_repeat, count_of_count.
    - now apply (expand_repeat None 1).
    - apply expand_jump, count_of_count.
    - now apply (expand_jump None 1). }
  split; [exact expand_multiply |].
  split.
  { intros n p b acc rest.
    split; [| exact (linear_point_steps p (Q2R b) n)].
    rewrite (expand_interpolate _ n) by apply count_of_count.
    unfold linear_points, values. now rewrite map_map. }
  split.
  { intros n p b acc rest Hp Hb.
    split; [| exact (log_point_steps p (Q2R b) n Hp Hb)].
    apply expand_log_interpolate; [apply count_of_count | assumption ..]. }
  split; [exact expand_log_interpolate_sign |].
  split.
  { intros kind prefix rest acc Hkind Hacc.
    apply expand_needs_previous; [exact Hkind |].
    destruct Hacc as [-> | (acc' & ->)]; [reflexivity |].
    apply previous_last. }
  split; [reflexivity |].
  split; [exact expand_needs_end |].
  split; [read_words; repeat expand_words; same_values real_value |].
  split; [read_words; repeat expand_words; same_values real_value |].
  split; [read_words; repeat expand_words; same_values real_value |].
  split; [exact (proj2 shortcut_test_rows_log) |].
  split; read_words; repeat expand_words; reflexivity.
Qed.

(** Two points between 0.01 and 10, and a repeat at the start of a
    list. *)
Lemma shortcut_expansion_cases_witness :
  log_point (1 / 100) (Q2R 10) 2 3 = Q2R 10
  /\ (forall i : nat,
        log_point (1 / 100) (Q2R 10) 2 (S i)
        = log_point (1 / 100) (Q2R 10) 2 i
          * Rpower (Q2R 10 / (1 / 100)) (1 / INR 3))
  /\ expand [SHORTCUT REPEAT (count 2)] [] = Raise MalformedInputError.
Proof.
  destruct shortcut_expansion_cases
    as (_ & _ & _ & _ & Hlog & _ & Hprevious & _).
  assert (Ha : 0 < 1 / 100) by lra.
  assert (Hb : 0 < Q2R 10) by (unfold Q2R; cbn [Qnum Qden]; lra).
  destruct (Hlog 2%nat (1 / 100) 10%Q [] [] Ha Hb) as (_ & _ & Hend & Hstep).
  split; [exact Hend |]. split; [exact Hstep |].
  apply Hprevious; [discriminate | now left].
Defined.

End ShortcutFacts.

(** ** The half-space algebra *)

Module HalfSpaceFacts.
Import syntax_node half_space.
Local Open Scope string_scope.

(** *** Composition *)

Lemma and_non_half_space (self : geometry) (other : pyval) :
  isinstance other ClsHalfSpace = false ->
  __and__ self other = Raise TypeError.
Proof.
  destruct other as [o | [u | l op r n c] | cls]; cbn;
    solve [reflexivity | discriminate].
Qed.

Lemma or_non_half_space (self : geometry) (other : pyval) :
  isinstance other ClsHalfSpace = false ->
  __or__ self other = Raise TypeError.
Proof.
  destruct other as [o | [u | l op r n c] | cls]; cbn;
    solve [reflexivity | discriminate].
Qed.

(** C7: on a [HalfSpace] receiver each of [&], [|], [&=] and [|=]
    raises a [TypeError] when the right-hand operand is not a
    [HalfSpace], and the in-place forms leave the receiver as it
    was. *)
Theorem composition_rejects_non_half_space
    (globals : string -> option pyval)
    (l : geometry) (op : Operator) (r : option geometry)
    (n : option GeometryTree) (c : option Cell) (other : pyval) :
  isinstance other ClsHalfSpace = false ->
  let self := Half l op r n c in
  and_ self other = Raise TypeError
  /\ or_ self other = Raise TypeError
  /\ __iand__ globals self other = (self, Raise TypeError)
  /\ __ior__ globals self other = (self, Raise TypeError).
Proof.
  intros Hother self. repeat split.
  - apply and_non_half_space, Hother.
  - apply or_non_half_space, Hother.
  - unfold __iand__, self. cbn [iand]. now rewrite Hother.
  - unfold __ior__, self. cbn [ior]. now rewrite Hother.
Qed.

Lemma composition_rejects_non_half_space_witness :
  and_ one_and_not_two (PObj (OInt 3)) = Raise TypeError
  /\ or_ one_and_not_two (PObj (OInt 3)) = Raise TypeError
  /\ __iand__ half_space_globals one_and_not_two (PObj (OInt 3))
     = (one_and_not_two, Raise TypeError)
  /\ __ior__ half_space_globals one_and_not_two (PObj (OInt 3))
     = (one_and_not_two, Raise TypeError).
Proof.
  apply (composition_rejects_non_half_space half_space_globals).
  reflexivity.
Defined.

(** A leaf is not a [HalfSpace] either. *)
Example and_rejects_leaf :
  and_ one_and_not_two (PGeom (Unit (leaf 3 true))) = Raise TypeError.
Proof. reflexivity. Qed.

(** With a [HalfSpace] on the right, [&] and [|] build a fresh node
    over both operands. *)
Lemma and_half_space (self l : geometry) op r n c :
  __and__ self (PGeom (Half l op r n c))
  = Ok (Half self INTERSECTION (Some (Half l op r n c)) None None).
Proof. reflexivity. Qed.

Lemma or_half_space (self l : geometry) op r n c :
  __or__ self (PGeom (Half l op r n c))
  = Ok (Half self UNION (Some (Half l op r n c)) None None).
Proof. reflexivity. Qed.

(** *** Complement *)

(** C6: [~h] is meant to return [HalfSpace(h, COMPLEMENT)], but the
    guard of [__invert__] reads [other], a name the method does not
    bind and the module does not define: every call ends in a
    [NameError]. *)
Theorem invert_raises_name_error (h : geometry) :
  __invert__ half_space_globals h = Raise (NameError "other").
Proof. reflexivity. Qed.

Lemma invert_without_other (globals : string -> option pyval)
    (h : geometry) :
  globals "other" = None ->
  __invert__ globals h = Raise (NameError "other").
Proof. intros Hg. unfold __invert__, lookup_global. now rewrite Hg. Qed.

(** What the last line of [__invert__] builds once the guard is
    passed. *)
Lemma invert_past_guard (globals : string -> option pyval)
    (h : geometry) (v : pyval) :
  globals "other" = Some v ->
  isinstance v ClsHalfSpace = true ->
  __invert__ globals h = Ok (Half h COMPLEMENT None None None).
Proof.
  intros Hg Hv. unfold __invert__, lookup_global.
  rewrite Hg; cbn [bind]. now rewrite Hv.
Qed.

(** *** The divider property *)

(** C10: the setter is meant to accept a [Cell] or a [Surface] and to
    reject anything else with a [TypeError]; the class tuple of its
    guard reads the bare name [Surface], which no import of the module
    binds, so every assignment ends in a [NameError] and stores
    nothing. *)
Theorem divider_setter_raises_name_error (self : UnitHalfSpace) (div : obj) :
  divider_setter half_space_globals self div
  = (self, Raise (NameError "Surface")).
Proof. reflexivity. Qed.

Lemma divider_setter_without_surface (globals : string -> option pyval)
    (self : UnitHalfSpace) (div : obj) :
  globals "Surface" = None ->
  divider_setter globals self div = (self, Raise (NameError "Surface")).
Proof. intros Hg. unfold divider_setter, lookup_global. now rewrite Hg. Qed.

(** In a namespace that binds [Surface] to the surface class the
    setter stores cells and surfaces and rejects the rest, the stored
    divider untouched. *)
Lemma divider_setter_with_surface (globals : string -> option pyval)
    (self : UnitHalfSpace) (div : obj) :
  globals "Surface" = Some (PClass ClsSurface) ->
  divider_setter globals self div
  = if is_cell_or_surface div then (set_divider self div, Ok tt)
    else (self, Raise TypeError).
Proof.
  intros Hg. unfold divider_setter, lookup_global. rewrite Hg.
  destruct div; reflexivity.
Qed.

(** *** Pointer resolution *)

(** C5, as the code has it: an identifier missing from its namespace
    raises a broken-link error naming the owning cell, the role,
    ["Complement"] for a cell reference and ["Surface"] otherwise, and
    the identifier; an identifier that is present makes the resolved
    object the divider. *)
Theorem update_pointers_resolves_or_breaks (u : UnitHalfSpace)
    (cells : gmap Z Cell) (surfaces : gmap Z Surface) (cell : Cell) (n : Z) :
  _divider u = OInt n ->
  (missing u cells surfaces n ->
   unit_update_pointers u cells surfaces cell
   = (set_cell u cell,
      Raise (BrokenObjectLinkError "Cell" (cell_number cell) (role u) n)))
  /\ (forall o, found u cells surfaces n o ->
        unit_update_pointers u cells surfaces cell
        = (set_divider (set_cell u cell) o, Ok tt)).
Proof.
  intros Hdiv. unfold unit_update_pointers, missing, found, role, getitem.
  cbn [set_cell _divider _is_cell]. rewrite Hdiv.
  split.
  - destruct (_is_cell u); intros ->; reflexivity.
  - intros o. destruct (_is_cell u); intros (x & -> & ->); reflexivity.
Qed.

(** The leaf [5], outside sense, in cell 7: broken without surface 5,
    resolved with it. *)
Lemma update_pointers_resolves_or_breaks_witness :
  unit_update_pointers (leaf 5 true) ∅ ∅ cell_7
  = (set_cell (leaf 5 true) cell_7,
     Raise (BrokenObjectLinkError "Cell" 7 "Surface" 5))
  /\ unit_update_pointers (leaf 5 true) ∅ {[ 5%Z := surface_5 ]} cell_7
     = (set_divider (set_cell (leaf 5 true) cell_7) (OSurface surface_5),
        Ok tt).
Proof.
  split.
  - apply (proj1 (update_pointers_resolves_or_breaks
                    (leaf 5 true) ∅ ∅ cell_7 5 eq_refl)).
    reflexivity.
  - apply (proj2 (update_pointers_resolves_or_breaks
                    (leaf 5 true) ∅ {[ 5%Z := surface_5 ]} cell_7 5 eq_refl)).
    exists surface_5. split; reflexivity.
Defined.

(** A missing cell reference is reported under the role
    ["Complement"]: the error is not the one with the role ["Cell"],
    whatever else it would name. *)
Lemma broken_cell_link_role_is_not_cell :
  (complement_leaf 5 : UnitHalfSpace).(_is_cell) = true
  /\ (∅ : gmap Z Cell) !! 5%Z = None
  /\ unit_update_pointers (complement_leaf 5) ∅ ∅ cell_7
     = (set_cell (complement_leaf 5) cell_7,
        Raise (BrokenObjectLinkError "Cell" 7 "Complement" 5))
  /\ forall self' parent_type parent_number child_number,
       unit_update_pointers (complement_leaf 5) ∅ ∅ cell_7
       <> (self',
           Raise (BrokenObjectLinkError parent_type parent_number
                    "Cell" child_number)).
Proof.
  split; [reflexivity |]. split; [reflexivity |]. split; [reflexivity |].
  intros self' parent_type parent_number child_number.
  cbv. intros [=].
Qed.

(** The owning cell is recorded even when resolution fails, and a
    failure in the left operand leaves the right one unresolved. *)
Lemma update_pointers_stops_at_first_break :
  update_pointers one_and_not_two ∅ ∅ cell_7
  = (Half (Unit (set_cell (leaf 1 true) cell_7)) INTERSECTION
          (Some (Unit (leaf 2 false)))
          (Some {| operator_node := PaddingNode_init " " |}) (Some cell_7),
     Raise (BrokenObjectLinkError "Cell" 7 "Surface" 1)).
Proof. reflexivity. Qed.

(** *** Writing the operator back *)

(** The slot is left alone when it shows the operator, and only
    then is [__switch_operator] not called. *)
Lemma update_operator_when_shown (op : Operator) (tree : GeometryTree) :
  shows op (format (operator_node tree)) = true ->
  _update_operator op (Some tree) = (Some tree, Ok tt).
Proof.
  unfold shows, _update_operator. cbv zeta.
  destruct op; intros H; try rewrite H; reflexivity.
Qed.

Lemma update_operator_when_not_shown (op : Operator) (tree : GeometryTree) :
  shows op (format (operator_node tree)) = false ->
  _update_operator op (Some tree)
  = let (p, r) := __switch_operator (operator_node tree) (symbol op) in
    (Some {| operator_node := p |}, r).
Proof.
  unfold shows, _update_operator. cbv zeta.
  destruct op; try discriminate; intros ->; reflexivity.
Qed.

(** [midpoint] is bound for the colon alone: switching to any other
    symbol never returns. *)
Lemma switch_operator_returns_for_colon_only (p : PaddingNode)
    (new_symbol : string) :
  new_symbol <> ":" ->
  exists p' e, __switch_operator p new_symbol = (p', Raise e).
Proof.
  intros Hsym. unfold __switch_operator.
  destruct (replace_all (nodes p)) as [ns | e]; [| eauto].
  destruct (String.eqb new_symbol "#").
  - destruct (List.last (map Some ns) None); eauto.
  - destruct (String.eqb new_symbol ":") eqn:E.
    + apply String.eqb_eq in E. contradiction.
    + eauto.
Qed.

(** So a half-space whose operator was changed to an intersection or a
    complement cannot be written back. *)
Lemma update_operator_fails_unless_union (op : Operator)
    (tree : GeometryTree) :
  op <> UNION ->
  shows op (format (operator_node tree)) = false ->
  exists node' e, _update_operator op (Some tree) = (node', Raise e).
Proof.
  intros Hop Hshown. rewrite update_operator_when_not_shown by exact Hshown.
  destruct (switch_operator_returns_for_colon_only
              (operator_node tree) (symbol op)) as (p' & e & ->).
  - destruct op; cbn; congruence.
  - eauto.
Qed.

(** C4: [_update_values] is meant to swap the operator glyph and leave
    the rest of the text alone; for a change to [INTERSECTION] (and to
    [COMPLEMENT]) it raises instead, after blanking the old glyph,
    because [__switch_operator] binds [midpoint] in its colon branch
    only. *)
Theorem update_values_raises_unbound_local :
  _update_values union_made_intersection
  = (Half (Unit (leaf 1 true)) INTERSECTION (Some (Unit (leaf 2 true)))
          (Some {| operator_node := PaddingNode_init " " |}) None,
     Raise (UnboundLocalError "midpoint")).
Proof. reflexivity. Qed.

(** A half-space composed in the program has no tree, and
    [_generate_default_tree] builds none. *)
Example update_values_without_tree :
  _update_values
    (Half (Unit (leaf 1 true)) UNION (Some (Unit (leaf 2 true))) None None)
  = (Half (Unit (leaf 1 true)) UNION (Some (Unit (leaf 2 true))) None None,
     Raise (AttributeError "nodes")).
Proof. reflexivity. Qed.

(** A change to [UNION] on a slot of one text fragment puts the colon
    on the middle character and keeps the length. *)
Lemma switch_to_union_one_fragment (s : string) :
  let blank := PyStr.replace ":" " " (PyStr.replace "#" " " s) in
  let m := Nat.div (String.length s) 2 in
  __switch_operator (Padding [Fragment s false]) ":"
  = (Padding [Fragment (PyStr.take m blank ++ ":"
                        ++ PyStr.drop (m + 1) blank) false],
     Ok tt).
Proof.
  intros blank m. unfold __switch_operator.
  cbn [nodes replace_all replace_symbols is_comment text bind].
  fold blank. cbn [String.eqb Ascii.eqb Bool.eqb format nodes map text
                   PyStr.join fold_right].
  rewrite PyStrFacts.append_nil_r.
  assert (Hlen : String.length blank = String.length s).
  { unfold blank. now rewrite !PyStrFacts.length_replace. }
  rewrite Hlen. fold m. cbn [scan text].
  assert (Hm : (m <= String.length blank)%nat).
  { rewrite Hlen. unfold m. apply Nat.Div0.div_le_upper_bound. lia. }
  apply Nat.leb_le in Hm. cbn [Nat.add]. rewrite Hm.
  rewrite Nat.sub_0_r. reflexivity.
Qed.

(** On a slot of two fragments the colon is added to the first one
    rather than put in place of a blank: the text grows. *)
Example switch_to_union_two_fragments :
  __switch_operator (Padding [Fragment " " false; Fragment " " false]) ":"
  = (Padding [Fragment " :" false; Fragment " " false], Ok tt).
Proof. reflexivity. Qed.

(** The leaf write-back stores the side as the sign flag, while
    parsing read the side as its negation: a resolved surface leaf
    that nothing changed comes back with its sign flipped. *)
Lemma update_values_flips_sign (node : ValueNode) (negative : bool)
    (s : Surface) (u' : UnitHalfSpace) (node' : ValueNode) :
  is_negative node = Some negative ->
  unit_update_values
    (set_divider (unit_parse_input_node node false) (OSurface s))
  = (u', Ok tt) ->
  _node u' = Some node' ->
  is_negative node' = Some (negb negative).
Proof.
  intros Hneg. unfold unit_update_values, unit_parse_input_node, not_negative.
  cbn. rewrite Hneg. intros [= <-]. cbn. intros [= <-]. cbn.
  now destruct negative.
Qed.

(** *** In-place composition *)

(** Past its guard [__iand__] never returns: a leaf on the right has
    no [&], a leaf on the left no [~], and after the recursion the
    method calls [_add_new_children_to_parent], which the class does
    not define. *)
Lemma iand_never_returns (globals : string -> option pyval)
    (self : geometry) (other : pyval) :
  exists self' e, iand globals self other = (self', Raise e).
Proof.
  destruct self as [u | left_ op right_ node cell]; cbn [iand].
  - eauto.
  - destruct (negb (isinstance other ClsHalfSpace)); [eauto |].
    destruct (is_unit left_) eqn:Hl; cbn [andb].
    + destruct right_ as [r |].
      * destruct (is_unit r) eqn:Hr.
        -- destruct r; [| discriminate]. cbn. eauto.
        -- destruct (iand globals r other) as [r' [v | e]]; eauto.
      * destruct left_; [| discriminate]. cbn. eauto.
    + destruct right_ as [r |]; [| eauto].
      destruct (iand globals r other) as [r' [v | e]]; eauto.
Qed.

End HalfSpaceFacts.

(** ** The text wrapper *)

Module TextwrapFacts.
Import textwrap.
Local Open Scope Z_scope.

Lemma len_nonneg (s : string) : 0 <= len s.
Proof. unfold len. lia. Qed.

Lemma len_append (s1 s2 : string) :
  len (String.append s1 s2) = len s1 + len s2.
Proof. unfold len. rewrite PyStrFacts.length_append. lia. Qed.

Lemma len_nonempty (c : string) : c <> EmptyString -> 0 < len c.
Proof. destruct c; [congruence |]. unfold len. cbn. lia. Qed.

Lemma len_join_app (l1 l2 : list string) :
  len (PyStr.join (l1 ++ l2)) = len (PyStr.join l1) + len (PyStr.join l2).
Proof. now rewrite PyStrFacts.join_app, len_append. Qed.

Lemma len_join_nil : len (PyStr.join []) = 0.
Proof. reflexivity. Qed.

Lemma join_cons (c : string) (l : list string) :
  PyStr.join (c :: l) = String.append c (PyStr.join l).
Proof. reflexivity. Qed.

Lemma join_singleton (c : string) : PyStr.join [c] = c.
Proof. cbn. apply PyStrFacts.append_nil_r. Qed.

Lemma measure_app (l1 l2 : list string) :
  measure (l1 ++ l2) = (measure l1 + measure l2)%nat.
Proof.
  induction l1 as [| c l1 IH]; [reflexivity |].
  cbn [app measure fold_right]. fold (measure (l1 ++ l2)) (measure l1).
  rewrite IH. lia.
Qed.

Lemma measure_cons (c : string) (l : list string) :
  measure (c :: l) = (String.length c + 1 + measure l)%nat.
Proof. reflexivity. Qed.

(** The inner loop takes a run of leading chunks, stays within the
    width once it has taken any, and stops at a chunk that does not
    fit. *)
Lemma fill_spec (chunks cur_line : list string) (cur_len width : Z)
    (cur_line' : list string) (cur_len' : Z) (rest : list string) :
  fill chunks cur_line cur_len width = (cur_line', cur_len', rest) ->
  exists taken,
    cur_line' = cur_line ++ taken
    /\ chunks = taken ++ rest
    /\ cur_len' = cur_len + len (PyStr.join taken)
    /\ (taken = [] \/ cur_len' <= width)
    /\ match rest with
       | [] => True
       | c :: _ => width < cur_len' + len c
       end.
Proof.
  revert cur_line cur_len.
  induction chunks as [| c chunks IH]; intros cur_line cur_len; cbn [fill].
  - intros [= <- <- <-]. exists []. rewrite app_nil_r, len_join_nil.
    repeat split; auto; lia.
  - destruct (cur_len + len c <=? width) eqn:Hfit.
    + intros Hfill. apply IH in Hfill as (taken & -> & -> & -> & Hw & Hrest).
      exists (c :: taken). rewrite <- app_assoc. cbn [app].
      rewrite join_cons, len_append.
      repeat split; auto.
      * lia.
      * right. destruct Hw as [-> | Hw]; [| exact Hw].
        rewrite len_join_nil. apply Z.leb_le in Hfit. lia.
    + intros [= <- <- <-]. exists []. rewrite app_nil_r, len_join_nil.
      apply Z.leb_gt in Hfit. repeat split; auto; lia.
Qed.

Lemma rfind_lt (c : ascii) (s : string) (stop i : nat) :
  rfind c s stop = Some i -> (i < stop)%nat.
Proof.
  revert s i. induction stop as [| stop IH]; intros [| d rest] i; simpl;
    try discriminate.
  destruct (rfind c rest stop) as [j |] eqn:Hj.
  - intros [= <-]. apply IH in Hj. lia.
  - destruct (Ascii.eqb d c); [intros [= <-]; lia | discriminate].
Qed.

(** The cut is at least one character and at most the room left. *)
Lemma break_end_bounds (chunk : string) (space_left : Z) :
  1 <= space_left -> 1 <= break_end chunk space_left <= space_left.
Proof.
  intros Hs. unfold break_end.
  destruct (space_left <? len chunk); [| lia].
  destruct (rfind "-" chunk (Z.to_nat space_left)) as [h |] eqn:Hh; [| lia].
  apply rfind_lt in Hh.
  destruct ((0 <? Z.of_nat h) && _); lia.
Qed.

Lemma break_end_zero (chunk : string) : break_end chunk 0 = 0.
Proof.
  unfold break_end. destruct (0 <? len chunk); [| reflexivity].
  cbn. destruct chunk; reflexivity.
Qed.

Lemma break_end_range (chunk : string) (space_left : Z) :
  0 <= space_left -> 0 <= break_end chunk space_left <= space_left.
Proof.
  intros Hs. destruct (Z.eq_dec space_left 0) as [-> | Hne].
  - rewrite break_end_zero. lia.
  - pose proof (break_end_bounds chunk space_left ltac:(lia)). lia.
Qed.

Lemma handle_long_word_spec (c : string) (cur_len width : Z)
    (piece left_over : string) :
  1 <= width -> 0 <= cur_len <= width -> width < len c ->
  _handle_long_word c cur_len width = (piece, left_over) ->
  c = String.append piece left_over
  /\ cur_len + len piece <= width
  /\ left_over <> EmptyString
  /\ (cur_len = 0 -> (String.length left_over < String.length c)%nat).
Proof.
  intros Hw Hcur Hlong. unfold _handle_long_word.
  destruct (width <? 1) eqn:Hw1; [apply Z.ltb_lt in Hw1; lia |].
  pose proof (break_end_range c (width - cur_len) ltac:(lia)) as Hrange.
  set (e := Z.to_nat (break_end c (width - cur_len))) in *.
  intros [= <- <-].
  assert (He : Z.of_nat e <= width - cur_len) by (unfold e; lia).
  assert (Hlen : (e < String.length c)%nat) by (unfold len in Hlong; lia).
  repeat split.
  - symmetry. apply PyStrFacts.take_drop.
  - unfold len. rewrite PyStrFacts.length_take. lia.
  - intros Hnil.
    pose proof (PyStrFacts.length_drop e c) as Hd. rewrite Hnil in Hd.
    cbn in Hd. lia.
  - intros ->. rewrite PyStrFacts.length_drop.
    pose proof (break_end_bounds c (width - 0) ltac:(lia)). unfold e. lia.
Qed.

Lemma drop_trailing_blank_spec (cur_line : list string) :
  exists blank,
    PyStr.join cur_line
    = String.append (PyStr.join (drop_trailing_blank cur_line)) blank.
Proof.
  unfold drop_trailing_blank.
  destruct cur_line as [| x l _] using rev_ind.
  - exists EmptyString. reflexivity.
  - rewrite List.map_app. cbn [map]. rewrite List.last_last.
    destruct (PyStr.all_whitespace x).
    + rewrite removelast_last. exists x.
      now rewrite PyStrFacts.join_app, join_singleton.
    + exists EmptyString. now rewrite PyStrFacts.append_nil_r.
Qed.

Lemma Forall_nonempty_measure (chunks : list string) :
  chunks <> [] -> (0 < measure chunks)%nat.
Proof. destruct chunks; [congruence |]. rewrite measure_cons. lia. Qed.

(** One line: its chunks are the head of what was left, up to a blank
    at the end; it fits; and something was consumed. *)
Lemma build_line_spec (chunks : list string) (width : Z)
    (cur_line chunks' : list string) :
  1 <= width ->
  Forall nonempty chunks ->
  build_line chunks width = (cur_line, chunks') ->
  (exists blank,
     PyStr.join chunks
     = String.append (PyStr.join cur_line)
         (String.append blank (PyStr.join chunks')))
  /\ len (PyStr.join cur_line) <= width
  /\ Forall nonempty chunks'
  /\ (chunks <> [] -> (measure chunks' < measure chunks)%nat).
Proof.
  intros Hw Hne. unfold build_line.
  destruct (fill chunks [] 0 width) as [[line0 cur_len] rest] eqn:Hfill.
  apply fill_spec in Hfill as (taken & -> & -> & -> & Hfit & Hstop).
  cbn [app] in *. rewrite Z.add_0_l in *.
  apply Forall_app in Hne as [Hne_taken Hne_rest].
  assert (Hlen0 : 0 <= len (PyStr.join taken) <= width).
  { split; [apply len_nonneg |].
    destruct Hfit as [-> | Hfit]; [rewrite len_join_nil; lia | exact Hfit]. }
  destruct (break_long rest taken (len (PyStr.join taken)) width)
    as [line1 rest1] eqn:Hbreak.
  intros [= <- <-].
  assert (Hmid :
    PyStr.join (taken ++ rest)
      = String.append (PyStr.join line1) (PyStr.join rest1)
    /\ len (PyStr.join line1) <= width
    /\ Forall nonempty rest1
    /\ (taken ++ rest <> [] -> (measure rest1 < measure (taken ++ rest))%nat)).
  { unfold break_long in Hbreak.
    destruct rest as [| c rest'].
    - injection Hbreak as <- <-. rewrite app_nil_r.
      repeat split; auto.
      + now rewrite PyStrFacts.append_nil_r.
      + lia.
      + intros Hnil. now apply Forall_nonempty_measure.
    - destruct (width <? len c) eqn:Hlong.
      + apply Z.ltb_lt in Hlong.
        destruct (_handle_long_word c (len (PyStr.join taken)) width)
          as [piece left_over] eqn:Hcut.
        injection Hbreak as <- <-.
        apply handle_long_word_spec in Hcut as (Hc & Hpiece & Hleft & Hshort);
          [| lia | lia | lia].
        repeat split.
        * rewrite !PyStrFacts.join_app, join_singleton, !join_cons.
          rewrite Hc at 1. now rewrite !PyStrFacts.append_assoc.
        * rewrite len_join_app, join_singleton. lia.
        * inversion Hne_rest; subst. constructor; assumption.
        * intros _. rewrite measure_app, !measure_cons.
          destruct taken as [| t taken'].
          -- specialize (Hshort eq_refl). cbn [measure fold_right]. lia.
          -- rewrite !measure_cons.
             assert (String.length left_over <= String.length c)%nat.
             { rewrite Hc, PyStrFacts.length_append. lia. }
             lia.
      + apply Z.ltb_ge in Hlong. injection Hbreak as <- <-.
        repeat split; auto.
        * now rewrite PyStrFacts.join_app.
        * lia.
        * intros _. rewrite measure_app.
          destruct taken as [| t taken'].
          -- rewrite len_join_nil in Hstop. lia.
          -- rewrite !measure_cons. lia. }
  destruct Hmid as (Hjoin & Hlen & Hne1 & Hdec).
  destruct (drop_trailing_blank_spec line1) as [blank Hblank].
  repeat split; auto.
  - exists blank. rewrite Hjoin, Hblank. now rewrite PyStrFacts.append_assoc.
  - rewrite Hblank, len_append in Hlen. pose proof (len_nonneg blank). lia.
Qed.

Lemma skip_blank_spec (chunks lines : list string) :
  Forall nonempty chunks ->
  (exists blank,
     PyStr.join chunks
     = String.append blank (PyStr.join (skip_blank chunks lines)))
  /\ Forall nonempty (skip_blank chunks lines)
  /\ (measure (skip_blank chunks lines) <= measure chunks)%nat
  /\ (skip_blank chunks lines = [] -> chunks <> [] ->
      (measure (skip_blank chunks lines) < measure chunks)%nat).
Proof.
  intros Hne. unfold skip_blank.
  destruct chunks as [| c rest].
  - repeat split; auto. + now exists EmptyString. + congruence.
  - destruct lines as [| l lines'].
    + repeat split; auto. * now exists EmptyString. * discriminate.
    + destruct (PyStr.all_whitespace c).
      * inversion Hne; subst. repeat split; auto.
        -- now exists c.
        -- rewrite measure_cons. lia.
        -- intros ->. intros _. rewrite measure_cons. cbn. lia.
      * repeat split; auto. -- now exists EmptyString. -- discriminate.
Qed.

Section Wrapper.

Variable width : Z.
Variable initial_indent subsequent_indent : string.
Hypothesis initial_fits : len initial_indent < width.
Hypothesis subsequent_fits : len subsequent_indent < width.

Local Abbreviation wrapped := (wrapped width initial_indent subsequent_indent).
Local Abbreviation placed := (placed width).
Local Abbreviation wrap_step := (wrap_step width initial_indent subsequent_indent).
Local Abbreviation wrap_loop := (wrap_loop width initial_indent subsequent_indent).

Lemma wrapped_snoc (text : string) (lines : list string) (body : string) :
  wrapped text lines ->
  placed text
    match lines with [] => initial_indent | _ => subsequent_indent end
    (String.append
       match lines with [] => initial_indent | _ => subsequent_indent end
       body) ->
  wrapped text
    (lines ++ [String.append
                 match lines with [] => initial_indent | _ => subsequent_indent end
                 body]).
Proof.
  destruct lines as [| first rest]; cbn [app textwrap.wrapped].
  - intros _ H. split; [exact H | constructor].
  - intros [Hfirst Hrest] H. split; [exact Hfirst |].
    apply Forall_app. split; [exact Hrest |]. constructor; [exact H | constructor].
Qed.

(** One pass of the outer loop keeps the lines well placed and leaves
    strictly less to place. *)
Lemma wrap_step_spec (text : string) (chunks lines chunks' lines' : list string) :
  chunks <> [] ->
  Forall nonempty chunks ->
  remains text chunks ->
  wrapped text lines ->
  wrap_step chunks lines = (chunks', lines') ->
  Forall nonempty chunks'
  /\ remains text chunks'
  /\ wrapped text lines'
  /\ (measure chunks' < measure chunks)%nat.
Proof.
  intros Hnil Hne [done Htext] Hlines. unfold textwrap.wrap_step.
  set (indent := match lines with [] => initial_indent | _ => subsequent_indent end).
  assert (Hindent : len indent < width) by (unfold indent; destruct lines; assumption).
  destruct (skip_blank_spec chunks lines Hne)
    as ([blank0 Hskip] & Hne1 & Hle & Hlt).
  destruct (build_line (skip_blank chunks lines) (width - len indent))
    as [cur_line rest] eqn:Hbuild.
  pose proof Hbuild as Hbuild0.
  apply build_line_spec in Hbuild as ([blank Hjoin] & Hfits & Hne' & Hdec);
    [| lia | exact Hne1].
  assert (Hrem : remains text rest).
  { exists (String.append done
              (String.append blank0
                 (String.append (PyStr.join cur_line) blank))).
    rewrite Htext, Hskip, Hjoin. now rewrite !PyStrFacts.append_assoc. }
  assert (Hmeasure : (measure rest < measure chunks)%nat).
  { destruct (skip_blank chunks lines) as [| c l] eqn:Hs.
    - specialize (Hlt eq_refl Hnil).
      injection Hbuild0 as _ <-. exact Hlt.
    - specialize (Hdec ltac:(discriminate)). lia. }
  destruct cur_line as [| c0 line0].
  - intros [= <- <-]. auto.
  - intros [= <- <-]. repeat split; auto.
    apply wrapped_snoc; [exact Hlines |]. fold indent.
    exists (PyStr.join (c0 :: line0)). repeat split.
    + rewrite len_append. rewrite join_cons in Hfits. lia.
    + exists (String.append done blank0), (String.append blank (PyStr.join rest)).
      rewrite Htext, Hskip, Hjoin. now rewrite !PyStrFacts.append_assoc.
Qed.

(** With fuel for every chunk and every character the loop ends, and
    its lines are well placed. *)
Lemma wrap_loop_spec (text : string) (fuel : nat) (chunks lines : list string) :
  (measure chunks <= fuel)%nat ->
  Forall nonempty chunks ->
  remains text chunks ->
  wrapped text lines ->
  exists lines',
    wrap_loop fuel chunks lines = Ok lines' /\ wrapped text lines'.
Proof.
  revert chunks lines.
  induction fuel as [| fuel IH]; intros chunks lines Hfuel Hne Hrem Hlines.
  - destruct chunks as [| c rest].
    + exists lines. split; [reflexivity | exact Hlines].
    + rewrite measure_cons in Hfuel. lia.
  - destruct chunks as [| c rest] eqn:Hchunks.
    + exists lines. split; [reflexivity | exact Hlines].
    + cbn [textwrap.wrap_loop]. rewrite <- Hchunks in *.
      destruct (wrap_step chunks lines) as [chunks' lines'] eqn:Hstep.
      apply (wrap_step_spec text) in Hstep as (Hne' & Hrem' & Hlines' & Hdec);
        auto; [| subst; discriminate].
      apply IH; auto. lia.
Qed.

Variable wordsep_split : string -> list string.

Lemma split_chunks_nonempty (text : string) :
  Forall nonempty (_split_chunks wordsep_split text).
Proof.
  unfold _split_chunks. apply List.Forall_forall. intros c Hc.
  apply filter_In in Hc as [_ Hc].
  intros ->. discriminate.
Qed.

(** The wrapper returns, and its lines are well placed: each is its
    indent followed by a piece of the text, within the width. *)
Theorem wrap_wrapped (text : string) :
  exists lines,
    wrap width initial_indent subsequent_indent wordsep_split text = Ok lines
    /\ wrapped (PyStr.join (_split_chunks wordsep_split text)) lines.
Proof.
  unfold wrap, _wrap_chunks.
  pose proof (len_nonneg initial_indent).
  destruct (width <=? 0) eqn:Hw; [apply Z.leb_le in Hw; lia |].
  apply wrap_loop_spec.
  - lia.
  - apply split_chunks_nonempty.
  - now exists EmptyString.
  - exact I.
Qed.

End Wrapper.

End TextwrapFacts.

(** ** Cards *)

Module CardFacts.
Import constants mcnp_card.

Section Formatting.

Variable comment_format : version -> Comment -> result (list string).
Variable BLANK_SPACE_CONTINUE : nat.
Variable wordsep_split : string -> list string.

Local Abbreviation weave := (weave comment_format).
Local Abbreviation format_for_mcnp_input :=
  (format_for_mcnp_input comment_format BLANK_SPACE_CONTINUE wordsep_split).

(** Without cutting comments the second loop copies the lines. *)
Lemma weave_no_comments (v : version) (i : Z) (ls : list string) :
  weave ∅ v i ls = Ok ls.
Proof.
  revert i. induction ls as [| line ls IH]; intros i; cbn [mcnp_card.weave].
  - reflexivity.
  - rewrite lookup_empty. cbn [bind]. rewrite IH. reflexivity.
Qed.

(** One pass of the second loop, by cases. *)
Lemma weave_cons (d : gmap Z Comment) (v : version) (i : Z)
    (line : string) (ls out : list string) :
  weave d v i (line :: ls) = Ok out ->
  exists block tail,
    (match d !! i with
     | Some c => comment_format v c
     | None => Ok []
     end) = Ok block
    /\ weave d v (i + 1)%Z ls = Ok tail
    /\ out = block ++ line :: tail.
Proof.
  cbn [mcnp_card.weave].
  destruct (match d !! i with Some c => _ | None => _ end) as [block | e];
    cbn [bind]; [| discriminate].
  destruct (mcnp_card.weave comment_format d v (i + 1)%Z ls) as [tail | e];
    cbn [bind]; [| discriminate].
  intros [= <-]. eauto.
Qed.

(** When it returns it keeps every line, in order. *)
Lemma weave_sublist (d : gmap Z Comment) (v : version) (i : Z)
    (ls out : list string) :
  weave d v i ls = Ok out -> ls `sublist_of` out.
Proof.
  revert i out. induction ls as [| line ls IH]; intros i out.
  - intros [= <-]. constructor.
  - intros H. apply weave_cons in H as (block & tail & _ & Htail & ->).
    apply sublist_inserts_l. apply sublist_skip. exact (IH _ _ Htail).
Qed.

(** What it adds is rendered from a comment of the dictionary. *)
Lemma weave_elem_of (d : gmap Z Comment) (v : version) (i : Z)
    (ls out : list string) (line : string) :
  weave d v i ls = Ok out ->
  line ∈ out ->
  line ∈ ls
  \/ exists j c block,
       d !! j = Some c /\ comment_format v c = Ok block /\ line ∈ block.
Proof.
  revert i out. induction ls as [| l ls IH]; intros i out.
  - intros [= <-] H. now left.
  - intros H. apply weave_cons in H as (block & tail & Hblock & Htail & ->).
    rewrite elem_of_app, elem_of_cons.
    intros [Hc | [-> | Hrest]].
    + destruct (d !! i) as [c |] eqn:Hi.
      * right. eauto 6.
      * injection Hblock as <-. apply elem_of_nil in Hc. contradiction.
    + left. apply elem_of_cons. now left.
    + destruct (IH _ _ Htail Hrest) as [Hin | Hcomment].
      * left. apply elem_of_cons. now right.
      * now right.
Qed.

(** When it raises, the error is that of a comment of the
    dictionary. *)
Lemma weave_raise (d : gmap Z Comment) (v : version) (i : Z)
    (ls : list string) (e : exception) :
  weave d v i ls = Raise e ->
  exists j c, d !! j = Some c /\ comment_format v c = Raise e.
Proof.
  revert i. induction ls as [| l ls IH]; intros i; cbn [mcnp_card.weave];
    [discriminate |].
  destruct (d !! i) as [c |] eqn:Hi.
  - destruct (comment_format v c) as [block | e'] eqn:Hc; cbn [bind].
    + destruct (mcnp_card.weave comment_format d v (i + 1)%Z ls)
        as [tail | e''] eqn:Htail; cbn [bind]; [discriminate |].
      intros [= <-]. exact (IH _ Htail).
    + intros [= <-]. eauto.
  - cbn [bind].
    destruct (mcnp_card.weave comment_format d v (i + 1)%Z ls)
      as [tail | e''] eqn:Htail; cbn [bind]; [discriminate |].
    intros [= <-]. exact (IH _ Htail).
Qed.

(** The dictionary holds cutting comments of the card, each under the
    line it cuts. *)
Lemma cutting_comments_lookup (cs : list Comment) (j : Z) (c : Comment) :
  cutting_comments cs !! j = Some c ->
  c ∈ cs /\ is_cutting_comment c = true /\ card_line c = j.
Proof.
  unfold cutting_comments.
  assert (Hgen : forall (d : gmap Z Comment),
    fold_left
      (fun d comment =>
         if is_cutting_comment comment
         then <[card_line comment := comment]> d else d) cs d !! j = Some c ->
    (c ∈ cs /\ is_cutting_comment c = true /\ card_line c = j)
    \/ d !! j = Some c).
  { induction cs as [| x cs IH]; intros d; cbn [fold_left].
    - now right.
    - intros H. apply IH in H as [(Hin & Hcut & Hline) | Hd].
      + left. split; [now apply elem_of_cons; right | now split].
      + destruct (is_cutting_comment x) eqn:Hx.
        * apply lookup_insert_Some in Hd as [[<- <-] | [_ Hd]].
          -- left. split; [now apply elem_of_cons; left | now split].
          -- now right.
        * now right. }
  intros H. apply Hgen in H as [H | H]; [exact H |].
  rewrite lookup_empty in H. discriminate.
Qed.

Lemma cutting_comments_none (cs : list Comment) :
  (forall c, c ∈ cs -> is_cutting_comment c = false) ->
  cutting_comments cs = ∅.
Proof.
  intros Hnone. apply map_eq. intros j. rewrite lookup_empty.
  destruct (cutting_comments cs !! j) as [c |] eqn:Hj; [| reflexivity].
  apply cutting_comments_lookup in Hj as (Hin & Hcut & _).
  rewrite (Hnone c Hin) in Hcut. discriminate.
Qed.

(** For a card that is not mutated the call of the parent's method
    renders the first comment a first time and nothing else. *)
Lemma format_unmutated (self : Card) (v : version) :
  mutated self = false ->
  format_for_mcnp_input self v
  = mcnp_card._format_for_mcnp_unmutated comment_format self v.
Proof.
  intros Hmut.
  unfold mcnp_card.format_for_mcnp_input, base_format_for_mcnp_input,
    _format_for_mcnp_unmutated.
  rewrite Hmut. cbn [negb].
  destruct (comments self) as [| first rest]; [reflexivity |].
  destruct (comment_format v first); reflexivity.
Qed.

(** What the card half of the round trip comes to. *)
Lemma unmutated_card_output (self : Card) (v : version) :
  mutated self = false ->
  match format_for_mcnp_input self v with
  | Ok out =>
      input_lines self `sublist_of` out
      /\ (forall line,
            line ∈ out ->
            line ∈ input_lines self
            \/ exists c block,
                 c ∈ comments self /\ comment_format v c = Ok block
                 /\ line ∈ block)
      /\ ((forall c, c ∈ comments self -> is_cutting_comment c = false) ->
          match comments self with
          | [] => out = input_lines self
          | first :: _ =>
              exists head,
                comment_format v first = Ok head
                /\ out = head ++ input_lines self
          end)
  | Raise e => exists c, c ∈ comments self /\ comment_format v c = Raise e
  end.
Proof.
  intros Hmut. rewrite (format_unmutated self v Hmut).
  unfold _format_for_mcnp_unmutated.
  destruct (comments self) as [| first rest] eqn:Hcs.
  - rewrite weave_no_comments.
    split; [reflexivity |]. split; [intros line Hin; now left |].
    reflexivity.
  - destruct (comment_format v first) as [head | e] eqn:Hfirst; cbn [bind].
    2:{ exists first. split; [apply elem_of_cons; now left | exact Hfirst]. }
    destruct (mcnp_card.weave comment_format (cutting_comments (first :: rest))
                v 0%Z (input_lines self)) as [body | e] eqn:Hbody;
      cbn [bind].
    + split; [| split].
      * apply sublist_inserts_l. exact (weave_sublist _ _ _ _ _ Hbody).
      * intros line Hin. apply elem_of_app in Hin as [Hhead | Hweave].
        -- right. exists first, head.
           split; [apply elem_of_cons; now left | now split].
        -- destruct (weave_elem_of _ _ _ _ _ _ Hbody Hweave)
             as [Hin | (j & c & block & Hj & Hc & Hline)].
           ++ now left.
           ++ right. exists c, block. split; [| now split].
              now apply cutting_comments_lookup in Hj as (Hin & _).
      * intros Hnone. exists head. split; [reflexivity |].
        rewrite (cutting_comments_none _ Hnone) in Hbody.
        rewrite weave_no_comments in Hbody. now injection Hbody as <-.
    + apply weave_raise in Hbody as (j & c & Hj & Hc).
      exists c. split; [| exact Hc].
      now apply cutting_comments_lookup in Hj as (Hin & _).
Qed.





Lemma twice_commented_card_output (v : version) (out : list string) :
  format_for_mcnp_input twice_commented_card v = Ok out ->
  exists head,
    comment_format v preceding_comment = Ok head
    /\ out = head ++ material_lines.
Proof.
  intros Hout.
  pose proof (unmutated_card_output twice_commented_card v eq_refl) as H.
  rewrite Hout in H. destruct H as (_ & _ & H).
  apply H. intros c Hc.
  apply elem_of_cons in Hc as [-> | Hc]; [reflexivity |].
  apply list_elem_of_singleton in Hc as ->. reflexivity.
Qed.

End Formatting.



Example format_commented_card :
  format_for_mcnp_input verbatim_comment 5 textwrap.simple_split
    commented_card (6, 2, 0)%Z
  = Ok ["C the fuel"; "m1 1001.80c 2.0"; "     8016.80c 1.0"]%string.
Proof. reflexivity. Qed.

(** A cutting comment goes before the line it cuts.  Only the first
    comment of the card is written before it. *)
Example format_cut_card :
  format_for_mcnp_input verbatim_comment 5 textwrap.simple_split
    cut_card (6, 2, 0)%Z
  = Ok ["C the fuel"; "m1 1001.80c 2.0"; "C the oxygen";
        "     8016.80c 1.0"]%string.
Proof. vm_compute. reflexivity. Qed.

(** A cutting comment that is the first comment of the card is
    written twice, before the card and before the line it cuts. *)
Example format_cut_only_card :
  format_for_mcnp_input verbatim_comment 5 textwrap.simple_split
    cut_only_card (6, 2, 0)%Z
  = Ok ["C the oxygen"; "m1 1001.80c 2.0"; "C the oxygen";
        "     8016.80c 1.0"]%string.
Proof. vm_compute. reflexivity. Qed.

(** Where the comment formatter raises, so does the card: here for a
    version without a line length. *)
Example format_commented_card_old_version :
  format_for_mcnp_input verbatim_comment 5 textwrap.simple_split
    commented_card (5, 1, 38)%Z
  = Raise UnsupportedFeature.
Proof. reflexivity. Qed.

(** *** Wrapping *)

Lemma get_max_line_length_values (v : version) (w : nat) :
  get_max_line_length v = Ok w -> w = 80%nat \/ w = 128%nat.
Proof.
  unfold get_max_line_length.
  destruct (version_geb v (6, 2, 0)%Z); [intros [= <-]; now right |].
  destruct (version_geb v (5, 1, 60)%Z); [intros [= <-]; now left |].
  discriminate.
Qed.

(** The table of [test_get_line_numbers]. *)
Example get_max_line_length_table :
  map get_max_line_length
    [(5, 1, 60); (6, 1, 0); (6, 2, 0); (6, 2, 3); (6, 3, 0); (7, 4, 0);
     (5, 1, 38)]%Z
  = [Ok 80; Ok 80; Ok 128; Ok 128; Ok 128; Ok 128;
     Raise UnsupportedFeature]%nat.
Proof. reflexivity. Qed.

Lemma placed_indented (width : Z) (text line : string) (n : nat) :
  textwrap.placed width text (PyStr.spaces n) line ->
  (textwrap.len line <= width)%Z /\ indented n text line.
Proof.
  intros (body & Hline & Hlen & Hinfix). split; [exact Hlen |].
  exists body. now split.
Qed.

(** C8, as the code has it: for a version that has a line length, and
    a continuation indent shorter than it, the wrapper returns lines
    that all fit the length; every line after the first is the indent
    followed by a piece of the text, and so is the first, its indent
    being empty exactly when [is_first_line] is set. *)
Theorem wrap_string_for_mcnp_fits (BLANK_SPACE_CONTINUE : nat)
    (wordsep_split : string -> list string) (text : string) (v : version)
    (is_first_line : bool) (line_length : nat) :
  get_max_line_length v = Ok line_length ->
  (BLANK_SPACE_CONTINUE < line_length)%nat ->
  let chunks := textwrap._split_chunks wordsep_split text in
  exists lines,
    wrap_string_for_mcnp BLANK_SPACE_CONTINUE wordsep_split text v
      is_first_line = Ok lines
    /\ Forall (fun line => (String.length line <= line_length)%nat) lines
    /\ match lines with
       | [] => True
       | first :: rest =>
           indented (if is_first_line then 0 else BLANK_SPACE_CONTINUE)
                    (PyStr.join chunks) first
           /\ Forall (indented BLANK_SPACE_CONTINUE (PyStr.join chunks)) rest
       end.
Proof.
  intros Hv Hindent chunks. unfold wrap_string_for_mcnp.
  rewrite Hv; cbn [bind].
  set (initial := if is_first_line then 0%nat else BLANK_SPACE_CONTINUE).
  destruct (TextwrapFacts.wrap_wrapped (Z.of_nat line_length)
              (PyStr.spaces initial) (PyStr.spaces BLANK_SPACE_CONTINUE))
    with (wordsep_split := wordsep_split) (text := text)
    as (lines & Hwrap & Hlines).
  - unfold textwrap.len. rewrite PyStrFacts.length_spaces.
    unfold initial. destruct is_first_line; lia.
  - unfold textwrap.len. rewrite PyStrFacts.length_spaces. lia.
  - exists lines. split; [exact Hwrap |].
    fold chunks in Hlines.
    destruct lines as [| first rest]; [split; [constructor | exact I] |].
    destruct Hlines as [Hfirst Hrest].
    apply placed_indented in Hfirst as [Hlen Hfirst].
    assert (Hrest' :
      Forall (fun line =>
                (String.length line <= line_length)%nat
                /\ indented BLANK_SPACE_CONTINUE (PyStr.join chunks) line)
             rest).
    { eapply List.Forall_impl; [| exact Hrest].
      intros line H. apply placed_indented in H as [Hl Hi].
      split; [unfold textwrap.len in Hl; lia | exact Hi]. }
    apply Forall_and in Hrest' as [Hlens Hinds].
    split.
    + constructor; [unfold textwrap.len in Hlen; lia | exact Hlens].
    + split; [exact Hfirst | exact Hinds].
Qed.

Lemma wrap_string_for_mcnp_fits_witness :
  exists lines,
    wrap_string_for_mcnp 5 textwrap.simple_split long_text (6, 2, 0)%Z true
    = Ok lines
    /\ Forall (fun line => (String.length line <= 128)%nat) lines
    /\ match lines with
       | [] => True
       | first :: rest =>
           indented 0
             (PyStr.join (textwrap._split_chunks textwrap.simple_split
                            long_text)) first
           /\ Forall
                (indented 5
                   (PyStr.join (textwrap._split_chunks textwrap.simple_split
                                  long_text))) rest
       end.
Proof.
  apply (wrap_string_for_mcnp_fits 5 textwrap.simple_split long_text
           (6, 2, 0)%Z true 128); [reflexivity | lia].
Defined.

(** The words go on two lines, the second one indented. *)
Example wrap_long_text :
  option_map (map String.length)
    (match wrap_string_for_mcnp 5 textwrap.simple_split long_text
             (6, 2, 0)%Z true with
     | Ok lines => Some lines
     | Raise _ => None
     end)
  = Some [124; 79]%nat.
Proof. vm_compute. reflexivity. Qed.

(** A version without a line length has no wrapping at all. *)
Lemma wrap_string_for_mcnp_unsupported_version :
  get_max_line_length (5, 1, 38)%Z = Raise UnsupportedFeature
  /\ wrap_string_for_mcnp 5 textwrap.simple_split "1 0 -1" (5, 1, 38)%Z true
     = Raise UnsupportedFeature.
Proof. split; reflexivity. Qed.

(** With [is_first_line] unset the first line is indented too. *)
Example wrap_continuation_line :
  wrap_string_for_mcnp 5 textwrap.simple_split "imp:n=1" (6, 2, 0)%Z false
  = Ok ["     imp:n=1"%string].
Proof. vm_compute. reflexivity. Qed.

End CardFacts.

(** ** Isotope identifiers *)

Module IsotopeFacts.
Import Isotope.
Local Open Scope Z_scope.

Lemma int_truediv_nonneg (a : Z) :
  0 <= a -> int_truediv a 1000 = a / 1000.
Proof.
  intros Ha. unfold int_truediv. apply Z.quot_div_nonneg; lia.
Qed.

Lemma int_truediv_neg (a : Z) : a < 0 -> int_truediv a 1000 <= 0.
Proof.
  intros Ha. unfold int_truediv.
  replace a with (- (- a)) by lia.
  rewrite Z.quot_opp_l by lia.
  assert (0 <= (- a) ÷ 1000) by (apply Z.quot_pos; lia). lia.
Qed.

(** Where the search for a metastable state stops, the mass number has
    lost a hundred per state tried, and the state is one of the four
    allowed. *)
Lemma find_meta_state_range (Zn true_A i A' : Z) :
  find_meta_state [1; 2; 3; 4] Zn true_A = Some (i, A') ->
  1 <= i <= 4 /\ A' = true_A - 100 * i
  /\ is_probably_an_isotope Zn A' = true.
Proof.
  cbn [find_meta_state].
  repeat
    match goal with
    | |- context [if is_probably_an_isotope ?z ?a then _ else _] =>
        destruct (is_probably_an_isotope z a) eqn:?
    end;
    intros [= <- <-] || intros [=]; repeat split; (lia || assumption).
Qed.

Lemma find_meta_state_none (Zn true_A : Z) :
  (forall m, 1 <= m <= 4 ->
     is_probably_an_isotope Zn (true_A - 100 * m) = false) ->
  find_meta_state [1; 2; 3; 4] Zn true_A = None.
Proof.
  intros H. cbn [find_meta_state].
  pose proof (H 1 ltac:(lia)) as H1. pose proof (H 2 ltac:(lia)) as H2.
  pose proof (H 3 ltac:(lia)) as H3. pose proof (H 4 ltac:(lia)) as H4.
  replace (true_A - 100 * 1) with (true_A - 100) in H1 by lia.
  replace (true_A - 100 * 2) with (true_A - 100 - 100) in H2 by lia.
  replace (true_A - 100 * 3) with (true_A - 100 - 100 - 100) in H3 by lia.
  replace (true_A - 100 * 4) with (true_A - 100 - 100 - 100 - 100) in H4
    by lia.
  now rewrite H1, H2, H3, H4.
Qed.

Section WithElement.

Variable element : Type.
Variable Element : Z -> result element.

(** Whatever the element table, a non-negative identifier is rebuilt
    from its parts. *)
Lemma get_full_zaid_nonneg (ZAID : Z) (iso : t element) :
  0 <= ZAID ->
  _parse_zaid Element ZAID = Ok iso -> get_full_zaid iso = Ok ZAID.
Proof.
  intros Hpos. unfold _parse_zaid.
  rewrite int_truediv_nonneg by exact Hpos.
  destruct (Element (ZAID / 1000)) as [el | e]; cbn [bind]; [| discriminate].
  pose proof (Z.div_mod ZAID 1000 ltac:(lia)) as Hdm.
  destruct (is_probably_an_isotope (ZAID / 1000) (ZAID mod 1000)); cbn [negb].
  - intros [= <-]. unfold get_full_zaid; cbn. f_equal. lia.
  - destruct (find_meta_state _ _ _) as [[i A'] |] eqn:Hfind; [| discriminate].
    apply find_meta_state_range in Hfind as (Hi & -> & _).
    intros [= <-]. unfold get_full_zaid; cbn. f_equal. lia.
Qed.

(** The element table knows positive atomic numbers only. *)
Hypothesis Element_positive : forall z e, Element z = Ok e -> 0 < z.

Lemma parse_zaid_accepts_nonneg (ZAID : Z) (iso : t element) :
  _parse_zaid Element ZAID = Ok iso -> 0 <= ZAID.
Proof.
  unfold _parse_zaid.
  destruct (Element (int_truediv ZAID 1000)) as [el | e] eqn:HE;
    cbn [bind]; [| discriminate].
  intros _. apply Element_positive in HE.
  destruct (Z_lt_le_dec ZAID 0) as [Hneg | Hge]; [| exact Hge].
  pose proof (int_truediv_neg ZAID Hneg). lia.
Qed.

(** C9: [get_full_zaid] undoes [_parse_zaid] on every identifier the
    parser accepts, metastable encodings included, the state found
    being one of 1 to 4; and an identifier whose mass number fits no
    state from 1 to 4 is rejected with a [ValueError]. *)
Theorem get_full_zaid_inverts_parse_zaid (ZAID : Z) :
  (forall iso,
     _parse_zaid Element ZAID = Ok iso ->
     get_full_zaid iso = Ok ZAID
     /\ match _meta_state iso with
        | Some m => _is_metastable iso = true /\ 1 <= m <= 4
        | None => _is_metastable iso = false
        end)
  /\ (forall el,
        Element (int_truediv ZAID 1000) = Ok el ->
        is_probably_an_isotope (int_truediv ZAID 1000) (ZAID mod 1000)
          = false ->
        (forall m, 1 <= m <= 4 ->
           is_probably_an_isotope (int_truediv ZAID 1000)
             (ZAID mod 1000 - 300 - 100 * m) = false) ->
        _parse_zaid Element ZAID = Raise ValueError).
Proof.
  split.
  - intros iso Hparse. split.
    + apply get_full_zaid_nonneg; [| exact Hparse].
      exact (parse_zaid_accepts_nonneg ZAID iso Hparse).
    + revert Hparse. unfold _parse_zaid.
      destruct (Element _) as [el | e]; cbn [bind]; [| discriminate].
      destruct (is_probably_an_isotope _ _); cbn [negb].
      * intros [= <-]. reflexivity.
      * destruct (find_meta_state _ _ _) as [[i A'] |] eqn:Hfind;
          [| discriminate].
        apply find_meta_state_range in Hfind as (Hi & _ & _).
        intros [= <-]. cbn. split; [reflexivity | exact Hi].
  - intros el HE Hnot Hnone. unfold _parse_zaid.
    rewrite HE; cbn [bind]. rewrite Hnot; cbn [negb].
    now rewrite (find_meta_state_none _ _ Hnone).
Qed.

End WithElement.

Lemma periodic_table_positive (z e : Z) :
  periodic_table z = Ok e -> 0 < z.
Proof.
  unfold periodic_table.
  destruct (1 <=? z) eqn:H1; cbn; [| discriminate].
  intros _. lia.
Qed.

(** Am-242m1 is accepted and rebuilt; hydrogen with mass number 999
    fits no state. *)
Lemma get_full_zaid_inverts_parse_zaid_witness :
  (exists iso,
     _parse_zaid periodic_table 95642 = Ok iso
     /\ get_full_zaid iso = Ok 95642)
  /\ _parse_zaid periodic_table 1999 = Raise ValueError.
Proof.
  pose proof (get_full_zaid_inverts_parse_zaid Z periodic_table
                periodic_table_positive) as H.
  split.
  - eexists. split; [reflexivity |].
    apply (proj1 (H 95642)). reflexivity.
  - apply (proj2 (H 1999) 1); [reflexivity | reflexivity |].
    intros m Hm.
    assert (m = 1 \/ m = 2 \/ m = 3 \/ m = 4) as [-> | [-> | [-> | ->]]]
      by lia; reflexivity.
Defined.

(** The assumption on the element table is what keeps negative
    identifiers out: the quotient truncates toward zero while the
    remainder is taken from the floor, so a table that knew an element
    0 would let -999 through as mass number 1. *)
Example parse_zaid_with_element_zero :
  exists iso,
    _parse_zaid (fun z => Ok z) (-999) = Ok iso
    /\ get_full_zaid iso = Ok 1.
Proof. eexists. split; reflexivity. Qed.

End IsotopeFacts.

(** ** Isotope objects and nuclides *)

Module IsotopeObjectFacts.
Import Isotope isotope_objects.
Local Open Scope Z_scope.

(** The bounding curve is an upper limit on the mass number only: what
    fits under it keeps fitting when the mass number goes down. *)
Lemma is_probably_an_isotope_in_mono (curve : list (Z * Z)) (Zn A A' : Z) :
  A' <= A ->
  is_probably_an_isotope_in curve Zn A = true ->
  is_probably_an_isotope_in curve Zn A' = true.
Proof.
  intros Hle. induction curve as [| [lim_Z lim_A] rest IH]; cbn.
  - reflexivity.
  - destruct (Zn <=? lim_Z); [| exact IH].
    rewrite !Z.leb_le. lia.
Qed.

Lemma is_probably_an_isotope_mono (Zn A A' : Z) :
  A' <= A ->
  is_probably_an_isotope Zn A = true ->
  is_probably_an_isotope Zn A' = true.
Proof. apply is_probably_an_isotope_in_mono. Qed.

Lemma is_probably_an_isotope_above (Zn A A' : Z) :
  A <= A' ->
  is_probably_an_isotope Zn A = false ->
  is_probably_an_isotope Zn A' = false.
Proof.
  intros Hle Hnot.
  destruct (is_probably_an_isotope Zn A') eqn:H; [| reflexivity].
  now rewrite (is_probably_an_isotope_mono _ _ _ Hle H) in Hnot.
Qed.

(** Every point of the curve allows mass numbers up to 52. *)
Lemma is_probably_an_isotope_low (Zn A : Z) :
  A <= 52 -> is_probably_an_isotope Zn A = true.
Proof.
  intros HA. unfold is_probably_an_isotope, _BOUNDING_CURVE.
  cbn [is_probably_an_isotope_in].
  repeat (destruct (Zn <=? _); [apply Z.leb_le; lia |]).
  reflexivity.
Qed.

(** The search stops at the first state that fits. *)
Lemma find_meta_state_least (Zn true_A i A' k : Z) :
  find_meta_state [1; 2; 3; 4] Zn true_A = Some (i, A') ->
  1 <= k < i ->
  is_probably_an_isotope Zn (true_A - 100 * k) = false.
Proof.
  cbn [find_meta_state].
  destruct (is_probably_an_isotope Zn (true_A - 100)) eqn:H1.
  { intros [= <- <-]. lia. }
  destruct (is_probably_an_isotope Zn (true_A - 100 - 100)) eqn:H2.
  { intros [= <- <-] Hk. replace k with 1 by lia.
    now replace (true_A - 100 * 1) with (true_A - 100) by lia. }
  destruct (is_probably_an_isotope Zn (true_A - 100 - 100 - 100)) eqn:H3.
  { intros [= <- <-] Hk.
    apply (is_probably_an_isotope_above Zn (true_A - 100 - 100)); [lia |].
    exact H2. }
  destruct (is_probably_an_isotope Zn (true_A - 100 - 100 - 100 - 100)) eqn:H4.
  { intros [= <- <-] Hk.
    apply (is_probably_an_isotope_above Zn (true_A - 100 - 100 - 100));
      [lia | exact H3]. }
  discriminate.
Qed.

(** The state found is the first of 1 to 4 whose mass number fits. *)
Lemma find_meta_state_first (Zn true_A m : Z) :
  1 <= m <= 4 ->
  is_probably_an_isotope Zn (true_A - 100 * m) = true ->
  (forall k, 1 <= k < m ->
     is_probably_an_isotope Zn (true_A - 100 * k) = false) ->
  find_meta_state [1; 2; 3; 4] Zn true_A = Some (m, true_A - 100 * m).
Proof.
  intros Hm Hfit Hbelow. cbn [find_meta_state].
  pose proof (Hbelow 1) as B1. pose proof (Hbelow 2) as B2.
  pose proof (Hbelow 3) as B3.
  replace (true_A - 100 * 1) with (true_A - 100) in B1 by lia.
  replace (true_A - 100 * 2) with (true_A - 100 - 100) in B2 by lia.
  replace (true_A - 100 * 3) with (true_A - 100 - 100 - 100) in B3 by lia.
  assert (m = 1 \/ m = 2 \/ m = 3 \/ m = 4) as [-> | [-> | [-> | ->]]]
    by lia.
  - replace (true_A - 100 * 1) with (true_A - 100) in * by lia.
    now rewrite Hfit.
  - replace (true_A - 100 * 2) with (true_A - 100 - 100) in * by lia.
    rewrite B1 by lia. now rewrite Hfit.
  - replace (true_A - 100 * 3) with (true_A - 100 - 100 - 100) in * by lia.
    rewrite B1, B2 by lia. now rewrite Hfit.
  - replace (true_A - 100 * 4) with (true_A - 100 - 100 - 100 - 100) in *
      by lia.
    rewrite B1, B2, B3 by lia. now rewrite Hfit.
Qed.

Lemma int_truediv_encoding (Zn r : Z) :
  0 <= Zn -> 0 <= r < 1000 ->
  int_truediv (Zn * 1000 + r) 1000 = Zn /\ (Zn * 1000 + r) mod 1000 = r.
Proof.
  intros HZ Hr. split.
  - rewrite IsotopeFacts.int_truediv_nonneg by lia.
    symmetry. apply (Z.div_unique _ _ _ r); lia.
  - symmetry. apply (Z.mod_unique _ _ Zn); lia.
Qed.

Section WithElement.

Variable element : Type.
Variable Element : Z -> result element.
Variable Z_of : element -> Z.

(** X1: an identifier the parser accepts is read as a mass number
    under the bounding curve of its atomic number; and when it is read
    as a metastable state [m], the mass number written in the
    identifier lies above the curve, as does every reading of it as a
    lower state. *)
Theorem parse_zaid_picks_lowest_state (ZAID : Z) (iso : t element) :
  _parse_zaid Element ZAID = Ok iso ->
  is_probably_an_isotope (_Z iso) (_A iso) = true
  /\ forall m, _meta_state iso = Some m ->
       is_probably_an_isotope (_Z iso) (ZAID mod 1000) = false
       /\ _A iso = ZAID mod 1000 - 300 - 100 * m
       /\ forall k, 1 <= k < m ->
            is_probably_an_isotope (_Z iso) (_A iso + 100 * k) = false.
Proof.
  unfold _parse_zaid.
  destruct (Element _) as [el | e]; cbn [bind]; [| discriminate].
  destruct (is_probably_an_isotope _ (ZAID mod 1000)) eqn:Hfits; cbn [negb].
  - intros [= <-]. cbn. split; [exact Hfits | discriminate].
  - destruct (find_meta_state _ _ _) as [[i A'] |] eqn:Hfind;
      [| discriminate].
    intros [= <-]. cbn.
    pose proof (IsotopeFacts.find_meta_state_range _ _ _ _ Hfind)
      as (Hi & HA & Hok).
    split; [exact Hok |].
    intros m [= <-]. split; [exact Hfits |]. split; [exact HA |].
    intros k Hk.
    pose proof (find_meta_state_least _ _ _ _ (i - k) Hfind ltac:(lia)) as H.
    replace (A' + 100 * k) with (ZAID mod 1000 - 300 - 100 * (i - k)) by lia.
    exact H.
Qed.

(** X2: decoding undoes encoding.  For an element the table knows, a
    mass number under the curve and a state from 1 to 4, the
    identifier [Z * 1000 + A + 300 + 100 * m] is read back as exactly
    that element, mass number and state, provided the mass number is
    within a hundred of the curve (four hundred for state 1), so that
    no lower reading fits. *)
Theorem parse_zaid_reads_back_metastable (Zn A m : Z) (el : element) :
  Element Zn = Ok el ->
  0 <= Zn ->
  1 <= m <= 4 ->
  0 <= A + 300 + 100 * m < 1000 ->
  is_probably_an_isotope Zn A = true ->
  is_probably_an_isotope Zn (A + (if m =? 1 then 400 else 100)) = false ->
  _parse_zaid Element (Zn * 1000 + A + 300 + 100 * m)
  = Ok {| _Z := Zn; _element := el; _A := A;
          _is_metastable := true; _meta_state := Some m |}.
Proof.
  intros HE HZ Hm Hrange Hfit Habove.
  unfold _parse_zaid.
  replace (Zn * 1000 + A + 300 + 100 * m)
    with (Zn * 1000 + (A + 300 + 100 * m)) by lia.
  destruct (int_truediv_encoding Zn (A + 300 + 100 * m) HZ Hrange)
    as [-> ->].
  rewrite HE; cbn [bind].
  assert (is_probably_an_isotope Zn (A + 300 + 100 * m) = false) as ->.
  { apply (is_probably_an_isotope_above Zn
             (A + (if m =? 1 then 400 else 100))); [| exact Habove].
    destruct (m =? 1); lia. }
  cbn [negb].
  rewrite (find_meta_state_first Zn (A + 300 + 100 * m - 300) m Hm).
  - repeat f_equal. lia.
  - replace (A + 300 + 100 * m - 300 - 100 * m) with A by lia. exact Hfit.
  - intros k Hk.
    apply (is_probably_an_isotope_above Zn
             (A + (if m =? 1 then 400 else 100))); [| exact Habove].
    destruct (m =? 1) eqn:H1; [apply Z.eqb_eq in H1 |]; lia.
Qed.

(** The same for a ground state: [Z * 1000 + A] is read back as the
    element and the mass number. *)
Lemma parse_zaid_reads_back_ground (Zn A : Z) (el : element) :
  Element Zn = Ok el ->
  0 <= Zn -> 0 <= A < 1000 ->
  is_probably_an_isotope Zn A = true ->
  _parse_zaid Element (Zn * 1000 + A)
  = Ok {| _Z := Zn; _element := el; _A := A;
          _is_metastable := false; _meta_state := None |}.
Proof.
  intros HE HZ HA Hfit. unfold _parse_zaid.
  destruct (int_truediv_encoding Zn A HZ HA) as [-> ->].
  rewrite HE; cbn [bind]. now rewrite Hfit.
Qed.

(** X24: the mass number of an accepted identifier can be negative.
    An identifier whose last three digits are below 400 and above the
    bounding curve is read as the first metastable state of a nucleus
    with those digits less 400 as its mass number. *)
Theorem parse_zaid_negative_mass (Zn r : Z) (el : element) :
  Element Zn = Ok el ->
  0 <= Zn ->
  0 <= r < 400 ->
  is_probably_an_isotope Zn r = false ->
  _parse_zaid Element (Zn * 1000 + r)
  = Ok {| _Z := Zn; _element := el; _A := r - 400;
          _is_metastable := true; _meta_state := Some 1 |}
  /\ r - 400 < 0.
Proof.
  intros HE HZ Hr Hnot. split; [| lia].
  replace (Zn * 1000 + r) with (Zn * 1000 + (r - 400) + 300 + 100 * 1)
    by lia.
  apply parse_zaid_reads_back_metastable; try (assumption || lia).
  - apply is_probably_an_isotope_low. lia.
  - cbn [Z.eqb Pos.eqb]. now replace (r - 400 + 400) with r by lia.
Qed.

Hypothesis Element_positive : forall z e, Element z = Ok e -> 0 < z.
Hypothesis Element_Z : forall z e, Element z = Ok e -> Z_of e = z.

(** X3: an isotope made from an integer by [get_from_fancy_name]
    carries that integer as its full identifier, kept as its decimal
    text, with the atomic number of the element found; the integers
    refused are those [_parse_zaid] refuses, with its error. *)
Theorem get_from_fancy_name_keeps_identifier (identifier : Z) :
  match _parse_zaid Element identifier with
  | Ok parts =>
      exists iso,
        get_from_fancy_name Element Z_of identifier = Ok iso
        /\ attributes iso = parts
        /\ get_full_zaid (attributes iso) = Ok identifier
        /\ _ZAID iso = str_of_Z identifier
        /\ _library iso = EmptyString
  | Raise e => get_from_fancy_name Element Z_of identifier = Raise e
  end.
Proof.
  unfold get_from_fancy_name.
  destruct (_parse_zaid Element identifier) as [parts | e] eqn:Hparse;
    cbn [bind]; [| reflexivity].
  pose proof (IsotopeFacts.parse_zaid_accepts_nonneg _ Element
                Element_positive _ _ Hparse) as Hpos.
  pose proof (IsotopeFacts.get_full_zaid_nonneg _ Element _ _ Hpos Hparse)
    as Hfull.
  assert (Z_of (_element parts) = _Z parts
          /\ match _meta_state parts with
             | Some m => _is_metastable parts = true /\ 1 <= m <= 4
             | None => _is_metastable parts = false
             end) as [HZ Hmeta].
  { revert Hparse. unfold _parse_zaid.
    destruct (Element _) as [el | e] eqn:HE; cbn [bind]; [| discriminate].
    apply Element_Z in HE.
    destruct (is_probably_an_isotope _ _); cbn [negb].
    - intros [= <-]. cbn. split; [exact HE | reflexivity].
    - destruct (find_meta_state _ _ _) as [[i A'] |] eqn:Hfind;
        [| discriminate].
      apply IsotopeFacts.find_meta_state_range in Hfind as (Hi & _ & _).
      intros [= <-]. cbn. repeat split; (exact HE || lia). }
  assert ({| _Z := Z_of (_element parts); _element := _element parts;
             _A := _A parts;
             _is_metastable :=
               match _meta_state parts with
               | Some m => negb (m =? 0)
               | None => false
               end;
             _meta_state :=
               if match _meta_state parts with
                  | Some m => negb (m =? 0)
                  | None => false
                  end
               then _meta_state parts else None |} = parts) as Hsame.
  { destruct parts as [z el a ms m]. cbn in *. subst z.
    destruct m as [m |].
    - destruct Hmeta as [-> Hm].
      destruct (m =? 0) eqn:H0; [apply Z.eqb_eq in H0; lia |].
      reflexivity.
    - now rewrite Hmeta. }
  unfold init_from_element. rewrite Hsame, Hfull. cbn [bind].
  eexists. repeat split; cbn; assumption || reflexivity.
Qed.

End WithElement.

(** Tc-99m1, and the read-back of the identifier of Am-242m1. *)
Lemma parse_zaid_reads_back_metastable_witness :
  _parse_zaid periodic_table 43499
  = Ok {| _Z := 43; _element := 43; _A := 99;
          _is_metastable := true; _meta_state := Some 1 |}.
Proof.
  apply (parse_zaid_reads_back_metastable Z periodic_table 43 99 1 43);
    (reflexivity || lia).
Defined.

(** Hydrogen with the digits 350: mass number -50, first state. *)
Lemma parse_zaid_negative_mass_witness :
  _parse_zaid periodic_table 1350
  = Ok {| _Z := 1; _element := 1; _A := -50;
          _is_metastable := true; _meta_state := Some 1 |}
  /\ -50 < 0.
Proof.
  apply (parse_zaid_negative_mass Z periodic_table 1 350 1);
    (reflexivity || lia).
Defined.

Lemma parse_zaid_picks_lowest_state_witness :
  is_probably_an_isotope 95 242 = true
  /\ forall m, Some 1 = Some m ->
       is_probably_an_isotope 95 (95642 mod 1000) = false
       /\ 242 = 95642 mod 1000 - 300 - 100 * m
       /\ forall k, 1 <= k < m ->
            is_probably_an_isotope 95 (242 + 100 * k) = false.
Proof.
  exact (parse_zaid_picks_lowest_state Z periodic_table 95642
           {| _Z := 95; _element := 95; _A := 242;
              _is_metastable := true; _meta_state := Some 1 |}
           eq_refl).
Defined.

Lemma get_from_fancy_name_keeps_identifier_witness :
  exists iso,
    get_from_fancy_name periodic_table id 95642 = Ok iso
    /\ attributes iso
       = {| _Z := 95; _element := 95; _A := 242;
            _is_metastable := true; _meta_state := Some 1 |}
    /\ get_full_zaid (attributes iso) = Ok 95642
    /\ _ZAID iso = str_of_Z 95642
    /\ _library iso = EmptyString.
Proof.
  exact (get_from_fancy_name_keeps_identifier Z periodic_table id
           IsotopeFacts.periodic_table_positive
           (fun z e H =>
              ltac:(unfold periodic_table in H;
                    destruct ((1 <=? z) && (z <=? 118));
                    [now injection H | discriminate]))
           95642).
Defined.

End IsotopeObjectFacts.

Module NuclideFacts.
Import Isotope nuclide.
Local Open Scope Z_scope.

Section WithElement.

Variable element : Type.
Variable Element : Z -> result element.
Variable Z_of : element -> Z.
Variable python_int : string -> result Z.

Hypothesis Element_positive : forall z e, Element z = Ok e -> 0 < z.
Hypothesis Element_Z : forall z e, Element z = Ok e -> Z_of e = z.

(** What the parser's dictionary holds for an identifier it accepts. *)
Lemma parse_zaid_parts (n : Z) (parts : zaid_parts element) :
  _parse_zaid Element n = Ok parts ->
  1000 <= n
  /\ Z_of (parts_element parts) = n / 1000
  /\ ((parts_meta_state parts = 0 /\ parts_A parts = n mod 1000
       /\ is_probably_an_isotope (n / 1000) (n mod 1000) = true)
      \/ (1 <= parts_meta_state parts <= 4
          /\ parts_A parts = n mod 1000 - 300 - 100 * parts_meta_state parts
          /\ is_probably_an_isotope (n / 1000) (n mod 1000) = false)).
Proof.
  unfold _parse_zaid, _ZAID_A_ADDER.
  destruct (Element (int_truediv n 1000)) as [el | e] eqn:HE;
    cbn [bind]; [| discriminate].
  pose proof (Element_positive _ _ HE) as HZ.
  assert (0 <= n) as Hpos.
  { destruct (Z_lt_le_dec n 0) as [Hneg | Hge]; [| exact Hge].
    pose proof (IsotopeFacts.int_truediv_neg n Hneg). lia. }
  rewrite IsotopeFacts.int_truediv_nonneg in * by exact Hpos.
  apply Element_Z in HE.
  assert (1000 <= n).
  { pose proof (Z.div_mod n 1000 ltac:(lia)).
    pose proof (Z.mod_pos_bound n 1000 ltac:(lia)). lia. }
  destruct (is_probably_an_isotope _ _) eqn:Hfit; cbn [negb].
  - intros [= <-]. cbn. repeat split; try assumption. left. now repeat split.
  - destruct (find_meta_state _ _ _) as [[i A'] |] eqn:Hfind;
      [| discriminate].
    apply IsotopeFacts.find_meta_state_range in Hfind as (Hi & HA & _).
    intros [= <-]. cbn. repeat split; try assumption.
    right. repeat split; (lia || assumption).
Qed.

(** The number a nucleus made of such a dictionary spells, before the
    swap table is looked at. *)
Lemma parts_spell_identifier (n : Z) (parts : zaid_parts element) :
  _parse_zaid Element n = Ok parts ->
  Z_of (parts_element parts) * 1000 + parts_A parts
  + (if negb (parts_meta_state parts =? 0)
     then 300 + 100 * parts_meta_state parts else 0) = n.
Proof.
  intros H. apply parse_zaid_parts in H as (Hn & -> & Hcase).
  pose proof (Z.div_mod n 1000 ltac:(lia)).
  destruct Hcase as [(-> & -> & _) | (Hm & -> & _)].
  - cbn. lia.
  - destruct (parts_meta_state parts =? 0) eqn:H0;
      [apply Z.eqb_eq in H0; lia |].
    cbn [negb]. lia.
Qed.

Lemma assoc_swap_other (n : Z) :
  n <> 95242 -> n <> 95642 -> assoc n _STUPID_ZAID_SWAP = None.
Proof.
  intros H1 H2. unfold _STUPID_ZAID_SWAP. cbn [assoc].
  destruct (95242 =? n) eqn:E1; [apply Z.eqb_eq in E1; lia |].
  destruct (95642 =? n) eqn:E2; [apply Z.eqb_eq in E2; lia |].
  reflexivity.
Qed.

Lemma assoc_map_other (n : Z) :
  n <> 95242 -> n <> 95642 -> assoc n _STUPID_MAP = None.
Proof.
  intros H1 H2. unfold _STUPID_MAP. cbn [assoc].
  destruct (95642 =? n) eqn:E2; [apply Z.eqb_eq in E2; lia |].
  destruct (95242 =? n) eqn:E1; [apply Z.eqb_eq in E1; lia |].
  reflexivity.
Qed.

(** The [ZAID] of a nucleus with its three slots set. *)
Lemma Nucleus_ZAID_set (e : element) (a m : Z) :
  Nucleus_ZAID Z_of
    {| _element := Some e; _A := Some a; _meta_state := Some m |}
  = Ok (let temp :=
          Z_of e * 1000 + a
          + (if negb (m =? 0) then 300 + 100 * m else 0) in
        match assoc temp _STUPID_ZAID_SWAP with
        | Some other => other
        | None => temp
        end).
Proof.
  unfold Nucleus_ZAID, is_metastable, Nucleus_Z, slot, _ZAID_A_ADDER.
  cbn [_element _A _meta_state bind].
  destruct (negb (m =? 0)); cbn [bind]; cbv zeta;
    destruct (assoc _ _); reflexivity.
Qed.

(** X4: a nucleus made from an identifier text answers that
    identifier's number as its [ZAID], for every text the constructor
    accepts: the two legacy identifiers of Am-242, which the
    constructor re-labels and the property swaps back, included. *)
Theorem nucleus_keeps_identifier (ZAID : string) (el : option element)
    (Zn A meta_state : option Z) (nuc : Nucleus element) :
  ZAID <> EmptyString ->
  Nucleus_init Element python_int ZAID el Zn A meta_state = Ok nuc ->
  exists n,
    python_int (hd EmptyString (split_dot ZAID EmptyString)) = Ok n
    /\ Nucleus_ZAID Z_of nuc = Ok n.
Proof.
  intros Hne. unfold Nucleus_init.
  destruct ZAID as [| c rest]; [congruence |].
  destruct (2 <? _)%nat; [discriminate |].
  destruct (python_int _) as [n | e]; cbn [bind]; [| discriminate].
  destruct (_parse_zaid Element n) as [parts | e] eqn:Hparse;
    cbn [bind]; [| discriminate].
  pose proof (parse_zaid_parts _ _ Hparse) as (Hn & HZ & Hcase).
  pose proof (parts_spell_identifier _ _ Hparse) as Hspell.
  destruct (n =? 0) eqn:H0; [apply Z.eqb_eq in H0; lia |].
  intros [= <-]. exists n. split; [reflexivity |].
  destruct (Z.eq_dec n 95242) as [-> | N1];
    [| destruct (Z.eq_dec n 95642) as [-> | N2]].
  - change (95242 / 1000) with 95 in *. change (95242 mod 1000) with 242 in *.
    destruct Hcase as [(Hm & HA & _) | (_ & _ & Hno)]; [| discriminate].
    change (_handle_stupid_legacy_stupidity _ _ 95242)
      with {| _element := Some (parts_element parts);
              _A := Some (parts_A parts); _meta_state := Some 1 |}.
    rewrite Nucleus_ZAID_set, HZ, HA. reflexivity.
  - change (95642 / 1000) with 95 in *. change (95642 mod 1000) with 642 in *.
    destruct Hcase as [(_ & _ & Hyes) | (Hm & HA & _)]; [discriminate |].
    assert (parts_meta_state parts = 1) as Hone.
    { revert Hparse. unfold _parse_zaid.
      destruct (Element _) as [e |]; cbn [bind]; [| discriminate].
      cbn. intros [= <-]. reflexivity. }
    rewrite Hone in HA.
    change (_handle_stupid_legacy_stupidity _ _ 95642)
      with {| _element := Some (parts_element parts);
              _A := Some (parts_A parts); _meta_state := Some 0 |}.
    rewrite Nucleus_ZAID_set, HZ, HA. reflexivity.
  - unfold _handle_stupid_legacy_stupidity.
    rewrite (assoc_map_other n N1 N2).
    rewrite Nucleus_ZAID_set. cbv zeta. rewrite Hspell.
    now rewrite (assoc_swap_other n N1 N2).
Qed.

(** X5: a nuclide made from an integer by [get_from_fancy_name]
    answers, as its [ZAID], the integer itself when it is above 1000
    and neither legacy identifier of Am-242; the other one of the two
    when it is one of them; and the bare element's identifier, a
    thousand times the integer, when it is 1000 or less. *)
Theorem nuclide_from_integer_identifier (identifier : Z)
    (nuclide : Nuclide element) :
  get_from_fancy_name Element python_int identifier = Ok nuclide ->
  ZAID Z_of nuclide
  = Ok (if 1000 <? identifier then swapped identifier
        else identifier * 1000).
Proof.
  unfold get_from_fancy_name, _ZAID_A_ADDER.
  destruct (1000 <? identifier) eqn:Hbig.
  - destruct (_parse_zaid Element identifier) as [parts | e] eqn:Hparse;
      cbn [bind]; [| discriminate].
    pose proof (parts_spell_identifier _ _ Hparse) as Hspell.
    pose proof (parse_zaid_parts _ _ Hparse) as (_ & _ & Hcase).
    intros [= <-].
    unfold ZAID, Nuclide_init, Nucleus_init, set_A_and_meta.
    cbn [bind _nucleus _element].
    assert ((if parts_meta_state parts =? 0 then 0
             else parts_meta_state parts) = parts_meta_state parts) as ->.
    { destruct (parts_meta_state parts =? 0) eqn:H0;
        [apply Z.eqb_eq in H0; lia | reflexivity]. }
    rewrite Nucleus_ZAID_set. cbv zeta. rewrite Hspell.
    unfold swapped.
    destruct (identifier =? 95242) eqn:E1.
    { apply Z.eqb_eq in E1. rewrite E1. reflexivity. }
    destruct (identifier =? 95642) eqn:E2.
    { apply Z.eqb_eq in E2. rewrite E2. reflexivity. }
    apply Z.eqb_neq in E1, E2.
    now rewrite (assoc_swap_other identifier E1 E2).
  - destruct (Element identifier) as [el | e] eqn:HE; cbn [bind];
      [| discriminate].
    intros [= <-].
    apply Element_Z in HE.
    unfold ZAID, Nuclide_init, Nucleus_init, set_A_and_meta.
    cbn [bind _nucleus _element].
    change (if 0 =? 0 then 0 else 0) with 0.
    rewrite Nucleus_ZAID_set. cbv zeta. rewrite HE.
    change (negb (0 =? 0)) with false. cbv iota.
    apply Z.ltb_ge in Hbig.
    rewrite assoc_swap_other by lia.
    f_equal. lia.
Qed.

End WithElement.

Lemma periodic_table_Z (z e : Z) : periodic_table z = Ok e -> id e = z.
Proof.
  unfold periodic_table.
  destruct ((1 <=? z) && (z <=? 118)); [| discriminate].
  now intros [= <-].
Qed.

(** The legacy identifier of Am-242m1 with a library suffix. *)
Lemma nucleus_keeps_identifier_witness :
  exists nuc,
    Nucleus_init periodic_table int_of_digits "95242.80c" None None None None
    = Ok nuc
    /\ exists n,
         int_of_digits (hd EmptyString (split_dot "95242.80c" EmptyString))
         = Ok n
         /\ Nucleus_ZAID id nuc = Ok n.
Proof.
  eexists. split; [reflexivity |].
  apply (nucleus_keeps_identifier Z periodic_table id int_of_digits
           IsotopeFacts.periodic_table_positive periodic_table_Z
           "95242.80c" None None None None).
  - discriminate.
  - reflexivity.
Defined.

Lemma nuclide_from_integer_identifier_witness :
  exists nuclide,
    get_from_fancy_name periodic_table int_of_digits 95242 = Ok nuclide
    /\ ZAID id nuclide = Ok 95642.
Proof.
  eexists. split; [reflexivity |].
  apply (nuclide_from_integer_identifier Z periodic_table id int_of_digits
           IsotopeFacts.periodic_table_positive periodic_table_Z 95242).
  reflexivity.
Defined.

End NuclideFacts.

(** ** Half-space trees *)

Module HalfSpaceTreeFacts.
Import syntax_node half_space half_space_tree.

(** Induction over syntax trees and half-spaces, through their
    optional operands. *)
Lemma syntax_tree_induction (P : syntax_tree -> Prop) :
  (forall v, P (Value v)) ->
  (forall l op r p,
     (forall t, l = Some t -> P t) -> (forall t, r = Some t -> P t) ->
     P (Tree l op r p)) ->
  forall t, P t.
Proof.
  intros HV HT. fix IH 1. intros [v | l op r p]; [apply HV |].
  apply HT.
  - destruct l as [t |]; intros t' [= <-]. apply IH.
  - destruct r as [t |]; intros t' [= <-]. apply IH.
Qed.

Lemma geometry_induction (P : geometry -> Prop) :
  (forall u, P (Unit u)) ->
  (forall l op r n c,
     P l -> (forall g, r = Some g -> P g) -> P (Half l op r n c)) ->
  forall g, P g.
Proof.
  intros HU HH. fix IH 1. intros [u | l op r n c]; [apply HU |].
  apply HH; [apply IH |].
  destruct r as [g |]; intros g' [= <-]. apply IH.
Qed.

(** *** Parsing *)

(** One operand of a tree, as [parse_input_node] reads it. *)
Local Abbreviation parse_side op side :=
  (match side with
   | None => Ok []
   | Some (Value v) =>
       Ok [Unit (unit_parse_input_node v (is_complement op))]
   | Some (Tree _ _ _ _ as t) => let* g := parse_input_node t in Ok [g]
   end).

Lemma parse_input_node_tree l op r p :
  parse_input_node (Tree l op r p)
  = let* from_left := parse_side op l in
    let* from_right := parse_side op r in
    match op, from_left ++ from_right with
    | _, [] => Raise IndexError
    | SHIFT, first :: _ => Ok first
    | _, [first] =>
        Ok (Half first op None
                 (Some {| half_space.operator_node := p |}) None)
    | _, first :: second :: _ =>
        Ok (Half first op (Some second)
                 (Some {| half_space.operator_node := p |}) None)
    end.
Proof. reflexivity. Qed.

(** What a parsed operand is, in terms of the properties below. *)
Lemma parse_side_cases (Q : geometry -> Prop) op side sides :
  (forall t g, side = Some t -> parse_input_node t = Ok g -> Q g) ->
  (forall v c, Q (Unit (unit_parse_input_node v c))) ->
  parse_side op side = Ok sides ->
  Forall Q sides /\ (length sides <= 1)%nat.
Proof.
  intros Htree Hleaf.
  destruct side as [[v | l' op' r' p'] |].
  - intros [= <-]. split; [| cbn; lia]. repeat constructor. apply Hleaf.
  - destruct (parse_input_node (Tree l' op' r' p')) as [g | e] eqn:Hg;
      cbn [bind]; [| discriminate].
    intros [= <-]. split; [| cbn; lia]. repeat constructor.
    eapply Htree; [reflexivity | exact Hg].
  - intros [= <-]. split; [constructor | cbn; lia].
Qed.

(** What the operands of a tree bring, in terms of [kept_trees]. *)
Lemma parse_side_trees op side sides :
  (forall t g, side = Some t -> parse_input_node t = Ok g ->
     operators g = List.map fst (kept_trees t)
     /\ trees g
        = List.map
            (fun x => Some {| half_space.operator_node := snd x |})
            (kept_trees t)
     /\ Forall (fun c => c = None) (owners g)) ->
  parse_side op side = Ok sides ->
  concat (List.map operators sides)
  = List.map fst (match side with Some t => kept_trees t | None => [] end)
  /\ concat (List.map trees sides)
     = List.map (fun x => Some {| half_space.operator_node := snd x |})
         (match side with Some t => kept_trees t | None => [] end)
  /\ Forall (fun c => c = None) (concat (List.map owners sides))
  /\ (side = None <-> sides = [])
  /\ (length sides <= 1)%nat.
Proof.
  intros Htree.
  destruct side as [[v | l' op' r' p'] |].
  - intros [= <-]. cbn. repeat split; try discriminate; try lia.
    repeat constructor.
  - destruct (parse_input_node (Tree l' op' r' p')) as [g | e] eqn:Hg;
      cbn [bind]; [| discriminate].
    intros [= <-].
    destruct (Htree _ g eq_refl Hg) as (H1 & H2 & H3).
    cbn [List.map concat length]. rewrite !app_nil_r.
    repeat split; try assumption; try discriminate; lia.
  - intros [= <-]. cbn. repeat split; try tauto; try lia. constructor.
Qed.

Lemma kept_trees_no_shift (t : syntax_tree) :
  ~ In SHIFT (List.map fst (kept_trees t)).
Proof.
  induction t as [v | l op r p IHl IHr] using syntax_tree_induction;
    [intros [] |].
  assert (Hl : ~ In SHIFT
                 (List.map fst
                    match l with Some t => kept_trees t | None => [] end))
    by (destruct l as [t |]; [exact (IHl t eq_refl) | intros []]).
  assert (Hr : ~ In SHIFT
                 (List.map fst
                    match r with Some t => kept_trees t | None => [] end))
    by (destruct r as [t |]; [exact (IHr t eq_refl) | intros []]).
  cbn [kept_trees].
  destruct op; try (destruct l; assumption);
    cbn [List.map fst]; rewrite List.map_app;
    (intros [? | Hin]; [discriminate |]);
    apply in_app_or in Hin; tauto.
Qed.

(** X6: what parsing builds never holds a shift; the nodes of the
    half-space are, in order and root first, the trees of the syntax
    tree other than shifts, each node with the operator of its tree
    and keeping that tree, the padding of its operator slot included;
    and no node or leaf has an owning cell yet. *)
Theorem parse_input_node_drops_shifts (t : syntax_tree) (g : geometry) :
  parse_input_node t = Ok g ->
  ~ In SHIFT (operators g)
  /\ operators g = List.map fst (kept_trees t)
  /\ trees g
     = List.map (fun x => Some {| half_space.operator_node := snd x |})
         (kept_trees t)
  /\ Forall (fun c => c = None) (owners g).
Proof.
  intros Hparse.
  enough (operators g = List.map fst (kept_trees t)
          /\ trees g
             = List.map
                 (fun x => Some {| half_space.operator_node := snd x |})
                 (kept_trees t)
          /\ Forall (fun c => c = None) (owners g)) as (H1 & H2 & H3).
  { split; [rewrite H1; apply kept_trees_no_shift | now repeat split]. }
  revert g Hparse.
  induction t as [v | l op r p IHl IHr] using syntax_tree_induction;
    intros g; [discriminate |].
  rewrite parse_input_node_tree.
  destruct (parse_side op l) as [sl | e] eqn:Hl; cbn [bind]; [| discriminate].
  destruct (parse_side op r) as [sr | e] eqn:Hr; cbn [bind]; [| discriminate].
  apply parse_side_trees in Hl as (Lo & Lt & Lc & Lnone & Llen);
    [| exact (fun t g Ht Hg => IHl t Ht g Hg)].
  apply parse_side_trees in Hr as (Ro & Rt & Rc & Rnone & Rlen);
    [| exact (fun t g Ht Hg => IHr t Ht g Hg)].
  cbn [kept_trees].
  destruct sl as [| a [| ? ?]]; [| | cbn in Llen; lia];
    (destruct sr as [| b [| ? ?]]; [| | cbn in Rlen; lia]);
    cbn [app List.map concat] in *; rewrite ?app_nil_r in *.
  - destruct op; discriminate.
  - destruct l as [tl |]; [now pose proof (proj2 Lnone eq_refl) |].
    destruct op; intros [= <-]; cbn [operators trees owners app List.map];
      rewrite ?app_nil_r; cbn [fst snd];
      repeat split; try (f_equal; assumption); try assumption;
      constructor; (reflexivity || assumption).
  - destruct l as [tl |]; [| now pose proof (proj1 Lnone eq_refl)].
    rewrite (proj2 Rnone eq_refl) in *.
    destruct op; intros [= <-]; cbn [operators trees owners app List.map];
      rewrite ?app_nil_r; cbn [fst snd];
      repeat split; try (f_equal; assumption); try assumption;
      constructor; (reflexivity || assumption).
  - destruct l as [tl |]; [| now pose proof (proj1 Lnone eq_refl)].
    destruct op; intros [= <-]; cbn [operators trees owners app List.map];
      rewrite ?List.map_app; cbn [fst snd];
      repeat split; try (f_equal; congruence); try assumption;
      try (constructor; [reflexivity |]; apply Forall_app; now split).
Qed.

Lemma parse_side_leaves op side sides :
  (forall t g, side = Some t -> parse_input_node t = Ok g ->
     leaves g
     = List.map (fun vc => unit_parse_input_node (fst vc) (snd vc))
         (kept_values (is_complement op) t)) ->
  parse_side op side = Ok sides ->
  concat (List.map leaves sides)
  = List.map (fun vc => unit_parse_input_node (fst vc) (snd vc))
      (match side with
       | Some t => kept_values (is_complement op) t
       | None => []
       end)
  /\ (side = None <-> sides = []).
Proof.
  intros Htree.
  destruct side as [[v | l' op' r' p'] |].
  - intros [= <-]. split; [reflexivity | split; discriminate].
  - destruct (parse_input_node (Tree l' op' r' p')) as [g | e] eqn:Hg;
      cbn [bind]; [| discriminate].
    intros [= <-]. split; [| split; discriminate].
    cbn [List.map concat]. rewrite app_nil_r.
    apply Htree; [reflexivity | exact Hg].
  - intros [= <-]. split; [reflexivity | tauto].
Qed.

(** X7: parsing keeps the values of the syntax tree as the leaves of
    the half-space, in their order from left to right, each one marked
    as a cell exactly when it stands directly under a complement; what
    is dropped is the second operand of a shift. *)
Theorem parse_input_node_keeps_leaves (t : syntax_tree) (g : geometry)
    (c : bool) :
  parse_input_node t = Ok g ->
  leaves g
  = List.map (fun vc => unit_parse_input_node (fst vc) (snd vc))
      (kept_values c t).
Proof.
  revert g c.
  induction t as [v | l op r p IHl IHr] using syntax_tree_induction;
    intros g c; [discriminate |].
  rewrite parse_input_node_tree.
  destruct (parse_side op l) as [sl | e] eqn:Hl; cbn [bind]; [| discriminate].
  destruct (parse_side op r) as [sr | e] eqn:Hr; cbn [bind]; [| discriminate].
  pose proof (parse_side_cases (fun _ => True) op l sl
                (fun _ _ _ _ => I) (fun _ _ => I) Hl) as [_ Hll].
  pose proof (parse_side_cases (fun _ => True) op r sr
                (fun _ _ _ _ => I) (fun _ _ => I) Hr) as [_ Hlr].
  apply parse_side_leaves in Hl as [Hl Hnl];
    [| intros t g' Ht Hg; exact (IHl t Ht g' _ Hg)].
  apply parse_side_leaves in Hr as [Hr Hnr];
    [| intros t g' Ht Hg; exact (IHr t Ht g' _ Hg)].
  cbn [kept_values].
  destruct sl as [| a [| ? ?]]; [| | cbn in Hll; lia];
    (destruct sr as [| b [| ? ?]]; [| | cbn in Hlr; lia]);
    cbn [app List.map concat] in *; rewrite ?app_nil_r in *.
  - destruct op; discriminate.
  - destruct l as [tl |]; [now pose proof (proj2 Hnl eq_refl) |].
    destruct op; intros [= <-]; cbn [leaves app]; rewrite ?app_nil_r;
      exact Hr.
  - destruct l as [tl |]; [| now pose proof (proj1 Hnl eq_refl)].
    rewrite (proj2 Hnr eq_refl) in *.
    destruct op; intros [= <-]; cbn [leaves]; rewrite ?app_nil_r;
      exact Hl.
  - destruct l as [tl |]; [| now pose proof (proj1 Hnl eq_refl)].
    destruct op; intros [= <-]; cbn [leaves];
      rewrite ?List.map_app, <- ?Hl, <- ?Hr; reflexivity.
Qed.


(** *** Pointer resolution over a tree *)

Lemma update_each_app (us vs : list UnitHalfSpace) cells surfaces cell :
  update_each (us ++ vs) cells surfaces cell
  = let (us', r) := update_each us cells surfaces cell in
    match r with
    | Raise e => (us' ++ vs, Raise e)
    | Ok _ =>
        let (vs', r') := update_each vs cells surfaces cell in
        (us' ++ vs', r')
    end.
Proof.
  induction us as [| u us IH]; cbn [update_each app].
  - destruct (update_each vs cells surfaces cell) as [vs' r']. reflexivity.
  - destruct (unit_update_pointers u cells surfaces cell) as [u' [[] | e]];
      [| reflexivity].
    rewrite IH.
    destruct (update_each us cells surfaces cell) as [us' [[] | e]];
      [| reflexivity].
    destruct (update_each vs cells surfaces cell) as [vs' r']. reflexivity.
Qed.

(** X9: resolving the pointers of a half-space is the left-to-right
    walk over its leaves that stops at the first leaf whose link is
    broken: the leaves before it are resolved and stay so, the leaves
    after it are not touched, and its error is the error of the whole
    call. *)
Theorem update_pointers_walks_leaves (g : geometry) (cells : gmap Z Cell)
    (surfaces : gmap Z Surface) (cell : Cell) :
  (leaves (fst (update_pointers g cells surfaces cell)),
   snd (update_pointers g cells surfaces cell))
  = update_each (leaves g) cells surfaces cell.
Proof.
  induction g as [u | l op r n c IHl IHr] using geometry_induction.
  - cbn [update_pointers leaves update_each].
    destruct (unit_update_pointers u cells surfaces cell) as [u' [[] | e]];
      reflexivity.
  - cbn [update_pointers leaves]. rewrite update_each_app, <- IHl.
    destruct (update_pointers l cells surfaces cell) as [l' [[] | e]];
      cbn [fst snd leaves]; [| reflexivity].
    destruct r as [rg |].
    + rewrite <- (IHr rg eq_refl).
      destruct (update_pointers rg cells surfaces cell) as [r' res].
      reflexivity.
    + reflexivity.
Qed.

Lemma unit_update_pointers_ok (u u' : UnitHalfSpace) cells surfaces cell :
  unit_update_pointers u cells surfaces cell = (u', Ok tt) ->
  _cell u' = Some cell /\ resolved u' = true
  /\ _side u' = _side u /\ _is_cell u' = _is_cell u /\ _node u' = _node u.
Proof.
  unfold unit_update_pointers, getitem, resolved. cbn.
  destruct (_divider u); try discriminate.
  destruct (_is_cell u) eqn:Hc.
  - destruct (cells !! n); cbn; [| discriminate].
    intros [= <-]. cbn. now rewrite Hc.
  - destruct (surfaces !! n); cbn; [| discriminate].
    intros [= <-]. cbn. now rewrite Hc.
Qed.

(** X10: when resolving the pointers of a half-space returns, every
    node and every leaf records the owning cell, every leaf holds a
    cell or a surface object as its flag announces, and the operators,
    the syntax trees, the sides and the syntax nodes are the ones the
    half-space had. *)
Theorem update_pointers_links_every_leaf (g g' : geometry)
    (cells : gmap Z Cell) (surfaces : gmap Z Surface) (cell : Cell) :
  update_pointers g cells surfaces cell = (g', Ok tt) ->
  Forall (fun c => c = Some cell) (owners g')
  /\ Forall (fun u => resolved u = true) (leaves g')
  /\ operators g' = operators g
  /\ trees g' = trees g
  /\ Forall2 (fun u u' => _side u' = _side u /\ _is_cell u' = _is_cell u
                          /\ _node u' = _node u)
       (leaves g) (leaves g').
Proof.
  revert g'.
  induction g as [u | l op r n c IHl IHr] using geometry_induction;
    intros g'; cbn [update_pointers].
  - destruct (unit_update_pointers u cells surfaces cell) as [u' res] eqn:Hu.
    intros [= <- ->].
    apply unit_update_pointers_ok in Hu as (H1 & H2 & H3).
    cbn. repeat split; repeat constructor; tauto.
  - destruct (update_pointers l cells surfaces cell) as [l' [[] | e]];
      [| discriminate].
    destruct (IHl l' eq_refl) as (A1 & A2 & A3 & A4 & A5).
    destruct r as [rg |].
    + destruct (update_pointers rg cells surfaces cell) as [r' res] eqn:Hr.
      intros [= <- ->].
      destruct (IHr rg eq_refl r' Hr) as (B1 & B2 & B3 & B4 & B5).
      cbn. rewrite A3, A4, B3, B4. repeat split.
      * constructor; [reflexivity |]. apply Forall_app. now split.
      * apply Forall_app. now split.
      * now apply Forall2_app.
    + intros [= <-]. cbn. rewrite !app_nil_r, A3, A4. repeat split.
      * constructor; [reflexivity | exact A1].
      * exact A2.
      * exact A5.
Qed.

(** *** Composition *)

Lemma ior_never_returns (globals : string -> option pyval)
    (self : geometry) (other : pyval) :
  exists self' e, ior globals self other = (self', Raise e).
Proof.
  destruct self as [u | left_ op right_ node cell]; cbn [ior].
  - eauto.
  - destruct (negb (isinstance other ClsHalfSpace)); [eauto |].
    destruct (is_unit left_) eqn:Hl; cbn [andb].
    + destruct right_ as [r |].
      * destruct (is_unit r) eqn:Hr.
        -- destruct r; [| discriminate]. cbn. eauto.
        -- destruct (ior globals r other) as [r' [v | e]]; eauto.
      * destruct left_; [| discriminate]. cbn. eauto.
    + destruct right_ as [r |]; [| eauto].
      destruct (ior globals r other) as [r' [v | e]]; eauto.
Qed.

(** X11: neither [&=] nor [|=] ever returns on a half-space, whatever
    the operands and whatever names the module binds: a leaf operand
    has no [&], [|] or [~], and behind the recursion stands a call of
    [_add_new_children_to_parent], which no class defines. *)
Theorem in_place_composition_never_returns
    (globals : string -> option pyval) (self : geometry) (other : pyval) :
  (exists self' e, __iand__ globals self other = (self', Raise e))
  /\ (exists self' e, __ior__ globals self other = (self', Raise e)).
Proof.
  split.
  - apply HalfSpaceFacts.iand_never_returns.
  - apply ior_never_returns.
Qed.

(** X12: a half-space made by [&] or [|] cannot be written back: it
    has no syntax tree, [_generate_default_tree] builds none, and
    [_update_values] stops at the root with an [AttributeError],
    leaving the half-space as it was. *)
Theorem composed_half_space_is_not_written (a : geometry) (b : pyval)
    (g : geometry) :
  and_ a b = Ok g \/ or_ a b = Ok g ->
  _update_values g = (g, Raise (AttributeError "nodes")).
Proof.
  unfold and_, or_, __and__, __or__.
  intros [H | H]; destruct a; try discriminate;
    destruct b as [? | [? | ]|]; try discriminate;
    injection H as <-; reflexivity.
Qed.

(** *** Leaf objects *)

(** X13: the two sets of [_get_leaf_objects] hold exactly the
    dividers of the leaves: the first those of the leaves marked as
    cells, the second those of the others. *)
Theorem leaf_objects_are_leaf_dividers (g : geometry) (o : obj) :
  (o ∈ fst (_get_leaf_objects g)
   <-> exists u, In u (leaves g) /\ _is_cell u = true /\ _divider u = o)
  /\ (o ∈ snd (_get_leaf_objects g)
      <-> exists u, In u (leaves g) /\ _is_cell u = false
                    /\ _divider u = o).
Proof.
  induction g as [u | l op r n c IHl IHr] using geometry_induction.
  - cbn [_get_leaf_objects leaves]. unfold unit_get_leaf_objects.
    destruct (_is_cell u) eqn:Hc; cbn [fst snd]; split; split.
    + intros ->%elem_of_singleton. exists u. cbn. tauto.
    + intros (u' & [<- | []] & _ & <-). now apply elem_of_singleton.
    + intros []%elem_of_empty.
    + intros (u' & [<- | []] & Hc' & _). congruence.
    + intros []%elem_of_empty.
    + intros (u' & [<- | []] & Hc' & _). congruence.
    + intros ->%elem_of_singleton. exists u. cbn. tauto.
    + intros (u' & [<- | []] & _ & <-). now apply elem_of_singleton.
  - cbn [_get_leaf_objects leaves].
    destruct (_get_leaf_objects l) as [cs ss]. cbn [fst snd] in IHl.
    destruct IHl as [IHc IHs].
    destruct r as [rg |].
    + specialize (IHr rg eq_refl).
      destruct (_get_leaf_objects rg) as [cs' ss']. cbn [fst snd] in *.
      destruct IHr as [IHc' IHs'].
      split; rewrite elem_of_union; split.
      * intros [H | H]; [apply IHc in H | apply IHc' in H];
          destruct H as (u & Hin & H); exists u;
          (split; [apply in_or_app; tauto | exact H]).
      * intros (u & Hin & H). apply in_app_or in Hin as [Hin | Hin];
          [left; apply IHc | right; apply IHc']; eauto.
      * intros [H | H]; [apply IHs in H | apply IHs' in H];
          destruct H as (u & Hin & H); exists u;
          (split; [apply in_or_app; tauto | exact H]).
      * intros (u & Hin & H). apply in_app_or in Hin as [Hin | Hin];
          [left; apply IHs | right; apply IHs']; eauto.
    + cbn [fst snd]. rewrite app_nil_r. split; assumption.
Qed.

(** *** A leaf, from the input and back *)

(** X14: a surface leaf read from the input, resolved and written back
    with nothing changed in between carries the surface's number and
    the opposite of the sign it was read with: parsing takes the side
    as the negation of the sign flag, the write-back stores the side
    as the sign flag. *)
Theorem leaf_round_trip_flips_sign (node : ValueNode) (n : Z)
    (negative : bool) (s : Surface) (cells : gmap Z Cell)
    (surfaces : gmap Z Surface) (cell : Cell) :
  value node = Some n ->
  is_negative node = Some negative ->
  surfaces !! n = Some s ->
  exists u1 u2,
    unit_update_pointers (unit_parse_input_node node false)
      cells surfaces cell = (u1, Ok tt)
    /\ unit_update_values u1 = (u2, Ok tt)
    /\ _node u2 = Some {| value := Some (surface_number s);
                          is_negative := Some (negb negative) |}.
Proof.
  intros Hv Hneg Hs.
  unfold unit_update_pointers, unit_parse_input_node, getitem, not_negative.
  cbn. rewrite Hv, Hneg, Hs. cbn.
  eexists _, _. split; [reflexivity |].
  unfold unit_update_values. cbn. split; [reflexivity |].
  now destruct negative.
Qed.

(** *** Writing the operator back, twice *)

Lemma contains_app (c : ascii) (a b : string) :
  PyStr.contains c (a ++ b)%string
  = PyStr.contains c a || PyStr.contains c b.
Proof.
  induction a as [| d a IH]; [reflexivity |].
  rewrite PyStrFacts.append_cons. cbn [PyStr.contains].
  now rewrite IH, orb_assoc.
Qed.

Lemma contains_join (c : ascii) (s : string) (l : list string) :
  In s l -> PyStr.contains c s = true ->
  PyStr.contains c (PyStr.join l) = true.
Proof.
  intros Hin Hs. induction l as [| t l IH]; [destruct Hin |].
  change (PyStr.join (t :: l)) with (t ++ PyStr.join l)%string.
  rewrite contains_app. destruct Hin as [-> | Hin].
  - now rewrite Hs.
  - rewrite (IH Hin). apply orb_true_r.
Qed.

(** The index the scan stops at lies in the list. *)
Lemma scan_index (ns : list fragment) (i0 total_len midpoint : nat)
    (last : option (nat * fragment)) (i : nat) (node : fragment)
    (total_len' : nat) :
  scan ns i0 total_len midpoint last = (Some (i, node), total_len') ->
  (ns = [] /\ last = Some (i, node)) \/ (i0 <= i < i0 + length ns)%nat.
Proof.
  revert i0 total_len last.
  induction ns as [| n ns IH]; intros i0 total_len last; cbn [scan].
  - intros [= -> _]. left. split; reflexivity.
  - destruct (midpoint <=? total_len + String.length (text n))%nat.
    + intros [= <- _ _]. right. cbn. lia.
    + intros H. apply IH in H as [[-> [= <- _]] | H]; right; cbn; lia.
Qed.

Lemma switch_to_union_shows (p p' : PaddingNode) :
  __switch_operator p ":" = (p', Ok tt) ->
  PyStr.contains ":" (format p') = true.
Proof.
  unfold __switch_operator.
  destruct (replace_all (nodes p)) as [ns | e]; [| discriminate].
  cbn [String.eqb Ascii.eqb Bool.eqb].
  destruct (scan ns 0 0 _ None) as [[[i node] |] total_len] eqn:Hscan;
    [| discriminate].
  intros [= <-].
  apply scan_index in Hscan as [[_ [=]] | Hi].
  unfold format. cbn [nodes].
  eapply contains_join.
  - apply List.in_map. apply list_elem_of_In.
    eapply list_elem_of_lookup_2. apply list_lookup_insert_eq. lia.
  - cbn [text]. rewrite !contains_app. cbn. apply orb_true_r.
Qed.

(** X15: writing the operator back is stable.  Whenever
    [_update_operator] returns, the operator slot shows the operator,
    so that a second call finds nothing to change; and it returns only
    where the slot showed the operator already or the operator is a
    union. *)
Theorem update_operator_is_stable (op : Operator)
    (node node' : option GeometryTree) :
  _update_operator op node = (node', Ok tt) ->
  _update_operator op node' = (node', Ok tt)
  /\ (node' = node \/ op = UNION).
Proof.
  destruct node as [tree |]; [| discriminate].
  destruct (shows op (format (half_space.operator_node tree))) eqn:Hshown.
  - rewrite (HalfSpaceFacts.update_operator_when_shown op tree Hshown).
    intros [= <-].
    rewrite (HalfSpaceFacts.update_operator_when_shown op tree Hshown).
    tauto.
  - destruct op; try discriminate.
    + destruct (HalfSpaceFacts.update_operator_fails_unless_union
                  INTERSECTION tree ltac:(discriminate) Hshown)
        as (n' & e & ->). discriminate.
    + rewrite (HalfSpaceFacts.update_operator_when_not_shown _ _ Hshown).
      cbn [symbol].
      destruct (__switch_operator (half_space.operator_node tree) ":")
        as [p' r] eqn:Hswitch.
      intros [= <- ->]. split; [| now right].
      apply HalfSpaceFacts.update_operator_when_shown.
      cbn [shows half_space.operator_node].
      exact (switch_to_union_shows _ _ Hswitch).
    + destruct (HalfSpaceFacts.update_operator_fails_unless_union
                  COMPLEMENT tree ltac:(discriminate) Hshown)
        as (n' & e & ->). discriminate.
Qed.

(** *** The properties at work *)

Lemma parse_input_node_drops_shifts_witness :
  exists g,
    parse_input_node tree_shifted = Ok g
    /\ ~ In SHIFT (operators g)
    /\ operators g = [INTERSECTION]
    /\ trees g
       = [Some {| half_space.operator_node := PaddingNode_init " " |}]
    /\ Forall (fun c => c = None) (owners g).
Proof.
  eexists. split; [reflexivity |].
  apply (parse_input_node_drops_shifts tree_shifted). reflexivity.
Defined.

Lemma parse_input_node_keeps_leaves_witness :
  exists g,
    parse_input_node tree_shifted = Ok g
    /\ leaves g
       = [unit_parse_input_node (value_node 1 false) false;
          unit_parse_input_node (value_node 2 true) false].
Proof.
  eexists. split; [reflexivity |].
  apply (parse_input_node_keeps_leaves tree_shifted _ false). reflexivity.
Defined.

Lemma update_pointers_links_every_leaf_witness :
  exists g',
    update_pointers one_and_not_two ∅ surfaces_1_2 cell_7 = (g', Ok tt)
    /\ Forall (fun c => c = Some cell_7) (owners g')
    /\ Forall (fun u => resolved u = true) (leaves g')
    /\ operators g' = operators one_and_not_two
    /\ trees g' = trees one_and_not_two
    /\ Forall2 (fun u u' => _side u' = _side u /\ _is_cell u' = _is_cell u
                            /\ _node u' = _node u)
         (leaves one_and_not_two) (leaves g').
Proof.
  eexists. split; [vm_compute; reflexivity |].
  apply (update_pointers_links_every_leaf one_and_not_two _ ∅ surfaces_1_2
           cell_7).
  vm_compute. reflexivity.
Defined.

Lemma composed_half_space_is_not_written_witness :
  _update_values
    (Half one_and_not_two INTERSECTION (Some one_and_not_two) None None)
  = (Half one_and_not_two INTERSECTION (Some one_and_not_two) None None,
     Raise (AttributeError "nodes")).
Proof.
  apply (composed_half_space_is_not_written one_and_not_two
           (PGeom one_and_not_two)).
  left. reflexivity.
Defined.

Lemma leaf_round_trip_flips_sign_witness :
  exists u1 u2,
    unit_update_pointers (unit_parse_input_node (value_node 2 true) false)
      ∅ surfaces_1_2 cell_7 = (u1, Ok tt)
    /\ unit_update_values u1 = (u2, Ok tt)
    /\ _node u2 = Some {| value := Some 2%Z; is_negative := Some false |}.
Proof.
  apply (leaf_round_trip_flips_sign (value_node 2 true) 2 true
           {| surface_number := 2 |} ∅ surfaces_1_2 cell_7);
    reflexivity.
Defined.

Lemma update_operator_is_stable_witness :
  _update_operator UNION
    (Some {| half_space.operator_node := PaddingNode_init ":" |})
  = (Some {| half_space.operator_node := PaddingNode_init ":" |}, Ok tt)
  /\ (Some {| half_space.operator_node := PaddingNode_init ":" |}
      = Some {| half_space.operator_node := PaddingNode_init " " |}
      \/ UNION = UNION).
Proof.
  apply (update_operator_is_stable UNION
           (Some {| half_space.operator_node := PaddingNode_init " " |})).
  reflexivity.
Defined.

End HalfSpaceTreeFacts.

(** ** The names of data cards *)

Module DataCardFacts.
Import data_card.
Local Open Scope Z_scope.

(** *** Runs of a character class *)

Lemma span_spec (p : ascii -> bool) (s run tail : string) :
  span p s = (run, tail) ->
  s = String.append run tail
  /\ all_chars p run = true
  /\ match tail with
     | String c _ => p c = false
     | EmptyString => True
     end.
Proof.
  revert run tail. induction s as [| c s IH]; intros run tail; cbn [span].
  - intros [= <- <-]. repeat split.
  - destruct (p c) eqn:Hc.
    + destruct (span p s) as [run' tail'].
      intros [= <- <-]. destruct (IH _ _ eq_refl) as (-> & Hall & Htail).
      repeat split; [| exact Htail]. cbn. now rewrite Hc, Hall.
    + intros [= <- <-]. repeat split. exact Hc.
Qed.

Lemma span_append (p : ascii -> bool) (run tail : string) :
  all_chars p run = true ->
  match tail with String c _ => p c = false | EmptyString => True end ->
  span p (String.append run tail) = (run, tail).
Proof.
  intros Hall Htail. induction run as [| c run IH].
  - rewrite PyStrFacts.append_nil_l.
    destruct tail as [| c tail]; [reflexivity |].
    cbn [span]. now rewrite Htail.
  - rewrite PyStrFacts.append_cons. cbn [span].
    cbn [all_chars] in Hall. apply andb_true_iff in Hall as [-> Hall].
    now rewrite (IH Hall).
Qed.

(** *** Case *)

Ltac by_cases_on_char c :=
  destruct c as [[] [] [] [] [] [] [] []]; vm_compute; reflexivity.

Lemma is_prefix_char_lower (c : ascii) :
  is_prefix_char (lower_char c) = is_prefix_char c.
Proof. by_cases_on_char c. Qed.

Lemma is_number_char_lower (c : ascii) :
  is_number_char (lower_char c) = is_number_char c.
Proof. by_cases_on_char c. Qed.

Lemma is_classifier_char_lower (c : ascii) :
  is_classifier_char (lower_char c) = is_classifier_char c.
Proof. by_cases_on_char c. Qed.

Lemma lower_char_idem (c : ascii) : lower_char (lower_char c) = lower_char c.
Proof. by_cases_on_char c. Qed.

Lemma lower_char_number (c : ascii) :
  is_number_char c = true -> lower_char c = c.
Proof.
  destruct c as [[] [] [] [] [] [] [] []]; vm_compute;
    (reflexivity || discriminate).
Qed.

Lemma lower_char_colon (c : ascii) :
  Ascii.eqb (lower_char c) ":" = Ascii.eqb c ":".
Proof. by_cases_on_char c. Qed.

Lemma lower_char_newline (c : ascii) :
  Ascii.eqb (lower_char c) "010" = Ascii.eqb c "010".
Proof. by_cases_on_char c. Qed.

Lemma lower_idem (s : string) : lower (lower s) = lower s.
Proof.
  induction s as [| c s IH]; [reflexivity |].
  cbn [lower]. now rewrite lower_char_idem, IH.
Qed.

Lemma lower_number (s : string) :
  all_chars is_number_char s = true -> lower s = s.
Proof.
  induction s as [| c s IH]; [reflexivity |].
  cbn [all_chars lower]. intros [Hc Hs]%andb_true_iff.
  now rewrite (lower_char_number c Hc), (IH Hs).
Qed.

Lemma span_lower (p : ascii -> bool) (s : string) :
  (forall c, p (lower_char c) = p c) ->
  span p (lower s) = (lower (fst (span p s)), lower (snd (span p s))).
Proof.
  intros Hp. induction s as [| c s IH]; [reflexivity |].
  cbn [lower span]. rewrite Hp.
  destruct (p c); [| reflexivity].
  rewrite IH. destruct (span p s) as [run tail]. reflexivity.
Qed.

Lemma at_end_lower (s : string) : at_end (lower s) = at_end s.
Proof.
  destruct s as [| c [| d s]]; cbn; try reflexivity.
  apply lower_char_newline.
Qed.

(** The groups of a match with their letters lowered. *)
Lemma name_parser_match_lower (name : string) :
  _NAME_PARSER_match (lower name)
  = match _NAME_PARSER_match name with
    | Some g =>
        Some {| group_prefix := lower (group_prefix g);
                group_number := group_number g;
                group_classifier :=
                  match group_classifier g with
                  | Some c => Some (lower c)
                  | None => None
                  end |}
    | None => None
    end.
Proof.
  unfold _NAME_PARSER_match.
  rewrite (span_lower _ name is_prefix_char_lower).
  destruct (span is_prefix_char name) as [prefix after_prefix].
  cbn [fst snd].
  destruct prefix as [| p0 prefix]; [reflexivity |].
  cbn [lower].
  rewrite (span_lower _ after_prefix is_number_char_lower).
  destruct (span is_number_char after_prefix) as [number after_number] eqn:Hn.
  cbn [fst snd].
  apply span_spec in Hn as (_ & Hnumber & _).
  rewrite (lower_number number Hnumber).
  destruct after_number as [| c tail].
  { cbn. reflexivity. }
  cbn [lower].
  assert (Hcolon := lower_char_colon c).
  destruct (Ascii.eqb c ":") eqn:Hc.
  - apply Ascii.eqb_eq in Hc. subst c.
    change (lower_char ":") with ":"%char.
    rewrite (span_lower _ tail is_classifier_char_lower).
    destruct (span is_classifier_char tail) as [run rest]. cbn [fst snd].
    destruct run as [| r0 run].
    + cbn [lower].
      change (String ":" (lower tail)) with (lower (String ":" tail)).
      rewrite at_end_lower.
      destruct (at_end (String ":" tail)); reflexivity.
    + cbn [lower]. rewrite at_end_lower.
      destruct (at_end rest); reflexivity.
  - assert (forall (A : Type) (d : ascii) (t : string) (x y : A),
              Ascii.eqb d ":" = false ->
              match String d t with
              | String ":" tl => x
              | _ => y
              end = y) as Hother.
    { intros A d t x y Hd.
      destruct d as [[] [] [] [] [] [] [] []]; (reflexivity || discriminate). }
    assert (forall (A : Type) (d : ascii) (t : string) (f : string -> A) (y : A),
              Ascii.eqb d ":" = false ->
              match String d t with
              | String ":" tl => f tl
              | _ => y
              end = y) as Hother'.
    { intros A d t f y Hd.
      destruct d as [[] [] [] [] [] [] [] []]; (reflexivity || discriminate). }
    rewrite (Hother' _ (lower_char c) (lower tail)
               (fun tl =>
                  let (run, rest) := span is_classifier_char tl in
                  match run with
                  | EmptyString => (None, String (lower_char c) (lower tail))
                  | String _ _ => (Some (String ":" run), rest)
                  end)) by (now rewrite Hcolon).
    rewrite (Hother' _ c tail
               (fun tl =>
                  let (run, rest) := span is_classifier_char tl in
                  match run with
                  | EmptyString => (None, String c tail)
                  | String _ _ => (Some (String ":" run), rest)
                  end)) by exact Hc.
    change (String (lower_char c) (lower tail)) with (lower (String c tail)).
    rewrite at_end_lower.
    destruct (at_end (String c tail)); reflexivity.
Qed.

Lemma split_name_lower (name : string) (ws : list string) :
  ending_map identity (__split_name (lower name :: ws))
  = ending_map identity (__split_name (name :: ws)).
Proof.
  unfold __split_name. rewrite name_parser_match_lower.
  destruct (_NAME_PARSER_match name) as [g |]; [| reflexivity].
  cbn [group_number group_prefix group_classifier].
  destruct (group_number g) as [number |].
  - destruct (int number); [| reflexivity].
    cbn [ending_map]. unfold identity, prefix, particle_classifier. cbn.
    rewrite lower_idem. destruct (group_classifier g); [| reflexivity].
    now rewrite lower_idem.
  - cbn [ending_map]. unfold identity, prefix, particle_classifier. cbn.
    rewrite lower_idem. destruct (group_classifier g); [| reflexivity].
    now rewrite lower_idem.
Qed.

(** X16: the name of a data card is read without regard to case.  Two
    first words that differ in the case of their letters only give the
    same number, the same prefix and the same particle classifier, or
    fail the same way. *)
Theorem split_name_ignores_case (name name' : string)
    (ws ws' : list string) :
  lower name = lower name' ->
  ending_map identity (__split_name (name :: ws))
  = ending_map identity (__split_name (name' :: ws')).
Proof.
  intros H.
  rewrite <- (split_name_lower name ws), <- (split_name_lower name' ws'), H.
  unfold __split_name. reflexivity.
Qed.

(** X17: what [__split_name] sets is a partition of the first word:
    the word is the prefix, a non-empty run of letters and stars; then
    the text of the number, a run of digits and hyphens that [int]
    accepts, empty when the card has no number; then the classifier, a
    colon and a non-empty run of letters, colons and commas, if there
    is one; and nothing else but, at most, a final newline. *)
Theorem split_name_partitions_word (word : string) (ws : list string)
    (card : name) :
  __split_name (word :: ws) = Returns card ->
  exists number_text tail,
    word = String.append (_prefix card)
             (String.append number_text
                (String.append (text_of (_classifier card)) tail))
    /\ _prefix card <> EmptyString
    /\ all_chars is_prefix_char (_prefix card) = true
    /\ all_chars is_number_char number_text = true
    /\ match _input_number card with
       | Some n => int number_text = Ok n
       | None => number_text = EmptyString
       end
    /\ match _classifier card with
       | Some c =>
           exists run,
             c = String ":" run /\ run <> EmptyString
             /\ all_chars is_classifier_char run = true
       | None => True
       end
    /\ (tail = EmptyString \/ tail = String "010" EmptyString).
Proof.
  unfold __split_name, _NAME_PARSER_match.
  destruct (span is_prefix_char word) as [prefix after_prefix] eqn:Hp.
  apply span_spec in Hp as (-> & Hprefix & _).
  destruct prefix as [| p0 prefix]; [discriminate |].
  destruct (span is_number_char after_prefix) as [number after_number] eqn:Hn.
  apply span_spec in Hn as (-> & Hnumber & _).
  assert (Hend : forall rest,
            at_end rest = true ->
            rest = EmptyString \/ rest = String "010" EmptyString).
  { intros [| c [| d rest]]; cbn; try discriminate; [now left |].
    intros ->%Ascii.eqb_eq. now right. }
  assert (Hfinish : forall classifier rest,
            after_number = String.append (text_of classifier) rest ->
            match classifier with
            | Some c =>
                exists run,
                  c = String ":" run /\ run <> EmptyString
                  /\ all_chars is_classifier_char run = true
            | None => True
            end ->
            match
              (if at_end rest
               then Some {| group_prefix := String p0 prefix;
                            group_number :=
                              match number with
                              | EmptyString => None
                              | String _ _ => Some number
                              end;
                            group_classifier := classifier |}
               else None)
            with
            | Some match_dict =>
                match group_number match_dict with
                | Some number0 =>
                    match int number0 with
                    | Ok n =>
                        Returns {| _input_number := Some n;
                                   _prefix := group_prefix match_dict;
                                   _classifier :=
                                     group_classifier match_dict |}
                    | Raise e => Raises e
                    end
                | None =>
                    Returns {| _input_number := None;
                               _prefix := group_prefix match_dict;
                               _classifier := group_classifier match_dict |}
                end
            | None => AssertionError
            end = Returns card ->
            exists number_text tail,
              String.append (String p0 prefix)
                (String.append number after_number)
              = String.append (_prefix card)
                  (String.append number_text
                     (String.append (text_of (_classifier card)) tail))
              /\ _prefix card <> EmptyString
              /\ all_chars is_prefix_char (_prefix card) = true
              /\ all_chars is_number_char number_text = true
              /\ match _input_number card with
                 | Some n => int number_text = Ok n
                 | None => number_text = EmptyString
                 end
              /\ match _classifier card with
                 | Some c =>
                     exists run,
                       c = String ":" run /\ run <> EmptyString
                       /\ all_chars is_classifier_char run = true
                 | None => True
                 end
              /\ (tail = EmptyString \/ tail = String "010" EmptyString)).
  { intros classifier rest -> Hclass.
    destruct (at_end rest) eqn:Hrest; [| discriminate].
    apply Hend in Hrest.
    destruct number as [| n0 number]; cbn [group_number].
    - intros [= <-]. exists EmptyString, rest. cbn.
      repeat split; (assumption || discriminate || reflexivity).
    - destruct (int (String n0 number)) as [n |] eqn:Hint; [| discriminate].
      intros [= <-]. exists (String n0 number), rest. cbn - [int].
      repeat split; (assumption || discriminate || reflexivity). }
  destruct after_number as [| c tail].
  { apply (Hfinish None EmptyString); [reflexivity | exact I]. }
  destruct (Ascii.eqb c ":") eqn:Hc.
  - apply Ascii.eqb_eq in Hc. subst c.
    destruct (span is_classifier_char tail) as [run rest] eqn:Hr.
    apply span_spec in Hr as (-> & Hrun & _).
    destruct run as [| r0 run].
    + apply (Hfinish None); [reflexivity | exact I].
    + apply (Hfinish (Some (String ":" (String r0 run))) rest);
        [reflexivity |].
      eexists. repeat split; [discriminate | exact Hrun].
  - assert ((match String c tail with
              | String ":" tl =>
                  let (run, rest) := span is_classifier_char tl in
                  match run with
                  | EmptyString => (None, String c tail)
                  | String _ _ => (Some (String ":" run), rest)
                  end
              | _ => (None, String c tail)
              end) = (None, String c tail)) as ->.
    { destruct c as [[] [] [] [] [] [] [] []];
        (reflexivity || discriminate). }
    apply (Hfinish None); [reflexivity | exact I].
Qed.

(** *** Building a name and reading it back *)

Lemma all_chars_forallb (p : ascii -> bool) (s : string) :
  all_chars p s = forallb p (list_ascii_of_string s).
Proof. induction s as [| c s IH]; [reflexivity |]. cbn. now rewrite IH. Qed.

Lemma all_chars_weaken (p q : ascii -> bool) (s : string) :
  (forall c, p c = true -> q c = true) ->
  all_chars p s = true -> all_chars q s = true.
Proof.
  intros Hpq. induction s as [| c s IH]; [reflexivity |].
  cbn. intros [Hc Hs]%andb_true_iff. now rewrite (Hpq c Hc), (IH Hs).
Qed.

Lemma is_digit_number_char (c : ascii) :
  number.is_digit c = true -> is_number_char c = true.
Proof. unfold is_number_char. now intros ->. Qed.

Lemma is_digit_not_hyphen (c : ascii) :
  number.is_digit c = true -> Ascii.eqb c "-" = false.
Proof.
  destruct c as [[] [] [] [] [] [] [] []]; vm_compute;
    (reflexivity || discriminate).
Qed.

Lemma int_of_digit_text (c : ascii) (t : string) :
  forallb number.is_digit (c :: list_ascii_of_string t) = true ->
  int (String c t)
  = Ok (number.digits_value
          (List.map number.digit_of (c :: list_ascii_of_string t))).
Proof.
  intros H.
  assert (Hc : number.is_digit c = true)
    by (cbn [forallb] in H; now apply andb_true_iff in H as [-> _]).
  unfold int.
  destruct c as [[] [] [] [] [] [] [] []];
    try (vm_compute in Hc; discriminate Hc);
    cbv beta iota zeta; cbn [list_ascii_of_string]; rewrite H; reflexivity.
Qed.

(** [int] undoes [str] on every integer. *)
Lemma int_str (n : Z) :
  int (isotope_objects.str_of_Z n) = Ok n
  /\ all_chars is_number_char (isotope_objects.str_of_Z n) = true
  /\ isotope_objects.str_of_Z n <> EmptyString.
Proof.
  assert (Hnat : forall m, 0 <= m ->
            let s := number.string_of_digits (number.decimal_digits m) in
            s <> EmptyString
            /\ forallb number.is_digit (list_ascii_of_string s) = true
            /\ number.digits_value
                 (List.map number.digit_of (list_ascii_of_string s)) = m).
  { intros m Hm s.
    destruct (DecimalFacts.string_of_digits_spec _
                (DecimalFacts.decimal_digits_digits m Hm)) as [H1 H2].
    split; [| split].
    - apply DecimalFacts.string_of_digits_nonempty,
        DecimalFacts.decimal_digits_nonempty.
    - exact H1.
    - unfold s. rewrite H2. now apply DecimalFacts.decimal_digits_value. }
  unfold isotope_objects.str_of_Z.
  destruct (n <? 0) eqn:Hneg.
  - apply Z.ltb_lt in Hneg.
    destruct (Hnat (- n) ltac:(lia)) as (Hne & Hall & Hval).
    set (s := number.string_of_digits (number.decimal_digits (- n))) in *.
    split; [| split; [| discriminate]].
    + unfold int. destruct s as [| c t]; [congruence |].
      rewrite Hall, Hval. f_equal. lia.
    + cbn [all_chars]. rewrite all_chars_forallb.
      change (is_number_char "-") with true. cbn [andb].
      rewrite <- all_chars_forallb in Hall |- *.
      exact (all_chars_weaken _ _ _ is_digit_number_char Hall).
  - apply Z.ltb_ge in Hneg.
    destruct (Hnat n Hneg) as (Hne & Hall & Hval).
    set (s := number.string_of_digits (number.decimal_digits n)) in *.
    split; [| split; [| exact Hne]].
    + destruct s as [| c t] eqn:Hs; [congruence |].
      rewrite int_of_digit_text by exact Hall.
      cbn [list_ascii_of_string] in Hval. now rewrite Hval.
    + rewrite <- all_chars_forallb in Hall.
      exact (all_chars_weaken _ _ _ is_digit_number_char Hall).
Qed.

Lemma starts_outside_append (p q : ascii -> bool) (s t : string) :
  (forall c, q c = true -> p c = false) ->
  s <> EmptyString -> all_chars q s = true ->
  starts_outside p (String.append s t).
Proof.
  intros Hqp Hne Hall. destruct s as [| c s]; [congruence |].
  rewrite PyStrFacts.append_cons. cbn in *.
  apply andb_true_iff in Hall as [Hc _]. now apply Hqp.
Qed.

Lemma number_char_not_prefix (c : ascii) :
  is_number_char c = true -> is_prefix_char c = false.
Proof.
  destruct c as [[] [] [] [] [] [] [] []]; vm_compute;
    (reflexivity || discriminate).
Qed.

Lemma span_whole (p : ascii -> bool) (s : string) :
  all_chars p s = true -> span p s = (s, EmptyString).
Proof.
  intros H. rewrite <- (PyStrFacts.append_nil_r s) at 1.
  now apply span_append.
Qed.

(** X18: a name put together from its parts is read back as those
    parts.  For a prefix of letters and stars, a number or none, and a
    run of particles or none, [__split_name] on the prefix followed by
    the number's decimal text and by the colon and the run gives
    exactly the prefix, the number and the classifier. *)
Theorem split_name_reads_back (letters : string) (number : option Z)
    (particles : option string) (ws : list string) :
  letters <> EmptyString ->
  all_chars is_prefix_char letters = true ->
  match particles with
  | Some run =>
      run <> EmptyString /\ all_chars is_classifier_char run = true
  | None => True
  end ->
  __split_name
    (String.append letters
       (String.append (number_text number)
          (text_of (classifier_text particles))) :: ws)
  = Returns {| _input_number := number; _prefix := letters;
               _classifier := classifier_text particles |}.
Proof.
  intros Hne Hletters Hparticles.
  set (cls := text_of (classifier_text particles)).
  assert (Hcls_prefix : starts_outside is_prefix_char cls).
  { unfold cls. destruct particles; cbn; [reflexivity | exact I]. }
  assert (Hcls_number : starts_outside is_number_char cls).
  { unfold cls. destruct particles; cbn; [reflexivity | exact I]. }
  assert (Hnum : all_chars is_number_char (number_text number) = true).
  { destruct number as [n |]; [apply int_str | reflexivity]. }
  unfold __split_name, _NAME_PARSER_match.
  rewrite (span_append is_prefix_char letters _ Hletters).
  2:{ destruct number as [n |].
      - apply (starts_outside_append _ is_number_char);
          [exact number_char_not_prefix | apply int_str | apply int_str].
      - cbn [number_text]. rewrite PyStrFacts.append_nil_l.
        exact Hcls_prefix. }
  destruct letters as [| l0 letters]; [congruence |].
  rewrite (span_append is_number_char _ cls Hnum Hcls_number).
  assert (Hrest :
            (match cls with
             | String ":" tail =>
                 let (run, rest) := span is_classifier_char tail in
                 match run with
                 | EmptyString => (None, cls)
                 | String _ _ => (Some (String ":" run), rest)
                 end
             | _ => (None, cls)
             end) = (classifier_text particles, EmptyString)).
  { unfold cls. destruct particles as [run |]; [| reflexivity].
    destruct Hparticles as [Hrun Hall]. cbn [classifier_text text_of].
    rewrite (span_whole _ _ Hall).
    destruct run; [congruence | reflexivity]. }
  rewrite Hrest. cbn [at_end group_number group_prefix group_classifier].
  destruct number as [n |]; cbn [number_text]; [| reflexivity].
  destruct (int_str n) as (Hint & _ & Hnonempty).
  destruct (isotope_objects.str_of_Z n) as [| c t] eqn:Hs; [congruence |].
  now rewrite Hint.
Qed.

(** *** The order of data cards *)











(** *** The properties at work *)

Lemma split_name_ignores_case_witness :
  ending_map identity (__split_name ["F14:N,p"%string; "1"%string])
  = ending_map identity (__split_name ["f14:n,P"%string]).
Proof.
  apply (split_name_ignores_case "F14:N,p" "f14:n,P"). reflexivity.
Defined.

Lemma split_name_partitions_word_witness :
  exists number_text tail,
    "F14:n,p"%string
    = String.append (_prefix tally_name)
        (String.append number_text
           (String.append (text_of (_classifier tally_name)) tail))
    /\ _prefix tally_name <> EmptyString
    /\ all_chars is_prefix_char (_prefix tally_name) = true
    /\ all_chars is_number_char number_text = true
    /\ match _input_number tally_name with
       | Some n => int number_text = Ok n
       | None => number_text = EmptyString
       end
    /\ match _classifier tally_name with
       | Some c =>
           exists run,
             c = String ":" run /\ run <> EmptyString
             /\ all_chars is_classifier_char run = true
       | None => True
       end
    /\ (tail = EmptyString \/ tail = String "010" EmptyString).
Proof.
  apply (split_name_partitions_word "F14:n,p" [] tally_name). reflexivity.
Defined.

Lemma split_name_reads_back_witness :
  __split_name
    [String.append "F"
       (String.append (number_text (Some 14))
          (text_of (classifier_text (Some "n,p"%string))))]
  = Returns tally_name.
Proof.
  apply (split_name_reads_back "F" (Some 14) (Some "n,p"%string) []).
  - discriminate.
  - reflexivity.
  - split; [discriminate | reflexivity].
Defined.


End DataCardFacts.

(** ** The content of wrapped text *)

Module WrapContentFacts.
Import textwrap text_content constants mcnp_card.

Lemma squeeze_append (a b : string) :
  squeeze (String.append a b) = String.append (squeeze a) (squeeze b).
Proof.
  induction a as [| c a IH]; [reflexivity |].
  rewrite PyStrFacts.append_cons. cbn [squeeze].
  destruct (PyStr.is_whitespace c); [exact IH |].
  now rewrite PyStrFacts.append_cons, IH.
Qed.

Lemma squeeze_blank (s : string) :
  PyStr.all_whitespace s = true -> squeeze s = EmptyString.
Proof.
  induction s as [| c s IH]; [reflexivity |].
  cbn. intros [-> Hs]%andb_true_iff. exact (IH Hs).
Qed.

Lemma squeeze_spaces (n : nat) : squeeze (PyStr.spaces n) = EmptyString.
Proof. induction n as [| n IH]; [reflexivity | exact IH]. Qed.

Lemma squeeze_join_app (l1 l2 : list string) :
  squeeze (PyStr.join (l1 ++ l2))
  = String.append (squeeze (PyStr.join l1)) (squeeze (PyStr.join l2)).
Proof. now rewrite PyStrFacts.join_app, squeeze_append. Qed.

Lemma squeeze_join_cons (c : string) (l : list string) :
  squeeze (PyStr.join (c :: l))
  = String.append (squeeze c) (squeeze (PyStr.join l)).
Proof. now rewrite TextwrapFacts.join_cons, squeeze_append. Qed.

Lemma join_filter_nonempty (l : list string) :
  PyStr.join (List.filter (fun c => negb (String.eqb c EmptyString)) l)
  = PyStr.join l.
Proof.
  induction l as [| c l IH]; [reflexivity |].
  cbn [List.filter]. destruct c as [| a c]; cbn [String.eqb negb].
  - rewrite IH. reflexivity.
  - rewrite !TextwrapFacts.join_cons. now rewrite IH.
Qed.

(** The inner loops move chunks and cut one of them; they lose
    nothing. *)
Lemma fill_content (chunks cur_line : list string) (cur_len width : Z)
    (cur_line' : list string) (cur_len' : Z) (rest : list string) :
  fill chunks cur_line cur_len width = (cur_line', cur_len', rest) ->
  (cur_line' ++ rest = cur_line ++ chunks)%list.
Proof.
  revert cur_line cur_len.
  induction chunks as [| c chunks IH]; intros cur_line cur_len; cbn [fill].
  - intros [= <- _ <-]. reflexivity.
  - destruct (cur_len + len c <=? width)%Z.
    + intros H. apply IH in H. rewrite H, <- app_assoc. reflexivity.
    + intros [= <- _ <-]. reflexivity.
Qed.

Lemma break_long_content (chunks cur_line : list string) (cur_len width : Z)
    (cur_line' chunks' : list string) :
  break_long chunks cur_line cur_len width = (cur_line', chunks') ->
  PyStr.join (cur_line' ++ chunks') = PyStr.join (cur_line ++ chunks).
Proof.
  unfold break_long. destruct chunks as [| c rest].
  - intros [= <- <-]. reflexivity.
  - destruct (width <? len c)%Z; [| intros [= <- <-]; reflexivity].
    unfold _handle_long_word. intros [= <- <-].
    rewrite <- app_assoc. cbn [app].
    rewrite !PyStrFacts.join_app, !TextwrapFacts.join_cons.
    f_equal. rewrite <- PyStrFacts.append_assoc.
    now rewrite PyStrFacts.take_drop.
Qed.

Lemma drop_trailing_blank_content (cur_line : list string) :
  squeeze (PyStr.join (drop_trailing_blank cur_line))
  = squeeze (PyStr.join cur_line).
Proof.
  unfold drop_trailing_blank.
  destruct cur_line as [| x l _] using rev_ind; [reflexivity |].
  rewrite List.map_app. cbn [List.map]. rewrite List.last_last.
  destruct (PyStr.all_whitespace x) eqn:Hx; [| reflexivity].
  rewrite removelast_last, squeeze_join_app.
  rewrite TextwrapFacts.join_singleton, (squeeze_blank x Hx).
  now rewrite PyStrFacts.append_nil_r.
Qed.

Lemma build_line_content (chunks : list string) (width : Z)
    (cur_line chunks' : list string) :
  build_line chunks width = (cur_line, chunks') ->
  squeeze (PyStr.join chunks)
  = String.append (squeeze (PyStr.join cur_line))
      (squeeze (PyStr.join chunks')).
Proof.
  unfold build_line.
  destruct (fill chunks [] 0 width) as [[line1 len1] rest1] eqn:Hfill.
  destruct (break_long rest1 line1 len1 width) as [line2 rest2] eqn:Hbreak.
  intros [= <- <-].
  apply fill_content in Hfill. apply break_long_content in Hbreak.
  cbn [app] in Hfill. rewrite <- Hfill, <- Hbreak.
  now rewrite squeeze_join_app, drop_trailing_blank_content.
Qed.

Lemma skip_blank_content (chunks lines : list string) :
  squeeze (PyStr.join (skip_blank chunks lines))
  = squeeze (PyStr.join chunks).
Proof.
  unfold skip_blank. destruct chunks as [| c rest]; [reflexivity |].
  destruct lines as [| l lines]; [reflexivity |].
  destruct (PyStr.all_whitespace c) eqn:Hc; [| reflexivity].
  now rewrite squeeze_join_cons, (squeeze_blank c Hc).
Qed.

Section Wrapper.

Variable width : Z.
Variable initial_indent subsequent_indent : string.
Hypothesis initial_blank : PyStr.all_whitespace initial_indent = true.
Hypothesis subsequent_blank : PyStr.all_whitespace subsequent_indent = true.

Lemma wrap_step_content (chunks lines chunks' lines' : list string) :
  wrap_step width initial_indent subsequent_indent chunks lines
  = (chunks', lines') ->
  String.append (squeeze (PyStr.join lines')) (squeeze (PyStr.join chunks'))
  = String.append (squeeze (PyStr.join lines)) (squeeze (PyStr.join chunks)).
Proof.
  unfold wrap_step.
  set (indent := match lines with
                 | [] => initial_indent
                 | _ => subsequent_indent
                 end).
  assert (Hindent : squeeze indent = EmptyString).
  { apply squeeze_blank. unfold indent. now destruct lines. }
  destruct (build_line (skip_blank chunks lines) (width - len indent))
    as [cur_line rest] eqn:Hline.
  apply build_line_content in Hline. rewrite skip_blank_content in Hline.
  rewrite Hline.
  destruct cur_line as [| c cur_line].
  - intros [= <- <-]. reflexivity.
  - intros [= <- <-].
    rewrite squeeze_join_app, TextwrapFacts.join_singleton, squeeze_append.
    rewrite Hindent, PyStrFacts.append_nil_l.
    now rewrite PyStrFacts.append_assoc.
Qed.

Lemma wrap_loop_content (fuel : nat) (chunks lines lines' : list string) :
  wrap_loop width initial_indent subsequent_indent fuel chunks lines
  = Ok lines' ->
  squeeze (PyStr.join lines')
  = String.append (squeeze (PyStr.join lines)) (squeeze (PyStr.join chunks)).
Proof.
  revert chunks lines.
  induction fuel as [| fuel IH]; intros chunks lines; cbn [wrap_loop].
  - destruct chunks; [| discriminate].
    intros [= <-]. now rewrite PyStrFacts.append_nil_r.
  - destruct chunks as [| c chunks].
    + intros [= <-]. now rewrite PyStrFacts.append_nil_r.
    + destruct (wrap_step _ _ _ (c :: chunks) lines) as [chunks' lines1]
        eqn:Hstep.
      intros H. apply IH in H. rewrite H.
      exact (wrap_step_content _ _ _ _ Hstep).
Qed.

Lemma wrap_content (wordsep_split : string -> list string) (text : string)
    (lines : list string) :
  wrap width initial_indent subsequent_indent wordsep_split text = Ok lines ->
  squeeze (PyStr.join lines) = squeeze (PyStr.join (wordsep_split text)).
Proof.
  unfold wrap, _wrap_chunks. destruct (width <=? 0)%Z; [discriminate |].
  intros H. apply wrap_loop_content in H. rewrite H.
  unfold _split_chunks. rewrite join_filter_nonempty. reflexivity.
Qed.

End Wrapper.

Lemma all_whitespace_spaces (n : nat) :
  PyStr.all_whitespace (PyStr.spaces n) = true.
Proof. induction n as [| n IH]; [reflexivity | exact IH]. Qed.

Lemma squeeze_join_words (ws : list string) :
  squeeze (join_words ws) = PyStr.join (List.map squeeze ws).
Proof.
  induction ws as [| w ws IH]; [reflexivity |].
  destruct ws as [| w' ws].
  - cbn. now rewrite PyStrFacts.append_nil_r.
  - change (join_words (w :: w' :: ws))
      with (String.append w (String " " (join_words (w' :: ws)))).
    rewrite squeeze_append.
    change (squeeze (String " " (join_words (w' :: ws))))
      with (squeeze (join_words (w' :: ws))).
    rewrite IH. reflexivity.
Qed.

(** The wrapper returns, its lines fit, and they hold the text. *)
Lemma wrap_string_for_mcnp_returns (BLANK_SPACE_CONTINUE : nat)
    (wordsep_split : string -> list string) (text : string) (v : version)
    (is_first_line : bool) (line_length : nat) :
  keeps_content wordsep_split ->
  get_max_line_length v = Ok line_length ->
  (BLANK_SPACE_CONTINUE < line_length)%nat ->
  exists lines,
    wrap_string_for_mcnp BLANK_SPACE_CONTINUE wordsep_split text v
      is_first_line = Ok lines
    /\ Forall (fun line => (String.length line <= line_length)%nat) lines
    /\ squeeze (PyStr.join lines) = squeeze text.
Proof.
  intros Hsplit Hv Hindent. unfold wrap_string_for_mcnp.
  rewrite Hv; cbn [bind].
  set (initial := if is_first_line then 0%nat else BLANK_SPACE_CONTINUE).
  destruct (TextwrapFacts.wrap_wrapped (Z.of_nat line_length)
              (PyStr.spaces initial) (PyStr.spaces BLANK_SPACE_CONTINUE))
    with (wordsep_split := wordsep_split) (text := text)
    as (lines & Hwrap & Hlines).
  - unfold textwrap.len. rewrite PyStrFacts.length_spaces.
    unfold initial. destruct is_first_line; lia.
  - unfold textwrap.len. rewrite PyStrFacts.length_spaces. lia.
  - exists lines. split; [exact Hwrap |]. split.
    + destruct lines as [| first rest]; [constructor |].
      destruct Hlines as [(body & _ & Hlen & _) Hrest].
      constructor; [unfold textwrap.len in Hlen; lia |].
      eapply List.Forall_impl; [| exact Hrest].
      intros line (body' & _ & Hl & _). unfold textwrap.len in Hl. lia.
    + rewrite <- (Hsplit text).
      eapply wrap_content; [| | exact Hwrap]; apply all_whitespace_spaces.
Qed.

(** X20: wrapping loses nothing and reorders nothing.  For a version
    that has a line length and a continuation indent shorter than it,
    [wrap_string_for_mcnp] returns lines that, read one after the
    other without their whitespace, are the text without its
    whitespace: the wrapper adds, drops and moves blanks only, given a
    word splitter that does the same. *)
Theorem wrap_string_for_mcnp_keeps_text (BLANK_SPACE_CONTINUE : nat)
    (wordsep_split : string -> list string) (text : string) (v : version)
    (is_first_line : bool) (line_length : nat) :
  keeps_content wordsep_split ->
  get_max_line_length v = Ok line_length ->
  (BLANK_SPACE_CONTINUE < line_length)%nat ->
  exists lines,
    wrap_string_for_mcnp BLANK_SPACE_CONTINUE wordsep_split text v
      is_first_line = Ok lines
    /\ squeeze (PyStr.join lines) = squeeze text.
Proof.
  intros Hsplit Hv Hindent.
  destruct (wrap_string_for_mcnp_returns BLANK_SPACE_CONTINUE wordsep_split
              text v is_first_line line_length Hsplit Hv Hindent)
    as (lines & Hwrap & _ & Hcontent).
  eauto.
Qed.

Section Formatting.

Variable comment_format : version -> Comment -> result (list string).
Variable BLANK_SPACE_CONTINUE : nat.
Variable wordsep_split : string -> list string.

(** What the loop over the comments comes to: the blocks of the
    comments in order, or the error of a comment. *)
Lemma render_all_spec (v : version) (cs : list Comment) :
  match render_all comment_format v cs with
  | Ok rendered =>
      exists blocks,
        Forall2 (fun c block => comment_format v c = Ok block) cs blocks
        /\ rendered = concat blocks
  | Raise e => exists c, In c cs /\ comment_format v c = Raise e
  end.
Proof.
  induction cs as [| c cs IH]; cbn [render_all].
  - exists []. split; [constructor | reflexivity].
  - destruct (comment_format v c) as [block | e] eqn:Hc; cbn [bind].
    + destruct (render_all comment_format v cs) as [rendered | e];
        cbn [bind].
      * destruct IH as (blocks & Hblocks & ->).
        exists (block :: blocks). split; [now constructor | reflexivity].
      * destruct IH as (c' & Hin & Hraise).
        exists c'. split; [now right | exact Hraise].
    + exists c. split; [now left | exact Hc].
Qed.

(** X21: a mutated data card is written as all its comments, in
    order, followed by its words wrapped from the first column: every
    wrapped line fits the line length of the version, and the wrapped
    lines hold the words' characters in order.  Where a comment cannot
    be rendered its error is raised, and for a version without a line
    length formatting a mutated card raises. *)
Theorem mutated_card_is_rewrapped (self : Card) (v : version) :
  keeps_content wordsep_split ->
  mutated self = true ->
  match render_all comment_format v (comments self) with
  | Ok rendered =>
      (exists blocks,
         Forall2 (fun c block => comment_format v c = Ok block)
           (comments self) blocks
         /\ rendered = concat blocks)
      /\ match get_max_line_length v with
         | Ok line_length =>
             (BLANK_SPACE_CONTINUE < line_length)%nat ->
             exists wrapped,
               format_for_mcnp_input comment_format BLANK_SPACE_CONTINUE
                 wordsep_split self v
               = Ok (rendered ++ wrapped)
               /\ Forall (fun line => (String.length line <= line_length)%nat)
                    wrapped
               /\ squeeze (PyStr.join wrapped)
                  = PyStr.join (List.map squeeze (words self))
         | Raise e =>
             format_for_mcnp_input comment_format BLANK_SPACE_CONTINUE
               wordsep_split self v = Raise e
         end
  | Raise e =>
      (exists c, In c (comments self) /\ comment_format v c = Raise e)
      /\ format_for_mcnp_input comment_format BLANK_SPACE_CONTINUE
           wordsep_split self v = Raise e
  end.
Proof.
  intros Hsplit Hmut.
  pose proof (render_all_spec v (comments self)) as Hspec.
  unfold format_for_mcnp_input, wrap_words_for_mcnp,
    base_format_for_mcnp_input.
  rewrite Hmut. cbn [negb].
  assert (Hbase :
            match comments self with
            | [] => Ok []
            | _ :: _ => render_all comment_format v (comments self)
            end = render_all comment_format v (comments self))
    by (now destruct (comments self)).
  rewrite Hbase.
  destruct (render_all comment_format v (comments self)) as [rendered | e];
    cbn [bind]; [| split; [exact Hspec | reflexivity]].
  split; [exact Hspec |].
  destruct (get_max_line_length v) as [line_length | e] eqn:Hv.
  - intros Hindent.
    destruct (wrap_string_for_mcnp_returns _ _ (join_words (words self))
                v true line_length Hsplit Hv Hindent)
      as (wrapped & Hwrap & Hfits & Hcontent).
    exists wrapped. rewrite Hwrap. cbn [bind].
    split; [reflexivity |]. split; [exact Hfits |].
    now rewrite Hcontent, squeeze_join_words.
  - unfold wrap_string_for_mcnp. rewrite Hv. reflexivity.
Qed.

End Formatting.

(** The splitter of the examples cuts the text into runs: it keeps
    every character. *)
Lemma split_runs_join (s cur : string) (cur_blank : bool) :
  PyStr.join (split_runs s cur cur_blank) = String.append cur s.
Proof.
  revert cur cur_blank. induction s as [| c s IH]; intros cur cur_blank.
  - cbn. reflexivity.
  - cbn [split_runs].
    destruct (Bool.eqb (PyStr.is_whitespace c) cur_blank).
    + rewrite IH, PyStrFacts.append_assoc. reflexivity.
    + rewrite TextwrapFacts.join_cons, IH. reflexivity.
Qed.

Lemma simple_split_keeps_content : keeps_content simple_split.
Proof. intros text. unfold simple_split. now rewrite split_runs_join. Qed.

Lemma wrap_string_for_mcnp_keeps_text_witness :
  exists lines,
    wrap_string_for_mcnp 5 simple_split long_text (6, 2, 0)%Z true
    = Ok lines
    /\ squeeze (PyStr.join lines) = squeeze long_text.
Proof.
  apply (wrap_string_for_mcnp_keeps_text 5 simple_split long_text
           (6, 2, 0)%Z true 128);
    [exact simple_split_keeps_content | reflexivity | lia].
Defined.

Lemma mutated_card_is_rewrapped_witness :
  exists wrapped,
    format_for_mcnp_input verbatim_comment 5 simple_split mutated_card
      (6, 2, 0)%Z
    = Ok (["C the fuel"%string] ++ wrapped)
    /\ Forall (fun line => (String.length line <= 128)%nat) wrapped
    /\ squeeze (PyStr.join wrapped)
       = PyStr.join (List.map squeeze (words mutated_card)).
Proof.
  destruct (mutated_card_is_rewrapped verbatim_comment 5 simple_split
              mutated_card (6, 2, 0)%Z simple_split_keeps_content eq_refl)
    as [_ Hwrapped].
  apply Hwrapped. lia.
Defined.

End WrapContentFacts.

(** ** Cutting comments *)

Module CardCommentFacts.
Import constants mcnp_card card_comments.

(** X22: of the cutting comments of a card that cut the same line,
    the one that comes last in the card's comments is the one written:
    the dictionary of the first loop holds, for every line, the last
    cutting comment of that line, and nothing for a line no comment
    cuts. *)
Theorem cutting_comments_last_wins (cs : list Comment) (j : Z) :
  cutting_comments cs !! j = last (List.filter (cuts j) cs).
Proof.
  induction cs as [| x cs IH] using rev_ind.
  - reflexivity.
  - unfold cutting_comments in *. rewrite fold_left_app. cbn [fold_left].
    rewrite List.filter_app. cbn [List.filter]. unfold cuts at 2.
    destruct (is_cutting_comment x); cbn [andb].
    + destruct (card_line x =? j)%Z eqn:Hj.
      * apply Z.eqb_eq in Hj. subst j.
        rewrite lookup_insert_eq. now rewrite last_snoc.
      * apply Z.eqb_neq in Hj.
        rewrite lookup_insert_ne by exact Hj.
        now rewrite app_nil_r.
    + now rewrite app_nil_r.
Qed.

Section Formatting.

Variable comment_format : version -> Comment -> result (list string).
Variable BLANK_SPACE_CONTINUE : nat.
Variable wordsep_split : string -> list string.

Lemma weave_out_of_range (d : gmap Z Comment) (v : version) (i : Z)
    (ls : list string) :
  (forall k, (i <= k < i + Z.of_nat (length ls))%Z -> d !! k = None) ->
  weave comment_format d v i ls = Ok ls.
Proof.
  revert i. induction ls as [| line ls IH]; intros i Hnone;
    cbn [weave]; [reflexivity |].
  rewrite (Hnone i) by (cbn [length]; lia). cbn [bind].
  rewrite IH; [reflexivity |].
  intros k Hk. apply Hnone. cbn [length]. lia.
Qed.

(** X23: a cutting comment that cuts no line of the card is lost.
    When the cutting comments of an unmutated card all name a line
    below zero or past the last line, the card is written as its first
    comment followed by its input lines, and no other comment; the
    first comment is the only one rendered, and where its rendering
    raises, for a version without a line length say, so does the
    formatting of the card. *)
Theorem stray_cutting_comments_are_dropped (self : Card) (v : version)
    (first : Comment) (rest : list Comment) :
  mutated self = false ->
  comments self = first :: rest ->
  (forall c, In c (comments self) ->
     cuts_within (length (input_lines self)) c = false) ->
  format_for_mcnp_input comment_format BLANK_SPACE_CONTINUE wordsep_split
    self v
  = match comment_format v first with
    | Ok head => Ok (head ++ input_lines self)
    | Raise e => Raise e
    end.
Proof.
  intros Hmut Hcs Hstray.
  rewrite (CardFacts.format_unmutated _ _ _ self v Hmut).
  unfold _format_for_mcnp_unmutated. rewrite Hcs at 1.
  destruct (comment_format v first) as [head | e]; cbn [bind];
    [| reflexivity].
  rewrite weave_out_of_range; [reflexivity |].
  intros k Hk.
  destruct (cutting_comments (comments self) !! k) as [c |] eqn:Hc;
    [| reflexivity].
  apply CardFacts.cutting_comments_lookup in Hc as (Hin & Hcut & Hline).
  apply list_elem_of_In in Hin. specialize (Hstray c Hin).
  unfold cuts_within in Hstray. rewrite Hcut, Hline in Hstray.
  cbn [andb] in Hstray.
  apply andb_false_iff in Hstray as [H | H];
    [apply Z.leb_gt in H | apply Z.ltb_ge in H]; lia.
Qed.

End Formatting.

(** The material card built with a comment that cuts past its last
    line: the stray comment is lost for a version that has a line
    length, and the card is not written at all for one that has
    none. *)
Lemma stray_cutting_comments_are_dropped_witness :
  data_card.DataCardAbstract_init data_card.material_input
    (data_card.CommentList [preceding_comment; stray_comment])
  = data_card.Returns
      {| data_card.attributes := stray_card;
         data_card.split_name := data_card.material_1 |}
  /\ format_for_mcnp_input verbatim_comment 5 textwrap.simple_split
       stray_card (6, 2, 0)%Z
     = Ok ["C the fuel"; "m1 1001.80c 2.0"; "     8016.80c 1.0"]%string
  /\ format_for_mcnp_input verbatim_comment 5 textwrap.simple_split
       stray_card (5, 1, 38)%Z
     = Raise UnsupportedFeature.
Proof.
  split; [reflexivity |]. split.
  - apply (stray_cutting_comments_are_dropped verbatim_comment 5
             textwrap.simple_split stray_card (6, 2, 0)%Z preceding_comment
             [stray_comment]); [reflexivity | reflexivity |].
    intros c [<- | [<- | []]]; reflexivity.
  - apply (stray_cutting_comments_are_dropped verbatim_comment 5
             textwrap.simple_split stray_card (5, 1, 38)%Z preceding_comment
             [stray_comment]); [reflexivity | reflexivity |].
    intros c [<- | [<- | []]]; reflexivity.
Defined.

End CardCommentFacts.
